(** * Touch-Video-Vest-Sync: the unified haptics UDP server

    A shallow embedding of [unified_haptics_api.py] together with the parts
    of [haptics_gloves.py], [array_example.py] and [haptics_pattern_player.py]
    that the server calls, followed by the properties of the command/event
    server that the specification states.

    Conventions of the embedding.
    - JSON payloads are the Python objects [json.loads] produces: [None],
      [bool], [int], [float], [str], [list], [dict].
    - The module globals of the Python files are the fields of [state].
    - Every call that leaves the modelled code (the bHaptics player, the
      [haptics_motor_control] module, the UDP socket, the event loop, the
      file system) is appended to [trace]; what the call answers is read
      from the environment [Env], as a function of the calls made so far.
    - A coroutine is a computation in the monad [M]: it threads the state and
      either returns or raises.  [process_command] and every handler contain
      no suspension point (every [await] in them is on a coroutine that never
      yields), so each is one atomic step of the event loop.  The playback
      tasks suspend in [asyncio.sleep]; what the other tasks do to the state
      during the k-th sleep is the argument [others]. *)

From Stdlib Require Import ZArith Ascii Floats Uint63.
From stdpp Require Import gmap strings list fin_maps pretty.

#[local] Set Warnings "-register-all".

Open Scope string_scope.
Open Scope Z_scope.
Open Scope list_scope.

(** ** Python values *)

(** What [json.loads] builds.  The fields of an object are listed once per
    key, as the dict holds them. *)
Inductive json : Type :=
| JNull
| JBool (b : bool)
| JInt (z : Z)
| JFloat (f : float)
| JStr (s : string)
| JList (items : list json)
| JObj (fields : list (string * json)).

Inductive exn : Type :=
| NameError (name : string)
| AttributeError (msg : string)
| KeyError (key : string)
| IndexError (msg : string)
| TypeError (msg : string)
| OSError (msg : string)
| UnicodeDecodeError
| ExternalError (msg : string).

Inductive outcome (A : Type) : Type :=
| Ret (a : A)
| Raise (e : exn).
Arguments Ret {A} a.
Arguments Raise {A} e.

Module Py.

(** [bool(v)]: the truth value Python gives an object. *)
Definition truthy (v : json) : bool :=
  match v with
  | JNull => false
  | JBool b => b
  | JInt z => negb (z =? 0)
  | JFloat f => negb (PrimFloat.eqb f 0%float)
  | JStr s => negb (String.eqb s "")
  | JList l => match l with [] => false | _ => true end
  | JObj kv => match kv with [] => false | _ => true end
  end.

Definition type_name (v : json) : string :=
  match v with
  | JNull => "NoneType"
  | JBool _ => "bool"
  | JInt _ => "int"
  | JFloat _ => "float"
  | JStr _ => "str"
  | JList _ => "list"
  | JObj _ => "dict"
  end.

Fixpoint assoc (k : string) (kv : list (string * json)) : option json :=
  match kv with
  | [] => None
  | (k', v) :: rest => if String.eqb k k' then Some v else assoc k rest
  end.

(** [d.get(k, dflt)]; only a dict has the method. *)
Definition get (d : json) (k : string) (dflt : json) : outcome json :=
  match d with
  | JObj kv => Ret (default dflt (assoc k kv))
  | _ => Raise (AttributeError
                  ("'" +:+ type_name d +:+ "' object has no attribute 'get'"))
  end.

(** [isinstance(v, int)]: [bool] is a subclass of [int]. *)
Definition as_int (v : json) : option Z :=
  match v with
  | JInt z => Some z
  | JBool b => Some (Z.b2z b)
  | _ => None
  end.

Definition isinstance_list (v : json) : bool :=
  match v with JList _ => true | _ => false end.

(** The float a small non-negative integer literal converts to. *)
Definition float_of_lit (z : Z) : float := PrimFloat.of_uint63 (Uint63.of_Z z).

(** [lit <= v], [v <= lit] and [v > lit] against an integer literal. *)
Definition lit_le (lit : Z) (v : json) : outcome bool :=
  match v with
  | JInt z => Ret (lit <=? z)
  | JBool b => Ret (lit <=? Z.b2z b)
  | JFloat f => Ret (PrimFloat.leb (float_of_lit lit) f)
  | _ => Raise (TypeError ("'<=' not supported between instances of 'int' and '"
                           +:+ type_name v +:+ "'"))
  end.

Definition le_lit (v : json) (lit : Z) : outcome bool :=
  match v with
  | JInt z => Ret (z <=? lit)
  | JBool b => Ret (Z.b2z b <=? lit)
  | JFloat f => Ret (PrimFloat.leb f (float_of_lit lit))
  | _ => Raise (TypeError ("'<=' not supported between instances of '"
                           +:+ type_name v +:+ "' and 'int'"))
  end.

Definition gt_lit (v : json) (lit : Z) : outcome bool :=
  match v with
  | JInt z => Ret (lit <? z)
  | JBool b => Ret (lit <? Z.b2z b)
  | JFloat f => Ret (PrimFloat.ltb (float_of_lit lit) f)
  | _ => Raise (TypeError ("'>' not supported between instances of '"
                           +:+ type_name v +:+ "' and 'int'"))
  end.

(** [v == lit] against a number literal ([1.0] and [1] compare alike). *)
Definition eq_lit (v : json) (lit : Z) : bool :=
  match v with
  | JInt z => z =? lit
  | JBool b => Z.b2z b =? lit
  | JFloat f => PrimFloat.eqb f (float_of_lit lit)
  | _ => false
  end.

(** [v == "s"]. *)
Definition is_str (v : json) (s : string) : bool :=
  match v with JStr s' => String.eqb s' s | _ => false end.

(** [not isinstance(v, int) or not lo <= v <= hi]. *)
Definition not_int_between (v : json) (lo hi : Z) : bool :=
  match as_int v with
  | Some z => negb ((lo <=? z) && (z <=? hi))
  | None => true
  end.

(** [not isinstance(v, int) or v <= 0]. *)
Definition not_positive_int (v : json) : bool :=
  match as_int v with
  | Some z => z <=? 0
  | None => true
  end.

(** [not isinstance(v, (int, float)) or not 0 <= v <= 1]. *)
Definition not_unit_number (v : json) : bool :=
  match v with
  | JInt z => negb ((0 <=? z) && (z <=? 1))
  | JBool b => false
  | JFloat f => negb (PrimFloat.leb 0%float f && PrimFloat.leb f 1%float)
  | _ => true
  end.

(** [v[k]] with a string key. *)
Definition getitem_key (v : json) (k : string) : outcome json :=
  match v with
  | JObj kv => match assoc k kv with
               | Some x => Ret x
               | None => Raise (KeyError k)
               end
  | JList _ => Raise (TypeError "list indices must be integers or slices, not str")
  | JStr _ => Raise (TypeError "string indices must be integers, not 'str'")
  | _ => Raise (TypeError ("'" +:+ type_name v +:+ "' object is not subscriptable"))
  end.

(** [v[i]] with a non-negative integer index.  A dict built by
    [json.loads] has string keys only, so an integer key is never found. *)
Definition getitem_index (v : json) (i : nat) : outcome json :=
  match v with
  | JList l => match l !! i with
               | Some x => Ret x
               | None => Raise (IndexError "list index out of range")
               end
  | JStr s => match String.get i s with
              | Some c => Ret (JStr (String c EmptyString))
              | None => Raise (IndexError "string index out of range")
              end
  | JObj _ => Raise (KeyError (pretty i))
  | _ => Raise (TypeError ("'" +:+ type_name v +:+ "' object is not subscriptable"))
  end.

(** [len(v)] of a list. *)
Definition len (v : json) : json :=
  match v with
  | JList l => JInt (Z.of_nat (length l))
  | JObj kv => JInt (Z.of_nat (length kv))
  | JStr s => JInt (Z.of_nat (String.length s))
  | _ => JNull
  end.

(** The chained comparison [lo <= v <= hi]. *)
Definition between (lo : Z) (v : json) (hi : Z) : outcome bool :=
  match lit_le lo v with
  | Ret true => le_lit v hi
  | r => r
  end.

(** [v / 1000.0] needs a number. *)
Definition is_number (v : json) : bool :=
  match v with JInt _ | JBool _ | JFloat _ => true | _ => false end.

(** [str.lower] and [str.capitalize] on ASCII letters. *)
Definition lower_ascii (c : ascii) : ascii :=
  let n := nat_of_ascii c in
  if ((65 <=? n) && (n <=? 90))%nat then ascii_of_nat (n + 32) else c.

Definition upper_ascii (c : ascii) : ascii :=
  let n := nat_of_ascii c in
  if ((97 <=? n) && (n <=? 122))%nat then ascii_of_nat (n - 32) else c.

Fixpoint lower (s : string) : string :=
  match s with
  | EmptyString => EmptyString
  | String c rest => String (lower_ascii c) (lower rest)
  end.

Definition capitalize (s : string) : string :=
  match s with
  | EmptyString => EmptyString
  | String c rest => String (upper_ascii c) (lower rest)
  end.

(** A method of [str] called on an arbitrary object. *)
Definition str_method (name : string) (f : string -> string) (v : json) : outcome string :=
  match v with
  | JStr s => Ret (f s)
  | _ => Raise (AttributeError
                  ("'" +:+ type_name v +:+ "' object has no attribute '" +:+ name +:+ "'"))
  end.

(** Whether [hash(v)] succeeds, as a dict or set lookup needs. *)
Definition hashable (v : json) : bool :=
  match v with JList _ | JObj _ => false | _ => true end.

End Py.

(** [str(e)] of an exception, as the f-strings of the server print it. *)
Definition exn_str (e : exn) : string :=
  match e with
  | NameError n => "name '" +:+ n +:+ "' is not defined"
  | AttributeError m => m
  | KeyError k => "'" +:+ k +:+ "'"
  | IndexError m => m
  | TypeError m => m
  | OSError m => m
  | UnicodeDecodeError => "'utf-8' codec can't decode bytes"
  | ExternalError m => m
  end.

(** ** The world outside the modelled code *)

Definition address : Type := string * Z.

(** Members of the player library's [BhapticsPosition] enumeration that the
    server names. *)
Inductive BhapticsPosition : Type := Vest | ForearmL | ForearmR | GloveL | GloveR.

(** Calls into the bHaptics player module ([better_haptic_player]): the
    Device Session Adapter. *)
Inductive player_op : Type :=
| PIsDeviceConnected (position : BhapticsPosition)
| PIsPlaying
| PIsPlayingKey (key : json)
| PStopKey (key : json)
| PStopAll
| PSubmitDot (key position dots duration_ms : json)
| PSubmitPath (key position path duration_ms : json)
| PRegister (key file_path : json)
| PSubmitRegistered (key : json)
| PSubmitRegisteredWithOption (key alt_key scale rotation_option : json)
| PWsClose
| PDestroy.

(** Background tasks handed to [event_loop.create_task]. *)
Inductive task : Type :=
| PlayPatternTask (pattern_file key : json) (client_id command_id : string)
| PlayWavePatternTask (client_id command_id : string)
| PlayAlternatingPatternTask (client_id command_id : string)
| PlayCustomPatternTask (pattern duration_ms : json) (client_id command_id : string).

(** Everything the server does to the outside, in the order it does it.
    [hmc_activate_discrete], [hmc_activate_funnelling] and [hmc_cleanup] are
    the functions of [haptics_motor_control], a module of the repository
    whose source is not at hand: they are calls to the outside like the
    player's. *)
Inductive effect : Type :=
| ESendto (addr : address) (payload : json)
| EPlayer (op : player_op)
| EHmcActivateDiscrete (panel motor_index intensity duration_ms : json)
| EHmcActivateFunnelling (panel x y intensity duration_ms : json)
| EHmcCleanup
| ELoadAndPlayTactFile
| EPathExists (path : json)
| ECreateTask (t : task)
| ECallSoonOsExit
| EServerSocketClose
| EDiscoverySocketClose.

(** What the outside answers.  [answer] gives the result of a call from the
    calls made before it; the clock and the formatting of floats and
    containers are the interpreter's. *)
Class Env : Type := {
  answer : list effect -> effect -> outcome json;
  isoformat_now : list effect -> string;
  time_time : list effect -> float;
  format_uptime : float -> string;
  repr : json -> string
}.

(** ** Server state *)

(** An entry of [active_command_ids]. *)
Record correlation : Type := {
  corr_client_id : string;
  corr_command : option string;
  corr_start_time : float
}.

(** The module globals of [unified_haptics_api] ([running], [cleanup_done],
    [current_clients], [active_command_ids], [event_handlers]), the
    attributes of the [HapticsServer] instance, the [cleanup_done] flags of
    [haptics_gloves] and [array_example], [thread_should_exit] of
    [haptics_pattern_player], whether [player.ws] is set, and the calls made
    so far. *)
Record state : Type := {
  running : bool;
  cleanup_done : bool;
  current_clients : gmap string address;
  active_command_ids : gmap string correlation;
  event_handlers : gmap string (gset string);
  server_id : string;
  port : Z;
  start_time : float;
  server_socket_closed : bool;
  discovery_socket_closed : bool;
  gloves_cleanup_done : bool;
  array_cleanup_done : bool;
  thread_should_exit : bool;
  player_ws : bool;
  trace : list effect
}.

Definition set_running (x : bool) (st : state) : state :=
  {| running := x; cleanup_done := st.(cleanup_done); current_clients :=
     st.(current_clients); active_command_ids := st.(active_command_ids);
     event_handlers := st.(event_handlers); server_id := st.(server_id);
     port := st.(port); start_time := st.(start_time); server_socket_closed
     := st.(server_socket_closed); discovery_socket_closed :=
     st.(discovery_socket_closed); gloves_cleanup_done :=
     st.(gloves_cleanup_done); array_cleanup_done :=
     st.(array_cleanup_done); thread_should_exit := st.(thread_should_exit);
     player_ws := st.(player_ws); trace := st.(trace) |}.

Definition set_cleanup_done (x : bool) (st : state) : state :=
  {| running := st.(running); cleanup_done := x; current_clients :=
     st.(current_clients); active_command_ids := st.(active_command_ids);
     event_handlers := st.(event_handlers); server_id := st.(server_id);
     port := st.(port); start_time := st.(start_time); server_socket_closed
     := st.(server_socket_closed); discovery_socket_closed :=
     st.(discovery_socket_closed); gloves_cleanup_done :=
     st.(gloves_cleanup_done); array_cleanup_done :=
     st.(array_cleanup_done); thread_should_exit := st.(thread_should_exit);
     player_ws := st.(player_ws); trace := st.(trace) |}.

Definition set_current_clients (x : gmap string address) (st : state) : state :=
  {| running := st.(running); cleanup_done := st.(cleanup_done);
     current_clients := x; active_command_ids := st.(active_command_ids);
     event_handlers := st.(event_handlers); server_id := st.(server_id);
     port := st.(port); start_time := st.(start_time); server_socket_closed
     := st.(server_socket_closed); discovery_socket_closed :=
     st.(discovery_socket_closed); gloves_cleanup_done :=
     st.(gloves_cleanup_done); array_cleanup_done :=
     st.(array_cleanup_done); thread_should_exit := st.(thread_should_exit);
     player_ws := st.(player_ws); trace := st.(trace) |}.

Definition set_active_command_ids (x : gmap string correlation) (st : state) : state :=
  {| running := st.(running); cleanup_done := st.(cleanup_done);
     current_clients := st.(current_clients); active_command_ids := x;
     event_handlers := st.(event_handlers); server_id := st.(server_id);
     port := st.(port); start_time := st.(start_time); server_socket_closed
     := st.(server_socket_closed); discovery_socket_closed :=
     st.(discovery_socket_closed); gloves_cleanup_done :=
     st.(gloves_cleanup_done); array_cleanup_done :=
     st.(array_cleanup_done); thread_should_exit := st.(thread_should_exit);
     player_ws := st.(player_ws); trace := st.(trace) |}.

Definition set_event_handlers (x : gmap string (gset string)) (st : state) : state :=
  {| running := st.(running); cleanup_done := st.(cleanup_done);
     current_clients := st.(current_clients); active_command_ids :=
     st.(active_command_ids); event_handlers := x; server_id :=
     st.(server_id); port := st.(port); start_time := st.(start_time);
     server_socket_closed := st.(server_socket_closed);
     discovery_socket_closed := st.(discovery_socket_closed);
     gloves_cleanup_done := st.(gloves_cleanup_done); array_cleanup_done :=
     st.(array_cleanup_done); thread_should_exit := st.(thread_should_exit);
     player_ws := st.(player_ws); trace := st.(trace) |}.

Definition set_server_socket_closed (x : bool) (st : state) : state :=
  {| running := st.(running); cleanup_done := st.(cleanup_done);
     current_clients := st.(current_clients); active_command_ids :=
     st.(active_command_ids); event_handlers := st.(event_handlers);
     server_id := st.(server_id); port := st.(port); start_time :=
     st.(start_time); server_socket_closed := x; discovery_socket_closed :=
     st.(discovery_socket_closed); gloves_cleanup_done :=
     st.(gloves_cleanup_done); array_cleanup_done :=
     st.(array_cleanup_done); thread_should_exit := st.(thread_should_exit);
     player_ws := st.(player_ws); trace := st.(trace) |}.

Definition set_discovery_socket_closed (x : bool) (st : state) : state :=
  {| running := st.(running); cleanup_done := st.(cleanup_done);
     current_clients := st.(current_clients); active_command_ids :=
     st.(active_command_ids); event_handlers := st.(event_handlers);
     server_id := st.(server_id); port := st.(port); start_time :=
     st.(start_time); server_socket_closed := st.(server_socket_closed);
     discovery_socket_closed := x; gloves_cleanup_done :=
     st.(gloves_cleanup_done); array_cleanup_done :=
     st.(array_cleanup_done); thread_should_exit := st.(thread_should_exit);
     player_ws := st.(player_ws); trace := st.(trace) |}.

Definition set_gloves_cleanup_done (x : bool) (st : state) : state :=
  {| running := st.(running); cleanup_done := st.(cleanup_done);
     current_clients := st.(current_clients); active_command_ids :=
     st.(active_command_ids); event_handlers := st.(event_handlers);
     server_id := st.(server_id); port := st.(port); start_time :=
     st.(start_time); server_socket_closed := st.(server_socket_closed);
     discovery_socket_closed := st.(discovery_socket_closed);
     gloves_cleanup_done := x; array_cleanup_done :=
     st.(array_cleanup_done); thread_should_exit := st.(thread_should_exit);
     player_ws := st.(player_ws); trace := st.(trace) |}.

Definition set_array_cleanup_done (x : bool) (st : state) : state :=
  {| running := st.(running); cleanup_done := st.(cleanup_done);
     current_clients := st.(current_clients); active_command_ids :=
     st.(active_command_ids); event_handlers := st.(event_handlers);
     server_id := st.(server_id); port := st.(port); start_time :=
     st.(start_time); server_socket_closed := st.(server_socket_closed);
     discovery_socket_closed := st.(discovery_socket_closed);
     gloves_cleanup_done := st.(gloves_cleanup_done); array_cleanup_done :=
     x; thread_should_exit := st.(thread_should_exit); player_ws :=
     st.(player_ws); trace := st.(trace) |}.

Definition set_thread_should_exit (x : bool) (st : state) : state :=
  {| running := st.(running); cleanup_done := st.(cleanup_done);
     current_clients := st.(current_clients); active_command_ids :=
     st.(active_command_ids); event_handlers := st.(event_handlers);
     server_id := st.(server_id); port := st.(port); start_time :=
     st.(start_time); server_socket_closed := st.(server_socket_closed);
     discovery_socket_closed := st.(discovery_socket_closed);
     gloves_cleanup_done := st.(gloves_cleanup_done); array_cleanup_done :=
     st.(array_cleanup_done); thread_should_exit := x; player_ws :=
     st.(player_ws); trace := st.(trace) |}.

Definition set_player_ws (x : bool) (st : state) : state :=
  {| running := st.(running); cleanup_done := st.(cleanup_done);
     current_clients := st.(current_clients); active_command_ids :=
     st.(active_command_ids); event_handlers := st.(event_handlers);
     server_id := st.(server_id); port := st.(port); start_time :=
     st.(start_time); server_socket_closed := st.(server_socket_closed);
     discovery_socket_closed := st.(discovery_socket_closed);
     gloves_cleanup_done := st.(gloves_cleanup_done); array_cleanup_done :=
     st.(array_cleanup_done); thread_should_exit := st.(thread_should_exit);
     player_ws := x; trace := st.(trace) |}.

Definition set_trace (x : list effect) (st : state) : state :=
  {| running := st.(running); cleanup_done := st.(cleanup_done);
     current_clients := st.(current_clients); active_command_ids :=
     st.(active_command_ids); event_handlers := st.(event_handlers);
     server_id := st.(server_id); port := st.(port); start_time :=
     st.(start_time); server_socket_closed := st.(server_socket_closed);
     discovery_socket_closed := st.(discovery_socket_closed);
     gloves_cleanup_done := st.(gloves_cleanup_done); array_cleanup_done :=
     st.(array_cleanup_done); thread_should_exit := st.(thread_should_exit);
     player_ws := st.(player_ws); trace := x |}.

(** ** Coroutines: state threaded, exceptions propagated *)

Definition M (A : Type) : Type := state -> outcome A * state.

#[global] Instance M_ret : MRet M := fun A a st => (Ret a, st).

#[global] Instance M_bind : MBind M := fun A B k m st =>
  match m st with
  | (Ret a, st') => k a st'
  | (Raise e, st') => (Raise e, st')
  end.

Definition raise {A : Type} (e : exn) : M A := fun st => (Raise e, st).

Definition lift {A : Type} (o : outcome A) : M A := fun st => (o, st).

Definition gets {A : Type} (f : state -> A) : M A := fun st => (Ret (f st), st).

Definition modify (f : state -> state) : M unit := fun st => (Ret tt, f st).

(** [try: body except Exception as e: handler(e)]. *)
Definition try_except {A : Type} (body : M A) (handler : exn -> M A) : M A :=
  fun st =>
    match body st with
    | (Ret a, st') => (Ret a, st')
    | (Raise e, st') => handler e st'
    end.

Definition final {A : Type} (r : outcome A * state) : state := snd r.
Definition result {A : Type} (r : outcome A * state) : outcome A := fst r.

(** [str(v)] inside an f-string. *)
Definition py_str `{Env} (v : json) : string :=
  match v with
  | JStr s => s
  | JNull => "None"
  | JBool true => "True"
  | JBool false => "False"
  | JInt z => pretty z
  | _ => repr v
  end.

Definition opt_str (o : option string) : json :=
  match o with Some s => JStr s | None => JNull end.

Section Server.
Context `{Env}.

(** *** unified_haptics_api.py: talking to the outside *)

(** A call whose result the caller ignores and that does not fail. *)
Definition emit (e : effect) : M unit :=
  modify (fun st => set_trace (trace st ++ [e]) st).

(** A call that may return a value or raise. *)
Definition call (e : effect) : M json :=
  fun st => (answer (trace st) e, set_trace (trace st ++ [e]) st).

Definition now_iso : M json := gets (fun st => JStr (isoformat_now (trace st))).

(** [self.server_socket.sendto(json.dumps(payload).encode('utf-8'), addr)];
    a closed socket raises before anything leaves. *)
Definition server_socket_sendto (payload : json) (addr : address) : M unit :=
  closed ← gets server_socket_closed;
  if (closed : bool) then raise (OSError "[Errno 9] Bad file descriptor")
  else call (ESendto addr payload) ;; mret tt.

Definition pop_command_id (command_id : string) : M unit :=
  modify (fun st => set_active_command_ids (delete command_id (active_command_ids st)) st).

Definition response_envelope (command_id : string) (timestamp result : json) : json :=
  JObj [("type", JStr "response");
        ("command_id", JStr command_id);
        ("timestamp", timestamp);
        ("result", result)].

Definition error_envelope (command_id error_message : string) (timestamp : json) : json :=
  JObj [("type", JStr "error");
        ("command_id", JStr command_id);
        ("error", JStr error_message);
        ("timestamp", timestamp)].

Definition send_response (result : json) (client_id command_id : string) : M unit :=
  try_except
    (addr ← gets (fun st => current_clients st !! client_id);
     match addr with
     | None => mret tt
     | Some addr =>
         timestamp ← now_iso;
         let response := response_envelope command_id timestamp result in
         server_socket_sendto response addr ;;
         pop_command_id command_id
     end)
    (fun _ => mret tt).

Definition send_error_response (error_message : string) (client_id command_id : string)
  : M unit :=
  try_except
    (addr ← gets (fun st => current_clients st !! client_id);
     match addr with
     | None => mret tt
     | Some addr =>
         timestamp ← now_iso;
         let response := error_envelope command_id error_message timestamp in
         server_socket_sendto response addr ;;
         pop_command_id command_id
     end)
    (fun _ => mret tt).

(** The clients [_send_event] iterates over.  An empty [target_client_id]
    is falsy, which selects every subscriber; Python fixes no order on a
    set, [elements] is one. *)
Definition event_clients (event_type target_client_id : string) (st : state)
  : list string :=
  let subscribed := default ∅ (event_handlers st !! event_type) in
  if String.eqb target_client_id "" then elements subscribed
  else if bool_decide (target_client_id ∈ subscribed) then [target_client_id]
       else [].

Definition event_message (event_type : string) (timestamp data : json) : json :=
  JObj [("type", JStr "event");
        ("event_type", JStr event_type);
        ("timestamp", timestamp);
        ("data", data)].

Fixpoint send_event_to (event_type : string) (data : json) (clients : list string)
  : M unit :=
  match clients with
  | [] => mret tt
  | client_id :: rest =>
      addr ← gets (fun st => current_clients st !! client_id);
      match addr with
      | Some addr =>
          try_except
            (timestamp ← now_iso;
             server_socket_sendto (event_message event_type timestamp data) addr)
            (fun _ => mret tt)
      | None => mret tt
      end ;;
      send_event_to event_type data rest
  end.

Definition _send_event (event_type : string) (data : json) (target_client_id : string)
  : M unit :=
  clients ← gets (event_clients event_type target_client_id);
  send_event_to event_type data clients.

Fixpoint for_each {A : Type} (body : A -> M unit) (l : list A) : M unit :=
  match l with
  | [] => mret tt
  | x :: rest => body x ;; for_each body rest
  end.

Definition param (params : json) (key : string) (dflt : json) : M json :=
  lift (Py.get params key dflt).

Definition error_result (msg : string) : json :=
  JObj [("success", JBool false); ("error", JStr msg)].

(** *** haptics_gloves.py *)

(** The value of an enumeration member, as the player library names it. *)
Definition position_value (p : BhapticsPosition) : json :=
  JStr match p with
       | Vest => "Vest"
       | ForearmL => "ForearmL"
       | ForearmR => "ForearmR"
       | GloveL => "GloveL"
       | GloveR => "GloveR"
       end.

Definition activate_glove_motor (glove motor_index intensity duration_ms : json)
  : M bool :=
  g ← lift (Py.str_method "lower" Py.lower glove);
  if negb (String.eqb g "left" || String.eqb g "right") then mret false
  else
    motor_ok ← lift (Py.between 0 motor_index 5);
    if negb motor_ok then mret false
    else
      intensity_ok ← lift (Py.between 0 intensity 100);
      if negb intensity_ok then mret false
      else
        non_positive ← lift (Py.le_lit duration_ms 0);
        if (non_positive : bool) then mret false
        else
          try_except
            (let glove_position :=
               if String.eqb g "left" then position_value GloveL
               else position_value GloveR in
             cap ← lift (Py.str_method "capitalize" Py.capitalize glove);
             let frame_name :=
               "glove" +:+ cap +:+ "Frame_motor_" +:+ py_str motor_index in
             call (EPlayer (PSubmitDot (JStr frame_name) glove_position
                              (JList [JObj [("index", motor_index);
                                            ("intensity", intensity)]])
                              duration_ms)) ;;
             mret true)
            (fun _ => mret false).

(** [cleanup] of [haptics_gloves]: guarded by the module's own flag. *)
Definition gloves_cleanup : M unit :=
  done ← gets gloves_cleanup_done;
  if (done : bool) then mret tt
  else
    try_except
      (ws ← gets player_ws;
       (if (ws : bool) then
          modify (set_player_ws false) ;;
          try_except (call (EPlayer PWsClose) ;; mret tt) (fun _ => mret tt)
        else mret tt) ;;
       call (EPlayer PDestroy) ;;
       modify (set_gloves_cleanup_done true))
      (fun _ => mret tt).

(** *** array_example.py *)

Definition pattern_step (front back : json) : json :=
  JObj [("front", front); ("back", back)].

Definition motors (a b c d : Z) : json := JList [JInt a; JInt b; JInt c; JInt d].

Definition off : json := motors 0 0 0 0.
Definition full : json := motors 100 100 100 100.
Definition half : json := motors 50 50 50 50.
Definition checker : json := motors 100 0 100 0.

(** Five steps: one row at full intensity in front and at half intensity at
    the back, moving from the top row to the bottom row. *)
Definition WAVE_PATTERN : list json :=
  [ pattern_step (JList [full; off; off; off; off]) (JList [half; off; off; off; off]);
    pattern_step (JList [off; full; off; off; off]) (JList [off; half; off; off; off]);
    pattern_step (JList [off; off; full; off; off]) (JList [off; off; half; off; off]);
    pattern_step (JList [off; off; off; full; off]) (JList [off; off; off; half; off]);
    pattern_step (JList [off; off; off; off; full]) (JList [off; off; off; off; half]) ].

(** Four steps: all front, all back, front checkerboard, back checkerboard. *)
Definition ALTERNATING_PATTERN : list json :=
  [ pattern_step (JList [full; full; full; full; full]) (JList [off; off; off; off; off]);
    pattern_step (JList [off; off; off; off; off]) (JList [full; full; full; full; full]);
    pattern_step (JList [checker; checker; checker; checker; checker])
      (JList [off; off; off; off; off]);
    pattern_step (JList [off; off; off; off; off])
      (JList [checker; checker; checker; checker; checker]) ].

Definition activate_panel (panel : string) (pattern_step duration_ms : json) : M unit :=
  for_each (fun row =>
    for_each (fun col =>
      let motor_idx := (row * 4 + col)%nat in
      matrix ← lift (Py.getitem_key pattern_step panel);
      line ← lift (Py.getitem_index matrix row);
      intensity ← lift (Py.getitem_index line col);
      positive ← lift (Py.gt_lit intensity 0);
      if (positive : bool) then
        call (EHmcActivateDiscrete (JStr panel) (JInt (Z.of_nat motor_idx))
                intensity duration_ms) ;;
        mret tt
      else mret tt)
    (seq 0 4))
  (seq 0 5).

(** The closing wait of [activate_motor_array] polls the clock and the
    [running] flag of [array_example]; it touches nothing modelled, but
    computing its length divides [duration_ms] by a float. *)
Definition activate_motor_array (pattern_step duration_ms : json) : M unit :=
  activate_panel "front" pattern_step duration_ms ;;
  activate_panel "back" pattern_step duration_ms ;;
  if Py.is_number duration_ms then mret tt
  else raise (TypeError ("unsupported operand type(s) for /: '"
                         +:+ Py.type_name duration_ms +:+ "' and 'float'")).

(** [cleanup] of [array_example]: the same shape as the gloves' one, with
    its own flag; its [player] is the object [haptics_motor_control]
    imports, the same player module. *)
Definition array_example_cleanup : M unit :=
  done ← gets array_cleanup_done;
  if (done : bool) then mret tt
  else
    try_except
      (ws ← gets player_ws;
       (if (ws : bool) then
          modify (set_player_ws false) ;;
          try_except (call (EPlayer PWsClose) ;; mret tt) (fun _ => mret tt)
        else mret tt) ;;
       call (EPlayer PDestroy) ;;
       modify (set_array_cleanup_done true))
      (fun _ => mret tt).

(** *** haptics_pattern_player.py *)

(** [cleanup] of [haptics_pattern_player] has no guard.  Joining the
    receiver thread only waits. *)
Definition pattern_player_cleanup : M unit :=
  try_except
    (modify (set_thread_should_exit true) ;;
     call (EPlayer PDestroy) ;;
     mret tt)
    (fun _ => mret tt).

(** [load_and_play_tact_file(keep_alive=False)] drives the player from a
    file on disk; the server only observes whether it returns or raises. *)
Definition load_and_play_tact_file : M unit :=
  call ELoadAndPlayTactFile ;; mret tt.

(** *** unified_haptics_api.py: command handlers

    A handler takes [params], [client_id] and [command_id] and returns a
    result dict, or [None] when it has sent its own response. *)

Definition handler : Type := json -> string -> string -> M (option json).

Definition handle_ping : handler := fun params client_id command_id =>
  timestamp ← now_iso;
  echo ← param params "message" (JStr "");
  mret (Some (JObj [("success", JBool true);
                    ("message", JStr "Pong");
                    ("timestamp", timestamp);
                    ("echo", echo)])).

Definition is_device_connected (p : BhapticsPosition) : M json :=
  call (EPlayer (PIsDeviceConnected p)).

Definition device_statuses : M json :=
  vest ← is_device_connected Vest;
  forearm_left ← is_device_connected ForearmL;
  forearm_right ← is_device_connected ForearmR;
  glove_left ← is_device_connected GloveL;
  glove_right ← is_device_connected GloveR;
  mret (JObj [("vest", vest);
              ("forearm_left", forearm_left);
              ("forearm_right", forearm_right);
              ("glove_left", glove_left);
              ("glove_right", glove_right)]).

Definition get_status_data : M json :=
  uptime_seconds ← gets (fun st => PrimFloat.sub (time_time (trace st)) (start_time st));
  let uptime_str := format_uptime uptime_seconds in
  device_status ← device_statuses;
  sid ← gets server_id;
  clients ← gets (fun st => size (current_clients st));
  commands ← gets (fun st => size (active_command_ids st));
  playing ← call (EPlayer PIsPlaying);
  mret (JObj [("server_id", JStr sid);
              ("api_version", JStr "1.0.0");
              ("uptime", JStr uptime_str);
              ("uptime_seconds", JFloat uptime_seconds);
              ("connected_clients", JInt (Z.of_nat clients));
              ("active_commands", JInt (Z.of_nat commands));
              ("devices", device_status);
              ("playback_active", playing)]).

Definition handle_get_status : handler := fun params client_id command_id =>
  status ← get_status_data;
  mret (Some status).

Definition device_map (device_type : string) : option BhapticsPosition :=
  if String.eqb device_type "vest" then Some Vest
  else if String.eqb device_type "forearm_left" then Some ForearmL
  else if String.eqb device_type "forearm_right" then Some ForearmR
  else if String.eqb device_type "glove_left" then Some GloveL
  else if String.eqb device_type "glove_right" then Some GloveR
  else None.

Definition handle_get_device_status : handler := fun params client_id command_id =>
  device_type ← param params "device_type" (JStr "all");
  if Py.is_str device_type "all" then
    statuses ← device_statuses;
    mret (Some statuses)
  else if negb (Py.hashable device_type) then
    raise (TypeError ("unhashable type: '" +:+ Py.type_name device_type +:+ "'"))
  else
    match match device_type with JStr s => device_map s | _ => None end with
    | None => mret (Some (error_result ("Unknown device type: " +:+ py_str device_type)))
    | Some position =>
        connected ← is_device_connected position;
        mret (Some (JObj [("device_type", device_type); ("connected", connected)]))
    end.

(** Names bound at module level in [unified_haptics_api.py]: its imports,
    constants, globals, class and functions. *)
Definition module_level_names : list string :=
  [ "asyncio"; "signal"; "sys"; "os"; "json"; "socket"; "threading"; "time";
    "logging"; "uuid"; "traceback"; "datetime"; "Dict"; "List"; "Any"; "Tuple";
    "Optional"; "Union"; "player"; "BhapticsPosition"; "hmc_activate_discrete";
    "hmc_activate_funnelling"; "hmc_cleanup"; "activate_glove_motor";
    "gloves_cleanup"; "load_and_play_tact_file"; "pattern_player_cleanup";
    "WAVE_PATTERN"; "ALTERNATING_PATTERN"; "activate_motor_array";
    "array_example_cleanup"; "logger"; "DEFAULT_SERVER_PORT"; "BROADCAST_PORT";
    "DISCOVERY_PHRASE"; "DISCOVERY_RESPONSE"; "MAX_PACKET_SIZE"; "API_VERSION";
    "running"; "cleanup_done"; "current_clients"; "active_command_ids";
    "background_tasks"; "event_handlers"; "HapticsServer"; "signal_handler";
    "main"; "haptics_server" ].

(** Reading a name that the function body never binds: Python looks it up
    among the module's globals (and then the builtins, none of which has one
    of the names read below) and raises [NameError] when it is not there.
    A module-level object is no JSON value; that branch is not taken by any
    name this file reads. *)
Definition load_global (name : string) : M json :=
  if bool_decide (name ∈ module_level_names) then mret JNull
  else raise (NameError name).

(** The body of [handle_register_event_callback] as the file has it: after
    the test of [event_type] it continues with statements that read
    [duration_ms], [panel], [x], [y] and [intensity], none of which the
    function binds. *)
Definition handle_register_event_callback : handler := fun params client_id command_id =>
  event_type ← param params "event_type" JNull;
  if negb (Py.truthy event_type) then
    mret (Some (error_result "Intensity must be an integer between 0 and 100"))
  else
    duration_ms ← load_global "duration_ms";
    if Py.not_positive_int duration_ms then
      mret (Some (error_result "Duration must be a positive integer"))
    else
      panel ← load_global "panel";
      x ← load_global "x";
      y ← load_global "y";
      intensity ← load_global "intensity";
      success ← call (EHmcActivateFunnelling panel x y intensity duration_ms);
      if Py.truthy success then
        mret (Some (JObj [("success", JBool true);
                          ("panel", panel);
                          ("x", x);
                          ("y", y);
                          ("intensity", intensity);
                          ("duration_ms", duration_ms)]))
      else mret (Some (error_result "Failed to activate funnelling effect")).

(** [event_type in event_handlers]: hashing comes first; the keys are
    strings. *)
Definition subscribers_of (event_type : json) : M (option (gset string)) :=
  if negb (Py.hashable event_type) then
    raise (TypeError ("unhashable type: '" +:+ Py.type_name event_type +:+ "'"))
  else
    match event_type with
    | JStr s => gets (fun st => event_handlers st !! s)
    | _ => mret None
    end.

Definition handle_unregister_event_callback : handler := fun params client_id command_id =>
  event_type ← param params "event_type" JNull;
  if negb (Py.truthy event_type) then
    modify (fun st =>
      set_event_handlers ((fun callbacks => callbacks ∖ {[client_id]}) <$> event_handlers st) st) ;;
    mret (Some (JObj [("success", JBool true);
                      ("message", JStr "Unregistered from all events")]))
  else
    callbacks ← subscribers_of event_type;
    match callbacks, event_type with
    | Some callbacks, JStr s =>
        if bool_decide (client_id ∈ callbacks) then
          modify (fun st =>
            set_event_handlers (<[s := callbacks ∖ {[client_id]}]> (event_handlers st)) st) ;;
          mret (Some (JObj [("success", JBool true);
                            ("event_type", event_type);
                            ("message", JStr ("Unregistered from " +:+ s +:+ " events"))]))
        else
          mret (Some (error_result ("Not registered for " +:+ s +:+ " events")))
    | _, _ =>
        mret (Some (error_result ("Not registered for " +:+ py_str event_type +:+ " events")))
    end.

(** [call_soon_threadsafe(lambda: os._exit(0))] queues the exit on the
    loop; a graceful shutdown only clears [running]. *)
Definition initiate_shutdown (force : json) : M unit :=
  if Py.truthy force then emit ECallSoonOsExit
  else modify (set_running false).

Definition handle_shutdown : handler := fun params client_id command_id =>
  force ← param params "force" (JBool false);
  send_response (JObj [("success", JBool true);
                       ("message", JStr "Server is shutting down");
                       ("force", force)]) client_id command_id ;;
  initiate_shutdown force ;;
  mret None.

Definition valid_panel (panel : json) : bool :=
  Py.is_str panel "front" || Py.is_str panel "back".

Definition valid_glove (glove : json) : bool :=
  Py.is_str glove "left" || Py.is_str glove "right".

Definition handle_activate_discrete : handler := fun params client_id command_id =>
  panel ← param params "panel" JNull;
  motor_index ← param params "motor_index" JNull;
  intensity ← param params "intensity" (JInt 100);
  duration_ms ← param params "duration_ms" (JInt 500);
  if negb (valid_panel panel) then
    mret (Some (error_result "Panel must be 'front' or 'back'"))
  else if Py.not_int_between motor_index 0 19 then
    mret (Some (error_result "Motor index must be an integer between 0 and 19"))
  else if Py.not_int_between intensity 0 100 then
    mret (Some (error_result "Intensity must be an integer between 0 and 100"))
  else if Py.not_positive_int duration_ms then
    mret (Some (error_result "Duration must be a positive integer"))
  else
    success ← call (EHmcActivateDiscrete panel motor_index intensity duration_ms);
    if Py.truthy success then
      mret (Some (JObj [("success", JBool true);
                        ("panel", panel);
                        ("motor_index", motor_index);
                        ("intensity", intensity);
                        ("duration_ms", duration_ms)]))
    else mret (Some (error_result "Failed to activate motor")).

Definition handle_activate_funnelling : handler := fun params client_id command_id =>
  panel ← param params "panel" JNull;
  x ← param params "x" JNull;
  y ← param params "y" JNull;
  intensity ← param params "intensity" (JInt 100);
  duration_ms ← param params "duration_ms" (JInt 500);
  if negb (valid_panel panel) then
    mret (Some (error_result "Panel must be 'front' or 'back'"))
  else if Py.not_unit_number x then
    mret (Some (error_result "X coordinate must be a number between 0.0 and 1.0"))
  else if Py.not_unit_number y then
    mret (Some (error_result "Y coordinate must be a number between 0.0 and 1.0"))
  else if Py.not_int_between intensity 0 100 then
    mret (Some (error_result "Intensity must be an integer between 0 and 100"))
  else if Py.not_positive_int duration_ms then
    mret (Some (error_result "Duration must be a positive integer"))
  else
    success ← call (EHmcActivateFunnelling panel x y intensity duration_ms);
    if Py.truthy success then
      mret (Some (JObj [("success", JBool true);
                        ("panel", panel);
                        ("x", x);
                        ("y", y);
                        ("intensity", intensity);
                        ("duration_ms", duration_ms)]))
    else mret (Some (error_result "Failed to activate funnelling effect")).

Definition handle_activate_glove_motor : handler := fun params client_id command_id =>
  glove ← param params "glove" JNull;
  motor_index ← param params "motor_index" JNull;
  intensity ← param params "intensity" (JInt 100);
  duration_ms ← param params "duration_ms" (JInt 500);
  if negb (valid_glove glove) then
    mret (Some (error_result "Glove must be 'left' or 'right'"))
  else if Py.not_int_between motor_index 0 5 then
    mret (Some (error_result "Motor index must be an integer between 0 and 5"))
  else if Py.not_int_between intensity 0 100 then
    mret (Some (error_result "Intensity must be an integer between 0 and 100"))
  else if Py.not_positive_int duration_ms then
    mret (Some (error_result "Duration must be a positive integer"))
  else
    success ← activate_glove_motor glove motor_index intensity duration_ms;
    if (success : bool) then
      mret (Some (JObj [("success", JBool true);
                        ("glove", glove);
                        ("motor_index", motor_index);
                        ("intensity", intensity);
                        ("duration_ms", duration_ms)]))
    else mret (Some (error_result "Failed to activate glove motor")).


Definition handle_play_pattern : handler := fun params client_id command_id =>
  pattern_file ← param params "pattern_file" JNull;
  key ← param params "key" JNull;
  if negb (Py.truthy pattern_file) then
    mret (Some (error_result "Missing pattern_file parameter"))
  else
    emit (ECreateTask (PlayPatternTask pattern_file key client_id command_id)) ;;
    mret (Some (JObj [("success", JBool true);
                      ("message", JStr "Pattern playback started");
                      ("pattern_file", pattern_file);
                      ("key", key)])).

Definition handle_stop_pattern : handler := fun params client_id command_id =>
  key ← param params "key" JNull;
  (if Py.truthy key then call (EPlayer (PStopKey key)) else call (EPlayer PStopAll)) ;;
  mret (Some (JObj [("success", JBool true);
                    ("message", JStr ((if Py.truthy key then "Pattern" else "All patterns")
                                      +:+ " stopped"));
                    ("key", key)])).

Definition handle_is_pattern_playing : handler := fun params client_id command_id =>
  key ← param params "key" JNull;
  is_playing ← (if Py.truthy key then call (EPlayer (PIsPlayingKey key))
                else call (EPlayer PIsPlaying));
  mret (Some (JObj [("success", JBool true);
                    ("playing", is_playing);
                    ("key", key)])).

Definition handle_play_wave_pattern : handler := fun params client_id command_id =>
  emit (ECreateTask (PlayWavePatternTask client_id command_id)) ;;
  mret (Some (JObj [("success", JBool true);
                    ("message", JStr "Wave pattern playback started");
                    ("pattern_type", JStr "wave")])).

Definition handle_play_alternating_pattern : handler := fun params client_id command_id =>
  emit (ECreateTask (PlayAlternatingPatternTask client_id command_id)) ;;
  mret (Some (JObj [("success", JBool true);
                    ("message", JStr "Alternating pattern playback started");
                    ("pattern_type", JStr "alternating")])).

Definition handle_play_custom_pattern : handler := fun params client_id command_id =>
  pattern ← param params "pattern" JNull;
  duration_ms ← param params "duration_ms" (JInt 500);
  if negb (Py.truthy pattern) || negb (Py.isinstance_list pattern) then
    mret (Some (error_result "Missing or invalid pattern parameter"))
  else if Py.not_positive_int duration_ms then
    mret (Some (error_result "Duration must be a positive integer"))
  else
    emit (ECreateTask (PlayCustomPatternTask pattern duration_ms client_id command_id)) ;;
    mret (Some (JObj [("success", JBool true);
                      ("message", JStr "Custom pattern playback started");
                      ("steps", Py.len pattern);
                      ("duration_ms", duration_ms)])).

Definition handle_submit_dot : handler := fun params client_id command_id =>
  key ← param params "key" JNull;
  position ← param params "position" JNull;
  dots ← param params "dots" JNull;
  duration_ms ← param params "duration_ms" (JInt 500);
  if negb (Py.truthy key) then
    mret (Some (error_result "Missing key parameter"))
  else if negb (Py.truthy position) then
    mret (Some (error_result "Missing position parameter"))
  else if negb (Py.truthy dots) || negb (Py.isinstance_list dots) then
    mret (Some (error_result "Missing or invalid dots parameter"))
  else if Py.not_positive_int duration_ms then
    mret (Some (error_result "Duration must be a positive integer"))
  else
    try_except
      (call (EPlayer (PSubmitDot key position dots duration_ms)) ;;
       mret (Some (JObj [("success", JBool true);
                         ("key", key);
                         ("position", position);
                         ("dots_count", Py.len dots);
                         ("duration_ms", duration_ms)])))
      (fun e => mret (Some (error_result ("Failed to submit dot: " +:+ exn_str e)))).

Definition handle_submit_path : handler := fun params client_id command_id =>
  key ← param params "key" JNull;
  position ← param params "position" JNull;
  path ← param params "path" JNull;
  duration_ms ← param params "duration_ms" (JInt 500);
  if negb (Py.truthy key) then
    mret (Some (error_result "Missing key parameter"))
  else if negb (Py.truthy position) then
    mret (Some (error_result "Missing position parameter"))
  else if negb (Py.truthy path) || negb (Py.isinstance_list path) then
    mret (Some (error_result "Missing or invalid path parameter"))
  else if Py.not_positive_int duration_ms then
    mret (Some (error_result "Duration must be a positive integer"))
  else
    try_except
      (call (EPlayer (PSubmitPath key position path duration_ms)) ;;
       mret (Some (JObj [("success", JBool true);
                         ("key", key);
                         ("position", position);
                         ("path_points", Py.len path);
                         ("duration_ms", duration_ms)])))
      (fun e => mret (Some (error_result ("Failed to submit path: " +:+ exn_str e)))).

Definition handle_register_tact_file : handler := fun params client_id command_id =>
  key ← param params "key" JNull;
  file_path ← param params "file_path" JNull;
  if negb (Py.truthy key) then
    mret (Some (error_result "Missing key parameter"))
  else if negb (Py.truthy file_path) then
    mret (Some (error_result "Missing file_path parameter"))
  else
    found ← call (EPathExists file_path);
    if negb (Py.truthy found) then
      mret (Some (error_result ("Tact file not found: " +:+ py_str file_path)))
    else
      try_except
        (call (EPlayer (PRegister key file_path)) ;;
         mret (Some (JObj [("success", JBool true);
                           ("key", key);
                           ("file_path", file_path)])))
        (fun e => mret (Some (error_result ("Failed to register tact file: " +:+ exn_str e)))).

Definition handle_submit_registered : handler := fun params client_id command_id =>
  key ← param params "key" JNull;
  scale ← param params "scale" (JFloat 1%float);
  rotation_option ← param params "rotation_option" (JInt 0);
  if negb (Py.truthy key) then
    mret (Some (error_result "Missing key parameter"))
  else
    try_except
      ((if negb (Py.eq_lit scale 1) || negb (Py.eq_lit rotation_option 0) then
          call (EPlayer (PSubmitRegisteredWithOption key key scale rotation_option))
        else call (EPlayer (PSubmitRegistered key))) ;;
       mret (Some (JObj [("success", JBool true);
                         ("key", key);
                         ("scale", scale);
                         ("rotation_option", rotation_option)])))
      (fun e => mret (Some (error_result
                              ("Failed to submit registered pattern: " +:+ exn_str e)))).

(** *** Playback tasks

    [others k] is what the rest of the program does to the state while the
    task sleeps after its k-th step. *)

Fixpoint play_steps (others : nat -> state -> state) (k : nat)
    (steps : list json) (duration_ms : json) : M unit :=
  match steps with
  | [] => mret tt
  | step :: rest =>
      alive ← gets running;
      if negb alive then mret tt
      else
        activate_motor_array step duration_ms ;;
        modify (others k) ;;
        play_steps others (S k) rest duration_ms
  end.

Definition _play_pattern_async (pattern_file key : json) (client_id command_id : string)
  : M unit :=
  try_except
    (load_and_play_tact_file ;;
     _send_event "pattern_complete"
       (JObj [("pattern_file", pattern_file);
              ("key", key);
              ("command_id", JStr command_id)]) client_id)
    (fun e =>
       _send_event "pattern_error"
         (JObj [("pattern_file", pattern_file);
                ("key", key);
                ("command_id", JStr command_id);
                ("error", JStr (exn_str e))]) client_id).

Definition _play_wave_pattern_async (others : nat -> state -> state)
    (client_id command_id : string) : M unit :=
  try_except
    (play_steps others 0 WAVE_PATTERN (JInt 500) ;;
     _send_event "pattern_complete"
       (JObj [("pattern_type", JStr "wave");
              ("command_id", JStr command_id)]) client_id)
    (fun e =>
       _send_event "pattern_error"
         (JObj [("pattern_type", JStr "wave");
                ("command_id", JStr command_id);
                ("error", JStr (exn_str e))]) client_id).

Definition _play_alternating_pattern_async (others : nat -> state -> state)
    (client_id command_id : string) : M unit :=
  try_except
    (play_steps others 0 ALTERNATING_PATTERN (JInt 1000) ;;
     _send_event "pattern_complete"
       (JObj [("pattern_type", JStr "alternating");
              ("command_id", JStr command_id)]) client_id)
    (fun e =>
       _send_event "pattern_error"
         (JObj [("pattern_type", JStr "alternating");
                ("command_id", JStr command_id);
                ("error", JStr (exn_str e))]) client_id).

Definition _play_custom_pattern_async (others : nat -> state -> state)
    (pattern : list json) (duration_ms : json) (client_id command_id : string) : M unit :=
  try_except
    (play_steps others 0 pattern duration_ms ;;
     _send_event "pattern_complete"
       (JObj [("pattern_type", JStr "custom");
              ("command_id", JStr command_id);
              ("steps", Py.len (JList pattern))]) client_id)
    (fun e =>
       _send_event "pattern_error"
         (JObj [("pattern_type", JStr "custom");
                ("command_id", JStr command_id);
                ("error", JStr (exn_str e))]) client_id).


(** Running a task that [create_task] queued. *)
Definition run_task (others : nat -> state -> state) (t : task) : M unit :=
  match t with
  | PlayPatternTask pattern_file key client_id command_id =>
      _play_pattern_async pattern_file key client_id command_id
  | PlayWavePatternTask client_id command_id =>
      _play_wave_pattern_async others client_id command_id
  | PlayAlternatingPatternTask client_id command_id =>
      _play_alternating_pattern_async others client_id command_id
  | PlayCustomPatternTask pattern duration_ms client_id command_id =>
      _play_custom_pattern_async others
        (match pattern with JList steps => steps | _ => [] end)
        duration_ms client_id command_id
  end.

(** *** Dispatch *)

Definition command_handlers : list (string * handler) :=
  [ ("ping", handle_ping);
    ("get_status", handle_get_status);
    ("get_device_status", handle_get_device_status);
    ("register_event_callback", handle_register_event_callback);
    ("unregister_event_callback", handle_unregister_event_callback);
    ("shutdown", handle_shutdown);
    ("activate_discrete", handle_activate_discrete);
    ("activate_funnelling", handle_activate_funnelling);
    ("activate_glove_motor", handle_activate_glove_motor);
    ("play_pattern", handle_play_pattern);
    ("stop_pattern", handle_stop_pattern);
    ("is_pattern_playing", handle_is_pattern_playing);
    ("play_wave_pattern", handle_play_wave_pattern);
    ("play_alternating_pattern", handle_play_alternating_pattern);
    ("play_custom_pattern", handle_play_custom_pattern);
    ("submit_dot", handle_submit_dot);
    ("submit_path", handle_submit_path);
    ("register_tact_file", handle_register_tact_file);
    ("submit_registered", handle_submit_registered) ].

Fixpoint find_handler (command : string) (table : list (string * handler))
  : option handler :=
  match table with
  | [] => None
  | (name, h) :: rest => if String.eqb command name then Some h else find_handler command rest
  end.

(** [self.command_handlers.get(command)]; a missing [command] is [None],
    which is no key of the table. *)
Definition get_handler (command : option string) : option handler :=
  match command with
  | Some c => find_handler c command_handlers
  | None => None
  end.

(** The fields of a decoded command object, typed as the wire protocol
    declares them: [command], [command_id] and [client_id] are strings
    when present, [params] is any value. *)
Record command_data : Type := {
  cd_command : option string;
  cd_params : option json;
  cd_command_id : option string;
  cd_client_id : option string
}.

(** What [json.loads(data.decode('utf-8'))] makes of a datagram. *)
Inductive datagram : Type :=
| Undecodable
| InvalidJson (details : string)
| NotAnObject (v : json)
| Envelope (cd : command_data).

(** [f"{addr[0]}:{addr[1]}"]. *)
Definition address_id (addr : address) : string :=
  addr.1 +:+ ":" +:+ pretty addr.2.

Definition register_client (client_id : string) (addr : address) : M unit :=
  modify (fun st =>
    match current_clients st !! client_id with
    | Some _ => st
    | None => set_current_clients (<[client_id := addr]> (current_clients st)) st
    end).

Definition track_command (command_id client_id : string) (command : option string)
  : M unit :=
  modify (fun st =>
    set_active_command_ids
      (<[command_id := {| corr_client_id := client_id;
                          corr_command := command;
                          corr_start_time := time_time (trace st) |}]>
         (active_command_ids st)) st).

(** The [try] block of [process_command] once the datagram is a command
    object.  [fresh_uuid] is what [str(uuid.uuid4())] evaluates to. *)
Definition dispatch (fresh_uuid : string) (cd : command_data) (addr : address) : M unit :=
  let command := cd_command cd in
  let params := default (JObj []) (cd_params cd) in
  let command_id := default fresh_uuid (cd_command_id cd) in
  let client_id := default (address_id addr) (cd_client_id cd) in
  register_client client_id addr ;;
  track_command command_id client_id command ;;
  match get_handler command with
  | Some handler =>
      result ← handler params client_id command_id;
      match result with
      | Some result => send_response result client_id command_id
      | None => mret tt
      end
  | None =>
      send_error_response ("Unknown command: " +:+ py_str (opt_str command))
        client_id command_id
  end.

Definition process_command (fresh_uuid : string) (data : datagram) (addr : address)
  : M unit :=
  match data with
  | InvalidJson details =>
      try_except
        (timestamp ← now_iso;
         server_socket_sendto
           (JObj [("type", JStr "error");
                  ("error", JStr "Invalid JSON format");
                  ("details", JStr details);
                  ("timestamp", timestamp)]) addr)
        (fun _ => mret tt)
  | _ =>
      try_except
        match data with
        | Envelope cd => dispatch fresh_uuid cd addr
        | NotAnObject v =>
            raise (AttributeError
                     ("'" +:+ Py.type_name v +:+ "' object has no attribute 'get'"))
        | _ => raise UnicodeDecodeError
        end
        (fun e =>
           match data with
           | Envelope cd =>
               let client_id := default (address_id addr) (cd_client_id cd) in
               match cd_command_id cd with
               | Some command_id =>
                   if String.eqb command_id "" then mret tt
                   else send_error_response
                          ("Error processing command: " +:+ exn_str e)
                          client_id command_id
               | None => mret tt
               end
           | _ => mret tt
           end)
  end.

(** One round of [broadcast_status_updates], up to its sleep. *)
Definition broadcast_round : M unit :=
  try_except
    (clients ← gets current_clients;
     if bool_decide (clients = ∅) then mret tt
     else
       status ← get_status_data;
       items ← gets (fun st => map_to_list (current_clients st));
       for_each (fun item : string * address =>
         try_except
           (timestamp ← now_iso;
            server_socket_sendto
              (JObj [("type", JStr "status_update");
                     ("status", status);
                     ("timestamp", timestamp)]) item.2)
           (fun _ =>
              modify (fun st =>
                set_current_clients (delete item.1 (current_clients st)) st)))
         items)
    (fun _ => mret tt).

(** *** Shutdown *)

Definition cleanup_haptics : M unit :=
  try_except (call EHmcCleanup ;; mret tt) (fun _ => mret tt) ;;
  try_except gloves_cleanup (fun _ => mret tt) ;;
  try_except pattern_player_cleanup (fun _ => mret tt) ;;
  try_except array_example_cleanup (fun _ => mret tt).

Definition stop : M unit :=
  done ← gets cleanup_done;
  if (done : bool) then mret tt
  else
    emit EServerSocketClose ;;
    modify (set_server_socket_closed true) ;;
    emit EDiscoverySocketClose ;;
    modify (set_discovery_socket_closed true) ;;
    try_except cleanup_haptics (fun _ => mret tt) ;;
    modify (set_cleanup_done true).

End Server.

(** The process as the event loop sees it once the running callback has
    returned: a queued [os._exit(0)] ends it. *)
Inductive process : Type :=
| Alive (st : state)
| Exited (code : Z).

Definition is_os_exit (e : effect) : bool :=
  match e with ECallSoonOsExit => true | _ => false end.

Definition run_ready_callbacks (st : state) : process :=
  if existsb is_os_exit (trace st) then Exited 0 else Alive st.

(** ** Observations on a trace *)

Definition is_destroy (e : effect) : bool :=
  match e with EPlayer PDestroy => true | _ => false end.

(** Calls into the Device Session Adapter: the player itself, and the
    functions of [haptics_motor_control] and the tact-file playback, which
    drive it. *)
Definition is_adapter_call (e : effect) : bool :=
  match e with
  | EPlayer _ | EHmcActivateDiscrete _ _ _ _ | EHmcActivateFunnelling _ _ _ _ _
  | EHmcCleanup | ELoadAndPlayTactFile => true
  | _ => false
  end.

Definition is_sendto (e : effect) : bool :=
  match e with ESendto _ _ => true | _ => false end.

(** The state of a freshly started server. *)
Definition initial_state (sid : string) (t0 : float) : state :=
  {| running := true; cleanup_done := false;
     current_clients := ∅; active_command_ids := ∅; event_handlers := ∅;
     server_id := sid; port := 9128; start_time := t0;
     server_socket_closed := false; discovery_socket_closed := false;
     gloves_cleanup_done := false; array_cleanup_done := false;
     thread_should_exit := false; player_ws := true; trace := [] |}.

(** An environment in which every call returns [True] and the clock
    stands still. *)
Definition calm : Env :=
  {| answer := fun _ _ => Ret (JBool true);
     isoformat_now := fun _ => "2025-03-07T12:00:00";
     time_time := fun _ => 0%float;
     format_uptime := fun _ => "0d 0h 0m 0s";
     repr := fun _ => "" |}.

(** * Vocabulary of the properties *)

(** ** Frames

    [keeps f m] says that running [m] never changes the observation [f] of
    the state, whether [m] returns or raises. *)

Definition keeps {A B : Type} (f : state -> B) (m : M A) : Prop :=
  forall st, f (snd (m st)) = f st.

(** A handler leaves [f] alone provided answering its own command does. *)
Definition frames `{Env} {B : Type} (f : state -> B) (h : handler) : Prop :=
  forall params client_id command_id,
    (forall result, keeps f (send_response result client_id command_id)) ->
    keeps f (h params client_id command_id).

(** [preserves P m]: running [m] from a state in which [P] holds ends in a
    state in which [P] holds. *)
Definition preserves {A : Type} (P : state -> Prop) (m : M A) : Prop :=
  forall st, P st -> P (snd (m st)).

(** Nobody is subscribed to any event. *)
Definition no_subscribers (st : state) : Prop := event_handlers st = ∅.

(** ** Datagrams *)

(** A datagram leaves the command socket: the socket is open and [sendto]
    returns. *)
Definition transmits `{Env} (st : state) (addr : address) (payload : json) : Prop :=
  server_socket_closed st = false
  /\ exists v, answer (trace st) (ESendto addr payload) = Ret v.

Definition sent_with (addr : address) (payload : json) (st : state) : state :=
  set_trace (trace st ++ [ESendto addr payload]) st.

Definition timestamp_at `{Env} (st : state) : json := JStr (isoformat_now (trace st)).

(** ** Runs of the server

    Between two suspension points a coroutine runs alone.  The atomic
    segments of the coroutines that touch the shared state are: processing
    one datagram, one broadcast round, one step of a playback task, the
    event a playback task ends with, a tact-file playback, and [stop].  A
    run of the server is a sequence of them. *)

(** The identifiers [process_command] works with once the defaults are
    filled in. *)
Definition envelope_command_id (fresh_uuid : string) (cd : command_data) : string :=
  default fresh_uuid (cd_command_id cd).

Definition envelope_client_id (addr : address) (cd : command_data) : string :=
  default (address_id addr) (cd_client_id cd).

Inductive action : Type :=
| AProcessCommand (fresh_uuid : string) (data : datagram) (addr : address)
| ABroadcastRound
| APlaybackStep (step duration_ms : json)
| ASendEvent (event_type : string) (data : json) (target_client_id : string)
| APlayPattern (pattern_file key : json) (client_id command_id : string)
| AStop.

Definition perform `{Env} (a : action) (st : state) : state :=
  match a with
  | AProcessCommand fresh_uuid data addr => snd (process_command fresh_uuid data addr st)
  | ABroadcastRound => snd (broadcast_round st)
  | APlaybackStep step duration_ms => snd (activate_motor_array step duration_ms st)
  | ASendEvent event_type data target => snd (_send_event event_type data target st)
  | APlayPattern pattern_file key client_id command_id =>
      snd (_play_pattern_async pattern_file key client_id command_id st)
  | AStop => snd (stop st)
  end.

Definition run `{Env} (actions : list action) (st : state) : state :=
  fold_left (fun st a => perform a st) actions st.

(** Whether an action dispatches a command under the given [command_id]. *)
Definition dispatches (command_id : string) (a : action) : bool :=
  match a with
  | AProcessCommand fresh_uuid (Envelope cd) _ =>
      String.eqb (envelope_command_id fresh_uuid cd) command_id
  | _ => false
  end.

(** ** Ping traffic *)

(** A ping as a client sends it: the command is ["ping"] and [params], when
    present, is an object. *)
Definition is_ping (a : action) : bool :=
  match a with
  | AProcessCommand _ (Envelope cd) _ =>
      match cd_command cd, cd_params cd with
      | Some c, None => String.eqb c "ping"
      | Some c, Some (JObj _) => String.eqb c "ping"
      | _, _ => false
      end
  | _ => false
  end.

(** Every datagram handed to the command socket leaves it. *)
Definition reliable `{Env} : Prop :=
  forall t addr payload, exists v, answer t (ESendto addr payload) = Ret v.

(** ** Responses and shutdown, as state transformers *)

(** What [send_response] does to the state, case by case: an unknown client
    or a closed socket leaves it alone; otherwise the datagram is handed to
    the socket, and the Correlation Entry goes when [sendto] returns. *)
Definition after_response `{Env} (result : json) (client_id command_id : string)
    (st : state) : state :=
  match current_clients st !! client_id with
  | None => st
  | Some addr =>
      if server_socket_closed st then st
      else
        let payload := response_envelope command_id (timestamp_at st) result in
        match answer (trace st) (ESendto addr payload) with
        | Ret _ =>
            set_active_command_ids (delete command_id (active_command_ids st))
              (sent_with addr payload st)
        | Raise _ => sent_with addr payload st
        end
  end.

Definition shutdown_result (force : json) : json :=
  JObj [("success", JBool true);
        ("message", JStr "Server is shutting down");
        ("force", force)].

(** The only things [initiate_shutdown] does. *)
Definition after_initiate_shutdown (force : json) (st : state) : state :=
  if Py.truthy force then set_trace (trace st ++ [ECallSoonOsExit]) st
  else set_running false st.

(** The state in which the handler of a dispatched command starts. *)
Definition dispatched_state `{Env} (client_id command_id : string) (command : option string)
    (addr : address) (st : state) : state :=
  let st1 := match current_clients st !! client_id with
             | Some _ => st
             | None => set_current_clients (<[client_id := addr]> (current_clients st)) st
             end in
  set_active_command_ids
    (<[command_id := {| corr_client_id := client_id;
                        corr_command := command;
                        corr_start_time := time_time (trace st1) |}]>
       (active_command_ids st1)) st1.

(** ** Adapter teardown *)

Definition destroy_calls (t : list effect) : nat := length (filter is_destroy t).

(** The player calls a guarded cleanup ([haptics_gloves], [array_example])
    makes when its flag is clear: the socket is closed if [player.ws] is set,
    then the player is destroyed. *)
Definition guarded_cleanup_calls (st : state) : list effect :=
  (if player_ws st then [EPlayer PWsClose] else []) ++ [EPlayer PDestroy].

(** The calls [cleanup_haptics] makes, in order: [hmc_cleanup], then the
    cleanups of [haptics_gloves], [haptics_pattern_player] and
    [array_example], each of which destroys the player. *)
Definition cleanup_haptics_calls (st : state) : list effect :=
  [EHmcCleanup]
  ++ (if gloves_cleanup_done st then [] else guarded_cleanup_calls st)
  ++ [EPlayer PDestroy]
  ++ (if array_cleanup_done st then []
      else if gloves_cleanup_done st then guarded_cleanup_calls st
           else [EPlayer PDestroy]).

(** ** Motor parameters *)

(** "[v] is an integer in [[lo, hi]]", read on the JSON value. *)
Definition json_int_in (v : json) (lo hi : Z) : Prop :=
  exists z, v = JInt z /\ lo <= z <= hi.

Definition is_json_bool (v : json) : bool :=
  match v with JBool _ => true | _ => false end.

Definition field (kv : list (string * json)) (key : string) (dflt : json) : json :=
  default dflt (Py.assoc key kv).

(** ** Terminal events *)

Definition subscribed (event_type client_id : string) (st : state) : bool :=
  bool_decide (client_id ∈ default (∅ : gset string) (event_handlers st !! event_type)).




(** ** Concrete states and schedules *)

(** Two clients at known addresses, for the examples below. *)
Definition two_clients : gmap string address :=
  {[ "c1" := ("10.0.0.1", 4000); "c2" := ("10.0.0.2", 4000) ]}.

Definition with_subscribers (subs : gset string) : state :=
  set_event_handlers {[ "pattern_complete" := subs ]}
    (set_current_clients two_clients (initial_state "server" 0%float)).

(** No other task touches the state while the playback task sleeps. *)
Definition undisturbed : nat -> state -> state := fun _ st => st.

(** The run flag is cleared while the task sleeps after its second step. *)
Definition stopped_after_second_step : nat -> state -> state :=
  fun k st => if (k =? 1)%nat then set_running false st else st.

Definition sent (st : state) : list effect := filter is_sendto (trace st).

Definition stale_entry : correlation :=
  {| corr_client_id := "c1"; corr_command := Some "ping"; corr_start_time := 0%float |}.

Definition ping_from (client_id : string) (command_id : option string) : action :=
  AProcessCommand "0b1d7c1e-5a0f-4c55-9d39-2f6c1f6f3f10"
    (Envelope {| cd_command := Some "ping";
                 cd_params := Some (JObj [("message", JStr "hi")]);
                 cd_command_id := command_id;
                 cd_client_id := Some client_id |})
    ("10.0.0.1", 4000).

(** ** The dispatcher's answers *)

(** What [send_error_response] does to the state; the same cases as for a
    response. *)
Definition after_error_response `{Env} (msg client_id command_id : string)
    (st : state) : state :=
  match current_clients st !! client_id with
  | None => st
  | Some addr =>
      if server_socket_closed st then st
      else
        let payload := error_envelope command_id msg (timestamp_at st) in
        match answer (trace st) (ESendto addr payload) with
        | Ret _ =>
            set_active_command_ids (delete command_id (active_command_ids st))
              (sent_with addr payload st)
        | Raise _ => sent_with addr payload st
        end
  end.

(** The reply to a datagram that is not JSON: it has no [command_id]. *)
Definition invalid_json_reply `{Env} (details : string) (st : state) : json :=
  JObj [("type", JStr "error");
        ("error", JStr "Invalid JSON format");
        ("details", JStr details);
        ("timestamp", timestamp_at st)].

(** The entry [process_command] files for a command. *)
Definition entry_for `{Env} (client_id : string) (command : option string) (st : state)
  : correlation :=
  {| corr_client_id := client_id;
     corr_command := command;
     corr_start_time := time_time (trace st) |}.

(** An environment in which the player and [haptics_motor_control] fail
    every call, while the socket and the file system work. *)
Definition unplugged : Env :=
  {| answer := fun _ e =>
       match e with
       | ESendto _ _ | EPathExists _ => Ret (JBool true)
       | _ => Raise (ExternalError "connection lost")
       end;
     isoformat_now := fun _ => "2025-03-07T12:00:00";
     time_time := fun _ => 0%float;
     format_uptime := fun _ => "0d 0h 0m 0s";
     repr := fun _ => "" |}.

(** A command that its handler cannot finish and that carries no
    [command_id]: a ping whose [params] is not an object, or a
    [register_event_callback] whose [params] is not an object or names an
    event type. *)
Definition is_object (v : json) : bool :=
  match v with JObj _ => true | _ => false end.

Definition crashes_unanswered (a : action) : bool :=
  match a with
  | AProcessCommand _ (Envelope cd) _ =>
      match cd_command cd, cd_params cd, cd_command_id cd with
      | Some c, Some v, None =>
          (String.eqb c "ping" && negb (is_object v))
          || (String.eqb c "register_event_callback"
              && (negb (is_object v)
                  || Py.truthy (match Py.get v "event_type" JNull with
                                | Ret t => t
                                | Raise _ => JNull
                                end)))
      | _, _, _ => false
      end
  | _ => false
  end.

(** The identifier the server generates for an action that is a command. *)
Definition generated_id (a : action) : string :=
  match a with
  | AProcessCommand fresh_uuid _ _ => fresh_uuid
  | _ => ""
  end.


(** ** Status broadcasts *)

(** The datagram of a status broadcast. *)
Definition status_update (status timestamp : json) : json :=
  JObj [("type", JStr "status_update");
        ("status", status);
        ("timestamp", timestamp)].

(** What one iteration of the broadcast loop does to the state: a closed
    socket or a failing [sendto] costs the client its registration. *)
Definition after_status_update `{Env} (status : json) (st : state)
    (item : string * address) : state :=
  if server_socket_closed st then
    set_current_clients (delete item.1 (current_clients st)) st
  else
    let payload := status_update status (timestamp_at st) in
    match answer (trace st) (ESendto item.2 payload) with
    | Ret _ => sent_with item.2 payload st
    | Raise _ =>
        set_current_clients (delete item.1 (current_clients st))
          (sent_with item.2 payload st)
    end.

(** The address a datagram goes to. *)
Definition datagram_target (e : effect) : option address :=
  match e with ESendto addr _ => Some addr | _ => None end.

(** A datagram that carries the status [status]. *)
Definition carries_status (status : json) (e : effect) : Prop :=
  exists addr timestamp, e = ESendto addr (status_update status timestamp).

(** ** Counting datagrams *)

(** The address the answer to a datagram goes to: for a decoded command the
    address its client is registered with, the source address otherwise. *)
Definition answer_address (data : datagram) (addr : address) (st : state) : address :=
  match data with
  | Envelope cd => default addr (current_clients st !! envelope_client_id addr cd)
  | _ => addr
  end.

(** Between [st] and [st'] at most one datagram was handed to the socket,
    addressed to [target], and none if the socket was closed. *)
Definition answers_at_most_once (target : address) (st st' : state) : Prop :=
  exists l,
    sent st' = sent st ++ l
    /\ (length l <= 1)%nat
    /\ Forall (fun e => datagram_target e = Some target) l
    /\ (server_socket_closed st = true -> l = []).

(** The socket is closed and the datagrams sent so far are [l]. *)
Definition silent (l : list effect) (st : state) : Prop :=
  server_socket_closed st = true /\ sent st = l.

(** ** Results of the player-backed handlers *)

(** The handler returned a result dict that starts with its [success]
    flag. *)
Definition reports (o : outcome (option json)) : Prop :=
  exists (b : bool) rest, o = Ret (Some (JObj (("success", JBool b) :: rest))).

(** The call [haptics_gloves.activate_glove_motor] makes for a glove given
    in lower case. *)
Definition glove_submit_dot `{Env} (left : bool) (motor_index intensity duration_ms : json)
  : effect :=
  EPlayer (PSubmitDot
             (JStr ("glove" +:+ (if left then "Left" else "Right")
                    +:+ "Frame_motor_" +:+ py_str motor_index))
             (position_value (if left then GloveL else GloveR))
             (JList [JObj [("index", motor_index); ("intensity", intensity)]])
             duration_ms).

(** The state after one call to the outside. *)
Definition called (e : effect) (st : state) : state :=
  set_trace (trace st ++ [e]) st.

(** ** What is asked of the adapter *)

(** Running [m] adds to the trace only calls that satisfy [Q]. *)
Definition adds_only {A : Type} (Q : effect -> Prop) (m : M A) : Prop :=
  forall st, exists calls, trace (snd (m st)) = trace st ++ calls /\ Forall Q calls.

(** A call of [activate_motor_array]: [activate_discrete] on one of the two
    panels, at a motor index of the 5 x 4 grid, with an intensity that
    compared greater than zero. *)
Definition motor_call (duration_ms : json) (e : effect) : Prop :=
  exists panel (idx : nat) intensity,
    e = EHmcActivateDiscrete (JStr panel) (JInt (Z.of_nat idx)) intensity duration_ms
    /\ (panel = "front" \/ panel = "back")
    /\ (idx < 20)%nat
    /\ Py.gt_lit intensity 0 = Ret true.





(** ** Pattern steps *)





(** The data of the event a custom playback ends with. *)
Definition custom_complete (command_id : string) (pattern : list json) : json :=
  JObj [("pattern_type", JStr "custom");
        ("command_id", JStr command_id);
        ("steps", Py.len (JList pattern))].

Definition custom_error (command_id : string) (e : exn) : json :=
  JObj [("pattern_type", JStr "custom");
        ("command_id", JStr command_id);
        ("error", JStr (exn_str e))].

(** ** Event notifications *)

(** A datagram of [_send_event]: the event message, addressed to the
    registered address of a client that is subscribed to the event type,
    and that is the target if there is one. *)
Definition event_datagram (event_type : string) (data : json) (target : string)
    (st : state) (e : effect) : Prop :=
  exists client_id addr timestamp,
    e = ESendto addr (event_message event_type timestamp data)
    /\ subscribed event_type client_id st = true
    /\ current_clients st !! client_id = Some addr
    /\ (target <> "" -> client_id = target).

(** ** Calling a cleanup again *)

(** The state after [n] calls of [m] in a row. *)
Fixpoint repeatedly {A : Type} (n : nat) (m : M A) (st : state) : state :=
  match n with
  | O => st
  | S n => repeatedly n m (snd (m st))
  end.

Definition is_ws_close (e : effect) : bool :=
  match e with EPlayer PWsClose => true | _ => false end.

Definition ws_close_calls (t : list effect) : nat := length (filter is_ws_close t).

(** ** Commands that only look *)

(** A question to the player that drives nothing. *)
Definition is_query (e : effect) : bool :=
  match e with
  | EPlayer (PIsDeviceConnected _) | EPlayer PIsPlaying | EPlayer (PIsPlayingKey _) => true
  | _ => false
  end.

(** Running [m] asks the player questions and changes nothing else. *)
Definition reads_only {A : Type} (m : M A) : Prop :=
  forall st, exists calls,
    snd (m st) = set_trace (trace st ++ calls) st
    /\ Forall (fun e => is_query e = true) calls.

(** ** Registrations over a run *)

Definition is_broadcast_round (a : action) : bool :=
  match a with ABroadcastRound => true | _ => false end.

Definition is_command (a : action) : bool :=
  match a with AProcessCommand _ (Envelope _) _ => true | _ => false end.

(** * Properties *)

Ltac unfold_monad :=
  unfold mbind, M_bind, mret, M_ret, raise, lift, gets, modify, try_except,
    param, result, final in *.

(** ** Event subscription: [register_event_callback] *)

Section Register.
Context `{Env}.

Lemma load_global_duration_ms (st : state) :
  load_global "duration_ms" st = (Raise (NameError "duration_ms"), st).
Proof. reflexivity. Qed.

(** Whatever non-empty [event_type] the command carries, the handler stops
    at the first unbound name and has changed nothing by then. *)
Lemma register_with_event_type_raises kv client_id command_id st :
  Py.truthy (default JNull (Py.assoc "event_type" kv)) = true ->
  handle_register_event_callback (JObj kv) client_id command_id st
  = (Raise (NameError "duration_ms"), st).
Proof.
  intros Htruthy. unfold handle_register_event_callback. unfold_monad.
  simpl. rewrite Htruthy. reflexivity.
Qed.

(** C1 (the code at the failing input).  For the command
    [register_event_callback] with [params = {"event_type": "pattern_complete"}]
    the handler raises [NameError] for [duration_ms] out of the handler and
    leaves the state, hence the subscription sets, as they were; with
    [event_type] missing it returns [success: false] with the intensity
    message, which does not mention [event_type]. *)
Theorem C1_register_event_callback_raises :
  forall client_id command_id st,
    handle_register_event_callback
      (JObj [("event_type", JStr "pattern_complete")]) client_id command_id st
    = (Raise (NameError "duration_ms"), st)
    /\ handle_register_event_callback (JObj []) client_id command_id st
       = (Ret (Some (error_result "Intensity must be an integer between 0 and 100")), st).
Proof.
  intros client_id command_id st. split.
  - apply register_with_event_type_raises. reflexivity.
  - reflexivity.
Qed.

End Register.

(** ** Frame reasoning: what a coroutine leaves alone *)

Section Frame.
Context `{Env} {B : Type} (f : state -> B).

Lemma keeps_ret {A} (a : A) : keeps f (mret a).
Proof. intros st. reflexivity. Qed.

Lemma keeps_raise {A} (e : exn) : keeps f (raise (A := A) e).
Proof. intros st. reflexivity. Qed.

Lemma keeps_lift {A} (o : outcome A) : keeps f (lift o).
Proof. intros st. reflexivity. Qed.

Lemma keeps_gets {A} (g : state -> A) : keeps f (gets g).
Proof. intros st. reflexivity. Qed.

Lemma keeps_modify (g : state -> state) :
  (forall st, f (g st) = f st) -> keeps f (modify g).
Proof. intros Hg st. apply Hg. Qed.

Lemma keeps_bind {A C} (m : M A) (k : A -> M C) :
  keeps f m -> (forall a, keeps f (k a)) -> keeps f (m ≫= k).
Proof.
  intros Hm Hk st. unfold mbind, M_bind.
  specialize (Hm st). destruct (m st) as [[a|e] st1]; simpl in *.
  - rewrite Hk. exact Hm.
  - exact Hm.
Qed.

Lemma keeps_try {A} (m : M A) (h : exn -> M A) :
  keeps f m -> (forall e, keeps f (h e)) -> keeps f (try_except m h).
Proof.
  intros Hm Hh st. unfold try_except.
  specialize (Hm st). destruct (m st) as [[a|e] st1]; simpl in *.
  - exact Hm.
  - rewrite Hh. exact Hm.
Qed.

Lemma keeps_for_each {A} (body : A -> M unit) (l : list A) :
  (forall x, keeps f (body x)) -> keeps f (for_each body l).
Proof.
  intros Hbody. induction l as [|x l IH]; simpl.
  - apply keeps_ret.
  - apply keeps_bind; [apply Hbody | intros _; exact IH].
Qed.

(** Observations that do not read the trace survive every outside call. *)
Hypothesis f_trace : forall t st, f (set_trace t st) = f st.

Lemma keeps_emit (e : effect) : keeps f (emit e).
Proof. apply keeps_modify. intros st. apply f_trace. Qed.

Lemma keeps_call (e : effect) : keeps f (call e).
Proof. intros st. unfold call. simpl. apply f_trace. Qed.

Lemma keeps_now_iso : keeps f now_iso.
Proof. apply keeps_gets. Qed.

Lemma keeps_sendto payload addr : keeps f (server_socket_sendto payload addr).
Proof.
  unfold server_socket_sendto. apply keeps_bind; [apply keeps_gets|].
  intros [|]; [apply keeps_raise|].
  apply keeps_bind; [apply keeps_call | intros _; apply keeps_ret].
Qed.

Lemma keeps_send_event_to event_type data clients :
  keeps f (send_event_to event_type data clients).
Proof.
  induction clients as [|c rest IH]; simpl.
  - apply keeps_ret.
  - apply keeps_bind; [apply keeps_gets|]. intros addr.
    apply keeps_bind; [|intros _; exact IH].
    destruct addr as [addr|]; [|apply keeps_ret].
    apply keeps_try; [|intros _; apply keeps_ret].
    apply keeps_bind; [apply keeps_now_iso | intros ts; apply keeps_sendto].
Qed.

Lemma keeps_send_event event_type data target :
  keeps f (_send_event event_type data target).
Proof.
  unfold _send_event. apply keeps_bind; [apply keeps_gets|].
  intros clients. apply keeps_send_event_to.
Qed.

End Frame.

(** Splits a frame goal along the structure of the coroutine. *)
Ltac frame_step :=
  first
    [ apply keeps_ret | apply keeps_raise | apply keeps_lift | apply keeps_gets
    | apply keeps_now_iso
    | apply keeps_emit; [intros; reflexivity]
    | apply keeps_call; [intros; reflexivity]
    | apply keeps_sendto; [intros; reflexivity]
    | apply keeps_send_event; [intros; reflexivity]
    | apply keeps_modify; intros; reflexivity
    | apply keeps_bind; [|intros ?]
    | apply keeps_try; [|intros ?]
    | apply keeps_for_each; intros ?
    | match goal with
      | |- keeps _ (if ?b then _ else _) => destruct b
      | |- keeps _ (match ?x with _ => _ end) => destruct x
      | |- keeps _ (let _ := _ in _) => cbv zeta
      end ].

Ltac frame := repeat frame_step.

(** ** What the handlers leave alone *)

Section Registries.
Context `{Env}.

(** Answering a command never touches the Client Registry. *)
Lemma send_response_keeps_clients result client_id command_id :
  keeps current_clients (send_response result client_id command_id).
Proof. unfold send_response, pop_command_id. frame. Qed.

Lemma send_error_response_keeps_clients msg client_id command_id :
  keeps current_clients (send_error_response msg client_id command_id).
Proof. unfold send_error_response, pop_command_id. frame. Qed.

(** Answering a command touches no other command's Correlation Entry. *)
Lemma send_response_keeps_other result client_id command_id j :
  j <> command_id ->
  keeps (fun st => active_command_ids st !! j) (send_response result client_id command_id).
Proof.
  intros Hj. unfold send_response, pop_command_id. frame.
  apply keeps_modify. intros st. simpl. by rewrite lookup_delete_ne.
Qed.

Lemma send_error_response_keeps_other msg client_id command_id j :
  j <> command_id ->
  keeps (fun st => active_command_ids st !! j) (send_error_response msg client_id command_id).
Proof.
  intros Hj. unfold send_error_response, pop_command_id. frame.
  apply keeps_modify. intros st. simpl. by rewrite lookup_delete_ne.
Qed.

Lemma activate_glove_motor_keeps {B} (f : state -> B) glove motor_index intensity duration_ms :
  (forall t st, f (set_trace t st) = f st) ->
  keeps f (activate_glove_motor glove motor_index intensity duration_ms).
Proof.
  intros Hf. unfold activate_glove_motor. 
  repeat first [ apply keeps_call; [exact Hf] | frame_step ].
Qed.

End Registries.

(** ** Responses and the Correlation Tracker *)

Section Responses.
Context `{Env}.

Lemma sendto_transmits st addr payload :
  transmits st addr payload ->
  server_socket_sendto payload addr st = (Ret tt, sent_with addr payload st).
Proof.
  intros [Hopen [v Hv]]. unfold server_socket_sendto, call. unfold_monad.
  rewrite Hopen, Hv. reflexivity.
Qed.

Lemma send_response_unknown result client_id command_id st :
  current_clients st !! client_id = None ->
  send_response result client_id command_id st = (Ret tt, st).
Proof.
  intros Hnone. unfold send_response. unfold_monad. rewrite Hnone. reflexivity.
Qed.

Lemma send_error_response_unknown msg client_id command_id st :
  current_clients st !! client_id = None ->
  send_error_response msg client_id command_id st = (Ret tt, st).
Proof.
  intros Hnone. unfold send_error_response. unfold_monad. rewrite Hnone. reflexivity.
Qed.

Lemma send_response_transmitted result client_id command_id st addr :
  current_clients st !! client_id = Some addr ->
  transmits st addr (response_envelope command_id (timestamp_at st) result) ->
  send_response result client_id command_id st
  = (Ret tt,
     set_active_command_ids
       (delete command_id (active_command_ids st))
       (sent_with addr (response_envelope command_id (timestamp_at st) result) st)).
Proof.
  intros Haddr Hsent. unfold send_response.
  unfold try_except, mbind at 1, M_bind at 1, gets at 1. rewrite Haddr.
  unfold mbind at 1, M_bind at 1, now_iso, gets at 1.
  unfold mbind, M_bind. fold (timestamp_at st).
  rewrite (sendto_transmits _ _ _ Hsent). reflexivity.
Qed.

Lemma send_error_response_transmitted msg client_id command_id st addr :
  current_clients st !! client_id = Some addr ->
  transmits st addr (error_envelope command_id msg (timestamp_at st)) ->
  send_error_response msg client_id command_id st
  = (Ret tt,
     set_active_command_ids
       (delete command_id (active_command_ids st))
       (sent_with addr (error_envelope command_id msg (timestamp_at st)) st)).
Proof.
  intros Haddr Hsent. unfold send_error_response.
  unfold try_except, mbind at 1, M_bind at 1, gets at 1. rewrite Haddr.
  unfold mbind at 1, M_bind at 1, now_iso, gets at 1.
  unfold mbind, M_bind. fold (timestamp_at st).
  rewrite (sendto_transmits _ _ _ Hsent). reflexivity.
Qed.

(** Neither coroutine lets an exception out. *)
Lemma send_response_returns result client_id command_id st :
  fst (send_response result client_id command_id st) = Ret tt.
Proof.
  unfold send_response, try_except.
  match goal with
  | |- fst (match ?m with _ => _ end) = _ => destruct m as [[[]|e] st1]
  end; reflexivity.
Qed.

Lemma send_error_response_returns msg client_id command_id st :
  fst (send_error_response msg client_id command_id st) = Ret tt.
Proof.
  unfold send_error_response, try_except.
  match goal with
  | |- fst (match ?m with _ => _ end) = _ => destruct m as [[[]|e] st1]
  end; reflexivity.
Qed.

End Responses.

(** ** Every handler of the dispatch table, at once *)

Section HandlerFrame.
Context `{Env} {B : Type} (f : state -> B).

Hypothesis f_trace : forall t st, f (set_trace t st) = f st.
Hypothesis f_events : forall x st, f (set_event_handlers x st) = f st.
Hypothesis f_running : forall x st, f (set_running x st) = f st.

Ltac handler_frame :=
  repeat first
    [ apply keeps_call; [exact f_trace]
    | apply keeps_emit; [exact f_trace]
    | apply keeps_modify; intros; first [apply f_events | apply f_running]
    | apply activate_glove_motor_keeps; [exact f_trace]
    | match goal with Hresp : forall _, keeps _ (send_response _ _ _) |- _ => apply Hresp end
    | frame_step ].

Lemma command_handlers_frame : Forall (fun entry => frames f entry.2) command_handlers.
Proof.
  unfold command_handlers.
  repeat (constructor; [intros params client_id command_id Hresp; simpl|]);
    [..|constructor].
  - unfold handle_ping, param. handler_frame.
  - unfold handle_get_status, get_status_data, device_statuses, is_device_connected.
    handler_frame.
  - unfold handle_get_device_status, device_statuses, is_device_connected, param.
    handler_frame.
  - unfold handle_register_event_callback, load_global, param. handler_frame.
  - unfold handle_unregister_event_callback, subscribers_of, param. handler_frame.
  - unfold handle_shutdown, initiate_shutdown, param. handler_frame.
  - unfold handle_activate_discrete, param. handler_frame.
  - unfold handle_activate_funnelling, param. handler_frame.
  - unfold handle_activate_glove_motor, param. handler_frame.
  - unfold handle_play_pattern, param. handler_frame.
  - unfold handle_stop_pattern, param. handler_frame.
  - unfold handle_is_pattern_playing, param. handler_frame.
  - unfold handle_play_wave_pattern. handler_frame.
  - unfold handle_play_alternating_pattern. handler_frame.
  - unfold handle_play_custom_pattern, param. handler_frame.
  - unfold handle_submit_dot, param. handler_frame.
  - unfold handle_submit_path, param. handler_frame.
  - unfold handle_register_tact_file, param. handler_frame.
  - unfold handle_submit_registered, param. handler_frame.
Qed.

Lemma find_handler_frames command table h :
  Forall (fun entry => frames f entry.2) table ->
  find_handler command table = Some h -> frames f h.
Proof.
  induction 1 as [|[name h'] rest Hh _ IH]; simpl; [discriminate|].
  destruct (String.eqb command name); [|exact IH].
  intros [= <-]. exact Hh.
Qed.

Lemma get_handler_frames command h : get_handler command = Some h -> frames f h.
Proof.
  destruct command as [c|]; [|discriminate].
  apply find_handler_frames, command_handlers_frame.
Qed.

End HandlerFrame.

(** ** The dispatcher *)

Section Dispatcher.
Context `{Env}.

Lemma try_modify_then {A B} (f : state -> B) (g : state -> state)
    (rest : M A) (h : exn -> M A) st :
  keeps f rest -> (forall e, keeps f (h e)) ->
  f (snd (try_except (modify g ;; rest) h st)) = f (g st).
Proof.
  intros Hrest Hh. unfold try_except, mbind, M_bind, modify.
  specialize (Hrest (g st)). destruct (rest (g st)) as [[a|e] st1]; simpl in *.
  - exact Hrest.
  - rewrite Hh. exact Hrest.
Qed.

(** The handler of a command and the answer to it, after the bookkeeping. *)
Lemma dispatched_keeps {B} (f : state -> B) command params client_id command_id :
  (forall t st, f (set_trace t st) = f st) ->
  (forall x st, f (set_event_handlers x st) = f st) ->
  (forall x st, f (set_running x st) = f st) ->
  (forall result, keeps f (send_response result client_id command_id)) ->
  (forall msg, keeps f (send_error_response msg client_id command_id)) ->
  keeps f
    match get_handler command with
    | Some handler =>
        result ← handler params client_id command_id;
        match result with
        | Some result => send_response result client_id command_id
        | None => mret tt
        end
    | None =>
        send_error_response ("Unknown command: " +:+ py_str (opt_str command))
          client_id command_id
    end.
Proof.
  intros Ht He Hr Hresp Herr.
  destruct (get_handler command) as [h|] eqn:Hh; [|apply Herr].
  apply keeps_bind.
  - apply (get_handler_frames f Ht He Hr _ _ Hh). exact Hresp.
  - intros [result|]; [apply Hresp | apply keeps_ret].
Qed.

(** Processing a datagram changes the Client Registry in one way only: a
    [client_id] that is not registered yet is bound to the sender's address. *)
Lemma process_command_clients fresh_uuid data addr st :
  current_clients (snd (process_command fresh_uuid data addr st))
  = match data with
    | Envelope cd =>
        let client_id := envelope_client_id addr cd in
        match current_clients st !! client_id with
        | Some _ => current_clients st
        | None => <[client_id := addr]> (current_clients st)
        end
    | _ => current_clients st
    end.
Proof.
  destruct data as [|details|v|cd]; unfold process_command.
  - reflexivity.
  - match goal with
    | |- current_clients (snd (?m st)) = _ =>
        revert st; change (keeps current_clients m)
    end.
    frame.
  - reflexivity.
  - unfold dispatch, register_client.
    rewrite (try_modify_then current_clients).
    + unfold envelope_client_id. destruct (current_clients st !! _); reflexivity.
    + apply keeps_bind; [unfold track_command; frame|]. intros _.
      apply dispatched_keeps; intros; try reflexivity.
      * apply send_response_keeps_clients.
      * apply send_error_response_keeps_clients.
    + intros e. destruct (cd_command_id cd) as [c|]; [|apply keeps_ret].
      destruct (String.eqb c ""); [apply keeps_ret|].
      apply send_error_response_keeps_clients.
Qed.

(** [process_command] contains every exception. *)
Lemma process_command_returns fresh_uuid data addr st :
  fst (process_command fresh_uuid data addr st) = Ret tt.
Proof.
  destruct data as [|details|v|cd]; simpl; try reflexivity.
  - unfold try_except.
    match goal with
    | |- fst (match ?m with _ => _ end) = _ => destruct m as [[[]|e] st1]
    end; reflexivity.
  - unfold try_except.
    match goal with
    | |- fst (match ?m with _ => _ end) = _ => destruct m as [[[]|e] st1]
    end; [reflexivity|].
    destruct (cd_command_id cd) as [c|]; [|reflexivity].
    destruct (String.eqb c ""); [reflexivity|].
    apply send_error_response_returns.
Qed.

End Dispatcher.

(** C5 (as stated, at a concrete input).  Client [c1] is registered at
    10.0.0.1:4000; a ping bearing [client_id = "c1"] arrives from
    10.0.0.9:4999.  After dispatch the registry still maps [c1] to the old
    address, not to the source address of the command. *)
Lemma C5_existing_entry_not_updated :
  let st := set_current_clients {[ "c1" := ("10.0.0.1", 4000) ]}
              (initial_state "server" 0%float) in
  let ping := Envelope {| cd_command := Some "ping"; cd_params := None;
                          cd_command_id := Some "cmd-1"; cd_client_id := Some "c1" |} in
  let st' := snd (process_command (H := calm) "uuid" ping ("10.0.0.9", 4999) st) in
  current_clients st' !! "c1" = Some ("10.0.0.1", 4000)
  /\ current_clients st' !! "c1" <> Some ("10.0.0.9", 4999).
Proof. vm_compute. split; [reflexivity | discriminate]. Qed.

(** C5 (amended).  After a decoded command bearing [client_id] C from
    address A is dispatched, the Client Registry maps C to the address it was
    first registered with: A when C was unknown, the existing address
    otherwise.  Every other entry is as before. *)
Theorem C5_first_registration_wins `{Env} :
  forall fresh_uuid cd addr st,
    let client_id := envelope_client_id addr cd in
    let st' := snd (process_command fresh_uuid (Envelope cd) addr st) in
    current_clients st' !! client_id
    = Some (default addr (current_clients st !! client_id))
    /\ forall other, other <> client_id ->
         current_clients st' !! other = current_clients st !! other.
Proof.
  intros fresh_uuid cd addr st client_id st'. subst st'.
  rewrite process_command_clients. fold client_id. cbv zeta.
  destruct (current_clients st !! client_id) as [old|] eqn:Hold; simpl.
  - split; [exact Hold | reflexivity].
  - split; [apply lookup_insert_eq|].
    intros other Hother. by apply lookup_insert_ne.
Qed.

(** ** Correlation Entries over a run *)

Section Tracker.
Context `{Env}.

Lemma process_command_keeps_other fresh_uuid data addr j st :
  dispatches j (AProcessCommand fresh_uuid data addr) = false ->
  active_command_ids (snd (process_command fresh_uuid data addr st)) !! j
  = active_command_ids st !! j.
Proof.
  intros Hj. destruct data as [|details|v|cd]; unfold process_command.
  - reflexivity.
  - match goal with
    | |- active_command_ids (snd (?m st)) !! j = _ =>
        revert st; change (keeps (fun st => active_command_ids st !! j) m)
    end.
    frame.
  - reflexivity.
  - simpl in Hj. apply String.eqb_neq in Hj.
    unfold envelope_command_id in Hj.
    unfold dispatch, register_client.
    rewrite (try_modify_then (fun st => active_command_ids st !! j)).
    + destruct (current_clients st !! _); reflexivity.
    + apply keeps_bind.
      * unfold track_command. apply keeps_modify. intros st0. simpl.
        by rewrite lookup_insert_ne.
      * intros _. apply dispatched_keeps; intros; try reflexivity.
        -- apply send_response_keeps_other. congruence.
        -- apply send_error_response_keeps_other. congruence.
    + intros e. destruct (cd_command_id cd) as [c|]; [|apply keeps_ret].
      destruct (String.eqb c ""); [apply keeps_ret|].
      apply send_error_response_keeps_other. simpl in Hj. congruence.
Qed.

Lemma broadcast_round_keeps_tracker : keeps active_command_ids broadcast_round.
Proof.
  unfold broadcast_round, get_status_data, device_statuses, is_device_connected. frame.
Qed.

Lemma activate_motor_array_keeps {B} (f : state -> B) step duration_ms :
  (forall t st, f (set_trace t st) = f st) ->
  keeps f (activate_motor_array step duration_ms).
Proof.
  intros Hf. unfold activate_motor_array, activate_panel.
  repeat first [ apply keeps_call; [exact Hf] | frame_step ].
Qed.

Lemma play_pattern_async_keeps {B} (f : state -> B) pattern_file key client_id command_id :
  (forall t st, f (set_trace t st) = f st) ->
  keeps f (_play_pattern_async pattern_file key client_id command_id).
Proof.
  intros Hf. unfold _play_pattern_async, load_and_play_tact_file.
  repeat first [ apply keeps_call; [exact Hf] | apply keeps_send_event; [exact Hf]
               | frame_step ].
Qed.

Lemma stop_keeps_tracker : keeps active_command_ids stop.
Proof.
  unfold stop, cleanup_haptics, gloves_cleanup, pattern_player_cleanup,
    array_example_cleanup.
  frame.
Qed.

Lemma perform_keeps_other a j st :
  dispatches j a = false ->
  active_command_ids (perform a st) !! j = active_command_ids st !! j.
Proof.
  intros Hj. destruct a; simpl.
  - by apply process_command_keeps_other.
  - by rewrite broadcast_round_keeps_tracker.
  - by rewrite (activate_motor_array_keeps active_command_ids).
  - by rewrite (keeps_send_event active_command_ids).
  - by rewrite (play_pattern_async_keeps active_command_ids).
  - by rewrite stop_keeps_tracker.
Qed.

Lemma run_keeps_other actions j st :
  Forall (fun a => dispatches j a = false) actions ->
  active_command_ids (run actions st) !! j = active_command_ids st !! j.
Proof.
  intros Hall. revert st. induction Hall as [|a actions Ha _ IH]; intros st; simpl.
  - reflexivity.
  - unfold run in *. simpl. rewrite IH. by apply perform_keeps_other.
Qed.

End Tracker.

(** ** Subscriptions over a run

    No statement of the server adds to [event_handlers]: the only handler
    that writes it removes a client.  A registry that is empty stays empty,
    and with an empty registry [_send_event] sends nothing. *)

Section Subscriptions.
Context `{Env}.

Lemma keeps_preserves {A} (m : M A) :
  keeps event_handlers m -> preserves no_subscribers m.
Proof. intros Hkeeps st Hempty. unfold no_subscribers. by rewrite Hkeeps. Qed.

Lemma preserves_bind {A C} (P : state -> Prop) (m : M A) (k : A -> M C) :
  preserves P m -> (forall a, preserves P (k a)) -> preserves P (m ≫= k).
Proof.
  intros Hm Hk st HP. unfold mbind, M_bind.
  specialize (Hm st HP). destruct (m st) as [[a|e] st1]; simpl in *.
  - by apply Hk.
  - exact Hm.
Qed.

Lemma preserves_try {A} (P : state -> Prop) (m : M A) (h : exn -> M A) :
  preserves P m -> (forall e, preserves P (h e)) -> preserves P (try_except m h).
Proof.
  intros Hm Hh st HP. unfold try_except.
  specialize (Hm st HP). destruct (m st) as [[a|e] st1]; simpl in *.
  - exact Hm.
  - by apply Hh.
Qed.

Lemma send_response_keeps_events result client_id command_id :
  keeps event_handlers (send_response result client_id command_id).
Proof. unfold send_response, pop_command_id. frame. Qed.

Lemma send_error_response_keeps_events msg client_id command_id :
  keeps event_handlers (send_error_response msg client_id command_id).
Proof. unfold send_error_response, pop_command_id. frame. Qed.

Lemma unregister_preserves params client_id command_id :
  preserves no_subscribers (handle_unregister_event_callback params client_id command_id).
Proof.
  intros st Hempty. unfold no_subscribers in *.
  unfold handle_unregister_event_callback, subscribers_of, param. unfold_monad.
  destruct (Py.get params "event_type" JNull) as [event_type|e]; [|exact Hempty].
  destruct (Py.truthy event_type); simpl.
  - destruct (Py.hashable event_type); simpl; [|exact Hempty].
    destruct event_type; simpl; try exact Hempty.
    rewrite Hempty, lookup_empty. exact Hempty.
  - rewrite Hempty. apply fmap_empty.
Qed.

Ltac events_frame :=
  apply keeps_preserves;
  repeat first
    [ apply send_response_keeps_events
    | apply activate_glove_motor_keeps; [intros; reflexivity]
    | frame_step ].

Lemma command_handlers_preserve :
  Forall (fun entry : string * handler =>
            forall params client_id command_id,
              preserves no_subscribers (entry.2 params client_id command_id))
    command_handlers.
Proof.
  unfold command_handlers.
  repeat (constructor; [intros params client_id command_id; simpl|]); [..|constructor].
  - unfold handle_ping, param. events_frame.
  - unfold handle_get_status, get_status_data, device_statuses, is_device_connected.
    events_frame.
  - unfold handle_get_device_status, device_statuses, is_device_connected, param.
    events_frame.
  - unfold handle_register_event_callback, load_global, param. events_frame.
  - apply unregister_preserves.
  - unfold handle_shutdown, initiate_shutdown, param. events_frame.
  - unfold handle_activate_discrete, param. events_frame.
  - unfold handle_activate_funnelling, param. events_frame.
  - unfold handle_activate_glove_motor, param. events_frame.
  - unfold handle_play_pattern, param. events_frame.
  - unfold handle_stop_pattern, param. events_frame.
  - unfold handle_is_pattern_playing, param. events_frame.
  - unfold handle_play_wave_pattern. events_frame.
  - unfold handle_play_alternating_pattern. events_frame.
  - unfold handle_play_custom_pattern, param. events_frame.
  - unfold handle_submit_dot, param. events_frame.
  - unfold handle_submit_path, param. events_frame.
  - unfold handle_register_tact_file, param. events_frame.
  - unfold handle_submit_registered, param. events_frame.
Qed.

Lemma get_handler_preserves command h params client_id command_id :
  get_handler command = Some h ->
  preserves no_subscribers (h params client_id command_id).
Proof.
  destruct command as [c|]; [|discriminate]. unfold get_handler.
  pose proof command_handlers_preserve as Hall. revert Hall.
  generalize command_handlers. intros table Hall.
  induction Hall as [|[name h'] rest Hh _ IH]; simpl; [discriminate|].
  destruct (String.eqb c name); [|exact IH].
  intros [= <-]. apply Hh.
Qed.

Lemma process_command_preserves fresh_uuid data addr :
  preserves no_subscribers (process_command fresh_uuid data addr).
Proof.
  destruct data as [|details|v|cd]; unfold process_command.
  - intros st Hempty. exact Hempty.
  - events_frame.
  - intros st Hempty. exact Hempty.
  - apply preserves_try.
    + unfold dispatch.
      apply preserves_bind.
      { apply keeps_preserves, keeps_modify. intros st.
        destruct (current_clients st !! _); reflexivity. }
      intros _. apply preserves_bind.
      { apply keeps_preserves, keeps_modify. intros st. reflexivity. }
      intros _.
      destruct (get_handler (cd_command cd)) as [h|] eqn:Hh.
      * apply preserves_bind; [by apply (get_handler_preserves (cd_command cd))|].
        intros [result|]; [|events_frame].
        apply keeps_preserves, send_response_keeps_events.
      * apply keeps_preserves, send_error_response_keeps_events.
    + intros e. destruct (cd_command_id cd) as [c|]; [|events_frame].
      destruct (String.eqb c ""); [events_frame|].
      apply keeps_preserves, send_error_response_keeps_events.
Qed.

Lemma perform_preserves a st : no_subscribers st -> no_subscribers (perform a st).
Proof.
  destruct a; simpl.
  - apply process_command_preserves.
  - apply keeps_preserves.
    unfold broadcast_round, get_status_data, device_statuses, is_device_connected. frame.
  - apply keeps_preserves. apply activate_motor_array_keeps. reflexivity.
  - apply keeps_preserves. apply keeps_send_event. reflexivity.
  - apply keeps_preserves. apply play_pattern_async_keeps. reflexivity.
  - apply keeps_preserves.
    unfold stop, cleanup_haptics, gloves_cleanup, pattern_player_cleanup,
      array_example_cleanup.
    frame.
Qed.

(** From a freshly started server no run reaches a state with a
    subscriber. *)
Lemma never_a_subscriber actions sid t0 :
  no_subscribers (run actions (initial_state sid t0)).
Proof.
  assert (forall st, no_subscribers st -> no_subscribers (run actions st)) as Hrun.
  { induction actions as [|a actions IH]; intros st Hempty; [exact Hempty|].
    unfold run in *. simpl. apply IH. by apply perform_preserves. }
  apply Hrun. reflexivity.
Qed.

(** With nobody subscribed, [_send_event] leaves the state as it is. *)
Lemma send_event_without_subscribers event_type data target st :
  no_subscribers st -> _send_event event_type data target st = (Ret tt, st).
Proof.
  unfold no_subscribers. intros Hempty.
  unfold _send_event, event_clients. unfold_monad.
  rewrite Hempty, lookup_empty. simpl.
  destruct (String.eqb target ""); reflexivity.
Qed.

End Subscriptions.

(** C9.  When the target [client_id] is absent from the Client Registry,
    [send_response] and [send_error_response] return without sending
    anything and without touching the state: the Correlation Entry of the
    command stays.  It then stays for as long as the server runs, whatever it
    does, until a command is dispatched under the same [command_id]. *)
Theorem C9_response_to_unknown_client_dropped `{Env} :
  forall result msg client_id command_id st,
    current_clients st !! client_id = None ->
    send_response result client_id command_id st = (Ret tt, st)
    /\ send_error_response msg client_id command_id st = (Ret tt, st)
    /\ forall actions,
         Forall (fun a => dispatches command_id a = false) actions ->
         active_command_ids (run actions st) !! command_id
         = active_command_ids st !! command_id.
Proof.
  intros result msg client_id command_id st Hunknown. repeat split.
  - by apply send_response_unknown.
  - by apply send_error_response_unknown.
  - intros actions Hall. by apply run_keeps_other.
Qed.

(** ** Steady-state ping traffic *)

Section Pings.
Context `{Env}.

Lemma handle_ping_object kv client_id command_id st :
  handle_ping (JObj kv) client_id command_id st
  = (Ret (Some (JObj [("success", JBool true);
                      ("message", JStr "Pong");
                      ("timestamp", timestamp_at st);
                      ("echo", default (JStr "") (Py.assoc "message" kv))])), st).
Proof. reflexivity. Qed.

Lemma ping_answered fresh_uuid cd addr st :
  reliable ->
  server_socket_closed st = false ->
  is_ping (AProcessCommand fresh_uuid (Envelope cd) addr) = true ->
  let st' := snd (process_command fresh_uuid (Envelope cd) addr st) in
  active_command_ids st'
  = delete (envelope_command_id fresh_uuid cd) (active_command_ids st)
  /\ server_socket_closed st' = false.
Proof.
  intros Hrel Hopen Hping. simpl in Hping.
  destruct (cd_command cd) as [c|] eqn:Hc; [|discriminate].
  assert (c = "ping") as ->.
  { destruct (cd_params cd) as [[]|]; try discriminate; by apply String.eqb_eq. }
  assert (exists kv, default (JObj []) (cd_params cd) = JObj kv) as [kv Hkv].
  { destruct (cd_params cd) as [[]|]; try discriminate; simpl; eauto. }
  unfold process_command, dispatch. rewrite Hc, Hkv.
  change (get_handler (Some "ping")) with (Some handle_ping).
  fold (envelope_command_id fresh_uuid cd) (envelope_client_id addr cd).
  set (command_id := envelope_command_id fresh_uuid cd).
  set (client_id := envelope_client_id addr cd).
  unfold try_except, mbind, M_bind, register_client, track_command, modify.
  set (st1 := match current_clients st !! client_id with
              | Some _ => st
              | None => set_current_clients (<[client_id := addr]> (current_clients st)) st
              end).
  set (st2 := set_active_command_ids _ st1).
  rewrite handle_ping_object.
  assert (exists known, current_clients st2 !! client_id = Some known) as [known Hknown].
  { subst st2 st1. simpl.
    destruct (current_clients st !! client_id) as [old|] eqn:Hold; simpl.
    - eauto.
    - rewrite lookup_insert_eq. eauto. }
  assert (server_socket_closed st2 = false) as Hopen2.
  { subst st2 st1. simpl. destruct (current_clients st !! client_id); exact Hopen. }
  rewrite (send_response_transmitted _ _ _ _ _ Hknown); [|split; [exact Hopen2 | apply Hrel]].
  simpl. split.
  - subst st2. simpl. rewrite delete_insert_eq.
    subst st1. destruct (current_clients st !! client_id); reflexivity.
  - subst st2 st1. simpl. destruct (current_clients st !! client_id); exact Hopen.
Qed.

Lemma pings_do_not_grow pings st :
  reliable ->
  server_socket_closed st = false ->
  Forall (fun a => is_ping a = true) pings ->
  active_command_ids (run pings st) ⊆ active_command_ids st.
Proof.
  intros Hrel Hopen Hall. revert st Hopen.
  induction Hall as [|a pings Ha _ IH]; intros st Hopen; [reflexivity|].
  destruct a as [fresh_uuid [| | |cd] addr| | | | |]; try discriminate.
  destruct (ping_answered fresh_uuid cd addr st Hrel Hopen Ha) as [Htracker Hopen'].
  unfold run in *. cbn [fold_left perform].
  etrans; [apply IH; exact Hopen'|].
  rewrite Htracker. apply delete_subseteq.
Qed.

End Pings.

(** C4.  When [send_response] or [send_error_response] gets its datagram
    out, the [command_id] has no entry in the Correlation Tracker
    afterwards.  Under ping traffic in which every response leaves the
    socket, the tracker never holds more entries than it held before the
    traffic started. *)
Theorem C4_answered_commands_leave_tracker `{Env} :
  (forall result client_id command_id addr st,
     current_clients st !! client_id = Some addr ->
     transmits st addr (response_envelope command_id (timestamp_at st) result) ->
     active_command_ids (snd (send_response result client_id command_id st)) !! command_id
     = None)
  /\ (forall msg client_id command_id addr st,
        current_clients st !! client_id = Some addr ->
        transmits st addr (error_envelope command_id msg (timestamp_at st)) ->
        active_command_ids (snd (send_error_response msg client_id command_id st)) !! command_id
        = None)
  /\ (forall pings st,
        reliable ->
        server_socket_closed st = false ->
        Forall (fun a => is_ping a = true) pings ->
        active_command_ids (run pings st) ⊆ active_command_ids st
        /\ size (active_command_ids (run pings st)) <= size (active_command_ids st))%nat.
Proof.
  repeat split.
  - intros result client_id command_id addr st Haddr Hsent.
    rewrite (send_response_transmitted _ _ _ _ _ Haddr Hsent). simpl.
    apply lookup_delete_eq.
  - intros msg client_id command_id addr st Haddr Hsent.
    rewrite (send_error_response_transmitted _ _ _ _ _ Haddr Hsent). simpl.
    apply lookup_delete_eq.
  - by apply pings_do_not_grow.
  - apply map_subseteq_size. by apply pings_do_not_grow.
Qed.

(** ** Shutdown on command *)

Section Shutdown.
Context `{Env}.

Lemma send_response_spec result client_id command_id st :
  send_response result client_id command_id st
  = (Ret tt, after_response result client_id command_id st).
Proof.
  unfold send_response, after_response, server_socket_sendto, call, pop_command_id,
    now_iso, timestamp_at, sent_with.
  unfold_monad.
  destruct (current_clients st !! client_id) as [addr|]; [|reflexivity].
  destruct (server_socket_closed st); [reflexivity|].
  destruct (answer _ _); reflexivity.
Qed.

Lemma handle_shutdown_spec kv client_id command_id st :
  let force := default (JBool false) (Py.assoc "force" kv) in
  handle_shutdown (JObj kv) client_id command_id st
  = (Ret None,
     after_initiate_shutdown force
       (after_response (shutdown_result force) client_id command_id st)).
Proof.
  intros force. unfold handle_shutdown, initiate_shutdown, param, emit.
  unfold mbind at 1, M_bind at 1, lift. simpl Py.get. fold force.
  unfold mbind at 1, M_bind at 1. fold (shutdown_result force).
  rewrite send_response_spec.
  unfold after_initiate_shutdown. unfold_monad.
  destruct (Py.truthy force); reflexivity.
Qed.

(** The trace a response adds: at most the one datagram. *)
Lemma after_response_trace result client_id command_id st :
  trace (after_response result client_id command_id st)
  = (trace st ++
     match current_clients st !! client_id with
     | Some addr =>
         if server_socket_closed st then []
         else [ESendto addr (response_envelope command_id (timestamp_at st) result)]
     | None => []
     end)%list.
Proof.
  unfold after_response.
  destruct (current_clients st !! client_id) as [addr|]; [|by rewrite app_nil_r].
  destruct (server_socket_closed st); [by rewrite app_nil_r|].
  cbv zeta. destruct (answer _ _); reflexivity.
Qed.

(** A response changes neither the sockets nor the run flag nor anything
    the cleanups read. *)
Lemma after_response_untouched result client_id command_id st :
  let st' := after_response result client_id command_id st in
  running st' = running st
  /\ cleanup_done st' = cleanup_done st
  /\ server_socket_closed st' = server_socket_closed st
  /\ discovery_socket_closed st' = discovery_socket_closed st
  /\ player_ws st' = player_ws st
  /\ gloves_cleanup_done st' = gloves_cleanup_done st
  /\ array_cleanup_done st' = array_cleanup_done st
  /\ thread_should_exit st' = thread_should_exit st
  /\ current_clients st' = current_clients st.
Proof.
  unfold after_response.
  destruct (current_clients st !! client_id) as [addr|]; [|by repeat split].
  destruct (server_socket_closed st) eqn:Hclosed; [by rewrite ?Hclosed|].
  cbv zeta. destruct (answer _ _); simpl; by rewrite ?Hclosed.
Qed.

End Shutdown.

Section ShutdownCommand.
Context `{Env}.

Lemma filter_adapter_app (t u : list effect) :
  filter is_adapter_call (t ++ u) = (filter is_adapter_call t ++ filter is_adapter_call u)%list.
Proof. apply filter_app. Qed.

Lemma after_shutdown_untouched force st :
  let st' := after_initiate_shutdown force st in
  cleanup_done st' = cleanup_done st
  /\ server_socket_closed st' = server_socket_closed st
  /\ discovery_socket_closed st' = discovery_socket_closed st
  /\ player_ws st' = player_ws st
  /\ gloves_cleanup_done st' = gloves_cleanup_done st
  /\ array_cleanup_done st' = array_cleanup_done st
  /\ thread_should_exit st' = thread_should_exit st
  /\ filter is_adapter_call (trace st') = filter is_adapter_call (trace st).
Proof.
  unfold after_initiate_shutdown. destruct (Py.truthy force); simpl; repeat split.
  rewrite filter_adapter_app. simpl. apply app_nil_r.
Qed.

Lemma process_shutdown fresh_uuid params command_id client_id addr st :
  let kv := default [] params in
  let cd := {| cd_command := Some "shutdown"; cd_params := JObj <$> params;
               cd_command_id := command_id; cd_client_id := client_id |} in
  let force := default (JBool false) (Py.assoc "force" kv) in
  let cid := envelope_client_id addr cd in
  let kid := envelope_command_id fresh_uuid cd in
  process_command fresh_uuid (Envelope cd) addr st
  = (Ret tt,
     after_initiate_shutdown force
       (after_response (shutdown_result force) cid kid
          (dispatched_state cid kid (Some "shutdown") addr st))).
Proof.
  intros kv cd force cid kid. unfold process_command, dispatch.
  change (get_handler (cd_command cd)) with (Some handle_shutdown).
  replace (default (JObj []) (cd_params cd)) with (JObj kv)
    by (subst cd kv; destruct params; reflexivity).
  fold cid kid.
  unfold try_except, mbind, M_bind, register_client, track_command, modify.
  fold (dispatched_state cid kid (Some "shutdown") addr st).
  rewrite handle_shutdown_spec. reflexivity.
Qed.

End ShutdownCommand.

(** C6.  For a [shutdown] command whose [params] is an object or is left
    out: the handler first hands the success response to the socket, from
    the state it was called in, and only then initiates the shutdown; it
    returns [None].  Neither step closes a socket, runs a cleanup or calls
    the adapter.  With a falsy [force] the one change after the response is
    [running = False]; with a truthy [force] the handler queues
    [os._exit(0)], which ends the process when the loop runs its callbacks,
    and [running] stays as it was.  The dispatcher sends nothing after the
    handler: the command adds one datagram to the trace, the success
    response (none if the command socket is already closed). *)
Theorem C6_shutdown_answers_then_stops `{Env} :
  forall fresh_uuid params command_id client_id addr st,
    let kv := default [] params in
    let cd := {| cd_command := Some "shutdown"; cd_params := JObj <$> params;
                 cd_command_id := command_id; cd_client_id := client_id |} in
    let force := default (JBool false) (Py.assoc "force" kv) in
    let cid := envelope_client_id addr cd in
    let kid := envelope_command_id fresh_uuid cd in
    let st0 := dispatched_state cid kid (Some "shutdown") addr st in
    let answered := after_response (shutdown_result force) cid kid st0 in
    let st' := after_initiate_shutdown force answered in
    handle_shutdown (JObj kv) cid kid st0 = (Ret None, st')
    /\ process_command fresh_uuid (Envelope cd) addr st = (Ret tt, st')
    /\ trace st'
       = (trace st
          ++ (if server_socket_closed st then []
              else [ESendto (default addr (current_clients st !! cid))
                      (response_envelope kid (timestamp_at st) (shutdown_result force))])
          ++ (if Py.truthy force then [ECallSoonOsExit] else []))%list
    /\ (if Py.truthy force
        then run_ready_callbacks st' = Exited 0 /\ running st' = running st
        else st' = set_running false answered)
    /\ cleanup_done st' = cleanup_done st
    /\ server_socket_closed st' = server_socket_closed st
    /\ discovery_socket_closed st' = discovery_socket_closed st
    /\ player_ws st' = player_ws st
    /\ filter is_adapter_call (trace st') = filter is_adapter_call (trace st).
Proof.
  intros fresh_uuid params command_id client_id addr st kv cd force cid kid st0 answered st'.
  assert (trace st0 = trace st) as Htrace0.
  { subst st0. unfold dispatched_state. simpl.
    destruct (current_clients st !! cid); reflexivity. }
  assert (current_clients st0 !! cid = Some (default addr (current_clients st !! cid)))
    as Hknown.
  { subst st0. unfold dispatched_state. simpl.
    destruct (current_clients st !! cid) as [old|] eqn:Hold; simpl.
    - exact Hold.
    - apply lookup_insert_eq. }
  assert (server_socket_closed st0 = server_socket_closed st) as Hsock0.
  { subst st0. unfold dispatched_state. simpl.
    destruct (current_clients st !! cid); reflexivity. }
  assert (trace answered
          = (trace st ++ if server_socket_closed st then []
                         else [ESendto (default addr (current_clients st !! cid))
                                 (response_envelope kid (timestamp_at st)
                                    (shutdown_result force))])%list) as Hanswered.
  { subst answered. rewrite after_response_trace, Hknown, Hsock0, Htrace0.
    unfold timestamp_at. rewrite Htrace0. reflexivity. }
  destruct (after_response_untouched (shutdown_result force) cid kid st0)
    as (Hrun & Hdone & Hsock & Hdisc & Hws & Hgl & Harr & Hth & Hcl).
  fold answered in Hrun, Hdone, Hsock, Hdisc, Hws, Hgl, Harr, Hth, Hcl.
  destruct (after_shutdown_untouched force answered)
    as (Hdone' & Hsock' & Hdisc' & Hws' & Hgl' & Harr' & Hth' & Hcalls').
  fold st' in Hdone', Hsock', Hdisc', Hws', Hgl', Harr', Hth', Hcalls'.
  repeat split.
  - apply handle_shutdown_spec.
  - apply process_shutdown.
  - subst st'. unfold after_initiate_shutdown.
    destruct (Py.truthy force); simpl; rewrite Hanswered.
    + by rewrite <- app_assoc.
    + by rewrite app_nil_r.
  - subst st'. unfold after_initiate_shutdown.
    destruct (Py.truthy force) eqn:Hforce; [|reflexivity]. split.
    + unfold run_ready_callbacks. simpl. rewrite existsb_app. simpl.
      by rewrite orb_true_r.
    + simpl. rewrite Hrun. subst st0. unfold dispatched_state. simpl.
      destruct (current_clients st !! cid); reflexivity.
  - rewrite Hdone', Hdone. subst st0. unfold dispatched_state. simpl.
    destruct (current_clients st !! cid); reflexivity.
  - rewrite Hsock', Hsock. exact Hsock0.
  - rewrite Hdisc', Hdisc. subst st0. unfold dispatched_state. simpl.
    destruct (current_clients st !! cid); reflexivity.
  - rewrite Hws', Hws. subst st0. unfold dispatched_state. simpl.
    destruct (current_clients st !! cid); reflexivity.
  - rewrite Hcalls', Hanswered, filter_adapter_app.
    destruct (server_socket_closed st); simpl; by rewrite app_nil_r.
Qed.

(** ** The shutdown sequence *)

(** Case analysis on what the outside answers, call after call. *)
Ltac case_answers :=
  repeat match goal with
         | |- context [answer ?t ?e] => destruct (answer t e); simpl
         end.

Section Stop.
Context `{Env}.

Lemma gloves_cleanup_spec st :
  exists st',
    gloves_cleanup st = (Ret tt, st')
    /\ trace st' = trace st ++ (if gloves_cleanup_done st then [] else guarded_cleanup_calls st)
    /\ player_ws st' = (if gloves_cleanup_done st then player_ws st else false)
    /\ array_cleanup_done st' = array_cleanup_done st
    /\ cleanup_done st' = cleanup_done st.
Proof.
  unfold gloves_cleanup, guarded_cleanup_calls, call. unfold_monad.
  destruct (gloves_cleanup_done st) eqn:Hdone.
  { eexists. split; [reflexivity|]. by rewrite app_nil_r. }
  destruct (player_ws st) eqn:Hws; simpl; case_answers;
    (eexists; split; [reflexivity|]); simpl; by rewrite <- ?app_assoc.
Qed.

Lemma array_example_cleanup_spec st :
  exists st',
    array_example_cleanup st = (Ret tt, st')
    /\ trace st' = trace st ++ (if array_cleanup_done st then [] else guarded_cleanup_calls st)
    /\ cleanup_done st' = cleanup_done st.
Proof.
  unfold array_example_cleanup, guarded_cleanup_calls, call. unfold_monad.
  destruct (array_cleanup_done st) eqn:Hdone.
  { eexists. split; [reflexivity|]. by rewrite app_nil_r. }
  destruct (player_ws st) eqn:Hws; simpl; case_answers;
    (eexists; split; [reflexivity|]); simpl; by rewrite <- ?app_assoc.
Qed.

Lemma pattern_player_cleanup_spec st :
  exists st',
    pattern_player_cleanup st = (Ret tt, st')
    /\ trace st' = trace st ++ [EPlayer PDestroy]
    /\ player_ws st' = player_ws st
    /\ array_cleanup_done st' = array_cleanup_done st
    /\ cleanup_done st' = cleanup_done st.
Proof.
  unfold pattern_player_cleanup, call. unfold_monad. simpl.
  case_answers; (eexists; split; [reflexivity|]); done.
Qed.

Lemma bind_ret {A B} (m : M A) (k : A -> M B) st a st' :
  m st = (Ret a, st') -> (m ≫= k) st = k a st'.
Proof. intros Hm. unfold mbind, M_bind. by rewrite Hm. Qed.

Lemma try_ret {A} (m : M A) (h : exn -> M A) st a st' :
  m st = (Ret a, st') -> try_except m h st = (Ret a, st').
Proof. intros Hm. unfold try_except. by rewrite Hm. Qed.

Lemma hmc_cleanup_step st :
  try_except (call EHmcCleanup ;; mret tt) (fun _ => mret tt) st
  = (Ret tt, set_trace (trace st ++ [EHmcCleanup]) st).
Proof. unfold call. unfold_monad. case_answers; reflexivity. Qed.

Lemma cleanup_haptics_spec st :
  exists st',
    cleanup_haptics st = (Ret tt, st')
    /\ trace st' = trace st ++ cleanup_haptics_calls st
    /\ cleanup_done st' = cleanup_done st.
Proof.
  set (st1 := set_trace (trace st ++ [EHmcCleanup]) st).
  destruct (gloves_cleanup_spec st1) as (st2 & Hg & Ht2 & Hws2 & Harr2 & Hd2).
  destruct (pattern_player_cleanup_spec st2) as (st3 & Hp & Ht3 & Hws3 & Harr3 & Hd3).
  destruct (array_example_cleanup_spec st3) as (st4 & Ha & Ht4 & Hd4).
  exists st4. split; [|split].
  - unfold cleanup_haptics.
    rewrite (bind_ret _ _ _ _ _ (hmc_cleanup_step st)). fold st1.
    rewrite (bind_ret _ _ _ _ _ (try_ret _ _ _ _ _ Hg)).
    rewrite (bind_ret _ _ _ _ _ (try_ret _ _ _ _ _ Hp)).
    apply (try_ret _ _ _ _ _ Ha).
  - rewrite Ht4, Ht3, Ht2, Harr3, Harr2. unfold cleanup_haptics_calls.
    subst st1. simpl. rewrite <- !app_assoc. simpl.
    unfold guarded_cleanup_calls. rewrite Hws3, Hws2. simpl.
    destruct (gloves_cleanup_done st), (array_cleanup_done st), (player_ws st);
      simpl; by rewrite <- ?app_assoc.
  - rewrite Hd4, Hd3, Hd2. reflexivity.
Qed.

(** Once [cleanup_done] is set, [stop] returns at once. *)
Lemma stop_when_done st : cleanup_done st = true -> stop st = (Ret tt, st).
Proof. intros Hdone. unfold stop. unfold_monad. by rewrite Hdone. Qed.

Lemma stop_spec st :
  exists st',
    stop st = (Ret tt, st')
    /\ cleanup_done st' = true
    /\ trace st'
       = trace st ++
         (if cleanup_done st then []
          else [EServerSocketClose; EDiscoverySocketClose] ++ cleanup_haptics_calls st).
Proof.
  destruct (cleanup_done st) eqn:Hdone.
  { exists st. rewrite (stop_when_done _ Hdone). by rewrite app_nil_r. }
  unfold stop. unfold_monad. rewrite Hdone. unfold emit, modify. simpl.
  set (st1 := set_discovery_socket_closed true _).
  destruct (cleanup_haptics_spec st1) as (st2 & Hc & Ht & Hd).
  unfold try_except in Hc |- *. rewrite Hc. eexists. split; [reflexivity|].
  split; [reflexivity|]. simpl. rewrite Ht. subst st1. simpl.
  by rewrite <- !app_assoc.
Qed.

End Stop.

(** C7 (as stated, at a concrete input).  A freshly started server is
    stopped twice.  The second invocation adds nothing, but the first one
    has destroyed the player three times: once from the gloves' cleanup,
    once from the pattern player's, once from the array example's.  Teardown
    is not at most once per process lifetime. *)
Lemma C7_three_destroy_calls_in_one_stop :
  let st1 := snd (stop (H := calm) (initial_state "server" 0%float)) in
  let st2 := snd (stop (H := calm) st1) in
  trace st1
  = [EServerSocketClose; EDiscoverySocketClose; EHmcCleanup;
     EPlayer PWsClose; EPlayer PDestroy; EPlayer PDestroy; EPlayer PDestroy]
  /\ trace st2 = trace st1
  /\ destroy_calls (trace st2) = 3%nat
  /\ ~ (destroy_calls (trace st2) <= 1)%nat.
Proof. vm_compute. repeat split. lia. Qed.

(** C7 (amended).  [stop] always completes without raising and sets
    [cleanup_done]; a second invocation after that returns at once, calls
    nothing and raises nothing.  The first invocation calls [destroy] once
    from the pattern player's cleanup and once more from each of the gloves'
    and the array example's cleanups whose own flag is still clear. *)
Theorem C7_second_stop_is_a_no_op `{Env} :
  forall st,
    exists st1,
      stop st = (Ret tt, st1)
      /\ cleanup_done st1 = true
      /\ stop st1 = (Ret tt, st1)
      /\ destroy_calls (trace st1)
         = (destroy_calls (trace st)
            + if cleanup_done st then 0
              else (if gloves_cleanup_done st then 0 else 1)
                   + 1
                   + (if array_cleanup_done st then 0 else 1))%nat.
Proof.
  intros st. destruct (stop_spec st) as (st1 & Hstop & Hdone & Htrace).
  exists st1. repeat split; [exact Hstop | exact Hdone | by apply stop_when_done |].
  rewrite Htrace. unfold destroy_calls. rewrite filter_app, length_app.
  f_equal. unfold cleanup_haptics_calls, guarded_cleanup_calls.
  destruct (cleanup_done st), (gloves_cleanup_done st), (array_cleanup_done st),
    (player_ws st); reflexivity.
Qed.

(** ** Validation of motor commands *)

Section Validation.
Context `{Env}.

(** The test the handlers make rejects exactly the values that are neither
    a JSON integer in range nor a JSON boolean. *)
Lemma not_int_between_true v lo hi :
  lo <= 0 -> 1 <= hi ->
  Py.not_int_between v lo hi = true
  <-> ~ json_int_in v lo hi /\ is_json_bool v = false.
Proof.
  intros Hlo Hhi. unfold Py.not_int_between, json_int_in. split.
  - intros Hrej. destruct v as [|b|z|f|s|l|kv]; simpl in *;
      try (split; [by intros (z' & [=] & _) | reflexivity]).
    + destruct b; simpl in Hrej;
        apply negb_true_iff, andb_false_iff in Hrej as [?%Z.leb_gt|?%Z.leb_gt]; lia.
    + split; [|reflexivity]. intros (z' & [= <-] & Hz).
      apply negb_true_iff, andb_false_iff in Hrej as [?%Z.leb_gt|?%Z.leb_gt]; lia.
  - intros [Hnot Hbool]. destruct v as [|b|z|f|s|l|kv]; simpl in *; try done.
    apply negb_true_iff, andb_false_iff.
    destruct (Z.leb_spec lo z); [|by left].
    destruct (Z.leb_spec z hi); [|by right].
    exfalso. apply Hnot. eauto.
Qed.

Lemma discrete_rejects kv client_id command_id st :
  Py.not_int_between (field kv "motor_index" JNull) 0 19 = true ->
  handle_activate_discrete (JObj kv) client_id command_id st
  = (Ret (Some (error_result
                  (if valid_panel (field kv "panel" JNull)
                   then "Motor index must be an integer between 0 and 19"
                   else "Panel must be 'front' or 'back'"))), st).
Proof.
  intros Hrej. unfold handle_activate_discrete, field in *. unfold_monad. simpl.
  destruct (valid_panel _); simpl; [|reflexivity].
  rewrite Hrej. reflexivity.
Qed.

Lemma glove_rejects kv client_id command_id st :
  Py.not_int_between (field kv "motor_index" JNull) 0 5 = true ->
  handle_activate_glove_motor (JObj kv) client_id command_id st
  = (Ret (Some (error_result
                  (if valid_glove (field kv "glove" JNull)
                   then "Motor index must be an integer between 0 and 5"
                   else "Glove must be 'left' or 'right'"))), st).
Proof.
  intros Hrej. unfold handle_activate_glove_motor, field in *. unfold_monad. simpl.
  destruct (valid_glove _); simpl; [|reflexivity].
  rewrite Hrej. reflexivity.
Qed.

(** A command that passes the four tests reaches the adapter. *)
Lemma discrete_accepted kv client_id command_id st :
  let panel := field kv "panel" JNull in
  let motor_index := field kv "motor_index" JNull in
  let intensity := field kv "intensity" (JInt 100) in
  let duration_ms := field kv "duration_ms" (JInt 500) in
  valid_panel panel = true ->
  Py.not_int_between motor_index 0 19 = false ->
  Py.not_int_between intensity 0 100 = false ->
  Py.not_positive_int duration_ms = false ->
  trace (snd (handle_activate_discrete (JObj kv) client_id command_id st))
  = trace st ++ [EHmcActivateDiscrete panel motor_index intensity duration_ms].
Proof.
  intros panel motor_index intensity duration_ms Hp Hm Hi Hd.
  unfold handle_activate_discrete, call. unfold_monad. simpl.
  fold (field kv "panel" JNull) (field kv "motor_index" JNull)
    (field kv "intensity" (JInt 100)) (field kv "duration_ms" (JInt 500)).
  fold panel motor_index intensity duration_ms.
  rewrite Hp, Hm, Hi, Hd. simpl.
  destruct (answer _ _) as [success|e]; [destruct (Py.truthy success)|]; reflexivity.
Qed.

End Validation.

(** C8 (as stated, at concrete inputs).  [motor_index = true] is not an
    integer in [[0, 19]], yet [activate_discrete] passes it to the adapter and
    reports success; the same holds for [activate_glove_motor].  And with
    [motor_index = 25] on an unknown panel the error is the panel message,
    not the motor index message. *)
Lemma C8_boolean_motor_index_reaches_adapter :
  let st := initial_state "server" 0%float in
  let discrete := [("panel", JStr "front"); ("motor_index", JBool true)] in
  let glove := [("glove", JStr "left"); ("motor_index", JBool true)] in
  let r1 := handle_activate_discrete (H := calm) (JObj discrete) "c1" "cmd-1" st in
  let r2 := handle_activate_glove_motor (H := calm) (JObj glove) "c1" "cmd-2" st in
  ~ json_int_in (field discrete "motor_index" JNull) 0 19
  /\ trace (snd r1)
     = [EHmcActivateDiscrete (JStr "front") (JBool true) (JInt 100) (JInt 500)]
  /\ fst r1 = Ret (Some (JObj [("success", JBool true); ("panel", JStr "front");
                               ("motor_index", JBool true); ("intensity", JInt 100);
                               ("duration_ms", JInt 500)]))
  /\ ~ json_int_in (field glove "motor_index" JNull) 0 5
  /\ trace (snd r2)
     = [EPlayer (PSubmitDot (JStr "gloveLeftFrame_motor_True") (JStr "GloveL")
                   (JList [JObj [("index", JBool true); ("intensity", JInt 100)]])
                   (JInt 500))]
  /\ fst (handle_activate_discrete (H := calm)
            (JObj [("panel", JStr "top"); ("motor_index", JInt 25)]) "c1" "cmd-3" st)
     = Ret (Some (error_result "Panel must be 'front' or 'back'")).
Proof.
  repeat split; try (vm_compute; reflexivity);
    intros (z & Hz & _); vm_compute in Hz; discriminate.
Qed.

(** C8 (amended).  When [motor_index] is neither a JSON integer in
    [[0, 19]] nor a JSON boolean, [activate_discrete] returns
    [success: false] and leaves the state, hence the trace of adapter calls,
    untouched; the error is the motor index message when the panel is valid
    and the panel message otherwise.  Likewise for [activate_glove_motor]
    with [[0, 5]] and the glove. *)
Theorem C8_invalid_motor_index_rejected `{Env} :
  forall kv client_id command_id st,
    let motor_index := field kv "motor_index" JNull in
    is_json_bool motor_index = false ->
    (~ json_int_in motor_index 0 19 ->
     handle_activate_discrete (JObj kv) client_id command_id st
     = (Ret (Some (error_result
                     (if valid_panel (field kv "panel" JNull)
                      then "Motor index must be an integer between 0 and 19"
                      else "Panel must be 'front' or 'back'"))), st))
    /\ (~ json_int_in motor_index 0 5 ->
        handle_activate_glove_motor (JObj kv) client_id command_id st
        = (Ret (Some (error_result
                        (if valid_glove (field kv "glove" JNull)
                         then "Motor index must be an integer between 0 and 5"
                         else "Glove must be 'left' or 'right'"))), st)).
Proof.
  intros kv client_id command_id st motor_index Hbool. split; intros Hnot.
  - apply discrete_rejects. apply not_int_between_true; [lia | lia | done].
  - apply glove_rejects. apply not_int_between_true; [lia | lia | done].
Qed.

(** C10.  A JSON [true] passes every [isinstance(..., int)] test as the
    integer 1: [activate_discrete] with [motor_index], [intensity] or
    [duration_ms] equal to [true] reaches [hmc_activate_discrete] with the
    boolean as argument, and [activate_glove_motor] reaches
    [player.submit_dot]. *)
Theorem C10_booleans_accepted_as_integers `{Env} :
  forall client_id command_id st,
    let call_with m i d :=
      trace (snd (handle_activate_discrete
                    (JObj [("panel", JStr "front"); ("motor_index", m);
                           ("intensity", i); ("duration_ms", d)])
                    client_id command_id st)) in
    Py.as_int (JBool true) = Some 1
    /\ call_with (JBool true) (JInt 100) (JInt 500)
       = trace st ++ [EHmcActivateDiscrete (JStr "front") (JBool true) (JInt 100) (JInt 500)]
    /\ call_with (JInt 3) (JBool true) (JInt 500)
       = trace st ++ [EHmcActivateDiscrete (JStr "front") (JInt 3) (JBool true) (JInt 500)]
    /\ call_with (JInt 3) (JInt 100) (JBool true)
       = trace st ++ [EHmcActivateDiscrete (JStr "front") (JInt 3) (JInt 100) (JBool true)]
    /\ trace (snd (handle_activate_glove_motor
                     (JObj [("glove", JStr "right"); ("motor_index", JBool true);
                            ("intensity", JBool true); ("duration_ms", JBool true)])
                     client_id command_id st))
       = trace st ++ [EPlayer (PSubmitDot (JStr "gloveRightFrame_motor_True")
                                 (position_value GloveR)
                                 (JList [JObj [("index", JBool true);
                                               ("intensity", JBool true)]])
                                 (JBool true))].
Proof.
  intros client_id command_id st call_with. subst call_with. cbv beta.
  split; [reflexivity|].
  do 3 (split;
        [match goal with
         | |- trace (snd (handle_activate_discrete (JObj ?kv) _ _ _)) = _ =>
             exact (discrete_accepted kv client_id command_id st
                      eq_refl eq_refl eq_refl eq_refl)
         end|]).
  unfold handle_activate_glove_motor, activate_glove_motor, call. unfold_monad. simpl.
  case_answers; reflexivity.
Qed.

(** ** Playback tasks and their terminal event *)

Section Playback.
Context `{Env}.

Lemma set_trace_same st : set_trace (trace st ++ []) st = st.
Proof. destruct st. unfold set_trace. simpl. by rewrite app_nil_r. Qed.

Lemma send_event_to_returns event_type data clients st :
  fst (send_event_to event_type data clients st) = Ret tt.
Proof.
  revert st. induction clients as [|c rest IH]; intros st; [reflexivity|].
  simpl. unfold mbind, M_bind, gets, try_except.
  destruct (current_clients st !! c) as [addr|]; [|apply IH].
  match goal with
  | |- fst (match (match ?m with _ => _ end) with _ => _ end) = _ =>
      destruct m as [[[]|e] st1]
  end; apply IH.
Qed.

Lemma send_event_returns event_type data target st :
  fst (_send_event event_type data target st) = Ret tt.
Proof. unfold _send_event, mbind, M_bind, gets. apply send_event_to_returns. Qed.


(** A task of the shape [try: loop; send complete; except e: send error]
    calls [_send_event] once, from the state the loop ended in. *)
Lemma task_sends_once (loop : M unit) complete (failed : exn -> json) client_id st :
  try_except (loop ;; _send_event "pattern_complete" complete client_id)
    (fun e => _send_event "pattern_error" (failed e) client_id) st
  = match loop st with
    | (Ret _, st1) => _send_event "pattern_complete" complete client_id st1
    | (Raise e, st1) => _send_event "pattern_error" (failed e) client_id st1
    end.
Proof.
  unfold try_except, mbind, M_bind.
  destruct (loop st) as [[[]|e] st1]; [|reflexivity].
  pose proof (send_event_returns "pattern_complete" complete client_id st1) as Hret.
  destruct (_send_event _ _ _ st1) as [[[]|e] st2]; [reflexivity | discriminate].
Qed.

(** The loop of a playback task stops at once when the run flag is clear. *)
Lemma play_steps_aborted others k steps duration_ms st :
  running st = false -> play_steps others k steps duration_ms st = (Ret tt, st).
Proof.
  intros Hstop. destruct steps as [|step rest]; [reflexivity|].
  simpl. unfold_monad. by rewrite Hstop.
Qed.



End Playback.

(** C2 (the code at the failing input).  Client [c1] is registered and
    subscribed to [pattern_complete]; the run flag is cleared while the task
    sleeps after its second step.  Each of the three playback tasks leaves
    its loop after two steps and then sends [pattern_complete] to [c1]. *)
Theorem C2_aborted_task_sends_pattern_complete :
  let st := with_subscribers {[ "c1" ]} in
  let complete data :=
    [ESendto ("10.0.0.1", 4000)
       (event_message "pattern_complete" (JStr "2025-03-07T12:00:00") (JObj data))] in
  let wave :=
    snd (_play_wave_pattern_async (H := calm) stopped_after_second_step "c1" "cmd-1" st) in
  let alternating :=
    snd (_play_alternating_pattern_async (H := calm) stopped_after_second_step
           "c1" "cmd-2" st) in
  let custom :=
    snd (_play_custom_pattern_async (H := calm) stopped_after_second_step
           (WAVE_PATTERN ++ ALTERNATING_PATTERN) (JInt 200) "c1" "cmd-3" st) in
  (running wave = false
   /\ length (filter is_adapter_call (trace wave)) = 16%nat
   /\ sent wave = complete [("pattern_type", JStr "wave"); ("command_id", JStr "cmd-1")])
  /\ (running alternating = false
      /\ length (filter is_adapter_call (trace alternating)) = 40%nat
      /\ sent alternating
         = complete [("pattern_type", JStr "alternating"); ("command_id", JStr "cmd-2")])
  /\ (running custom = false
      /\ length (filter is_adapter_call (trace custom)) = 16%nat
      /\ sent custom
         = complete [("pattern_type", JStr "custom"); ("command_id", JStr "cmd-3");
                     ("steps", JInt 9)]).
Proof. vm_compute. repeat split. Qed.



(** In every state and for every task, leaving the loop through [break]
    leads to the call [_send_event("pattern_complete", ...)]. *)
Lemma aborted_before_first_step `{Env} others pattern duration_ms client_id command_id st :
  running st = false ->
  _play_custom_pattern_async others pattern duration_ms client_id command_id st
  = _send_event "pattern_complete"
      (JObj [("pattern_type", JStr "custom");
             ("command_id", JStr command_id);
             ("steps", Py.len (JList pattern))]) client_id st.
Proof.
  intros Hstop. unfold _play_custom_pattern_async. rewrite task_sends_once.
  by rewrite play_steps_aborted.
Qed.

(** ** Instances of the conditional theorems *)

Lemma calm_is_reliable : reliable (H := calm).
Proof. intros t addr payload. exists (JBool true). reflexivity. Defined.


Lemma C4_witness :
  let st := set_active_command_ids {[ "cmd-0" := stale_entry ]}
              (set_current_clients two_clients (initial_state "server" 0%float)) in
  let pings := [ping_from "c1" (Some "cmd-1"); ping_from "c2" None;
                ping_from "c3" (Some "cmd-0")] in
  active_command_ids (snd (send_response (H := calm) (JObj []) "c1" "cmd-0" st)) !! "cmd-0"
  = None
  /\ active_command_ids
       (snd (send_error_response (H := calm) "Unknown command: x" "c1" "cmd-0" st)) !! "cmd-0"
     = None
  /\ (size (active_command_ids (run (H := calm) pings st)) <= size (active_command_ids st))%nat.
Proof.
  intros st pings.
  destruct (C4_answered_commands_leave_tracker (H := calm)) as (Hresponse & Herror & Hpings).
  split; [|split].
  - apply (Hresponse (JObj []) "c1" "cmd-0" ("10.0.0.1", 4000) st); [vm_compute; reflexivity|].
    split; [reflexivity | exists (JBool true); reflexivity].
  - apply (Herror "Unknown command: x" "c1" "cmd-0" ("10.0.0.1", 4000) st); [vm_compute; reflexivity|].
    split; [reflexivity | exists (JBool true); reflexivity].
  - apply (Hpings pings st calm_is_reliable); [reflexivity|].
    repeat (constructor; [vm_compute; reflexivity|]). constructor.
Defined.

Lemma C8_witness :
  let kv := [("panel", JStr "front"); ("motor_index", JInt 25);
             ("intensity", JInt 100); ("duration_ms", JInt 500)] in
  let st := initial_state "server" 0%float in
  is_json_bool (field kv "motor_index" JNull) = false
  /\ ~ json_int_in (field kv "motor_index" JNull) 0 19
  /\ handle_activate_discrete (H := calm) (JObj kv) "c1" "cmd-1" st
     = (Ret (Some (error_result "Motor index must be an integer between 0 and 19")), st).
Proof.
  intros kv st.
  assert (~ json_int_in (field kv "motor_index" JNull) 0 19) as Hout.
  { intros (z & Hz & Hrange). vm_compute in Hz. injection Hz as <-. lia. }
  split; [reflexivity|]. split; [exact Hout|].
  exact (proj1 (C8_invalid_motor_index_rejected (H := calm) kv "c1" "cmd-1" st eq_refl) Hout).
Defined.

Lemma C9_witness :
  let st := set_active_command_ids {[ "cmd-0" := stale_entry ]}
              (initial_state "server" 0%float) in
  current_clients st !! "c1" = None
  /\ send_response (H := calm) (JObj []) "c1" "cmd-0" st = (Ret tt, st)
  /\ send_error_response (H := calm) "Unknown command: x" "c1" "cmd-0" st = (Ret tt, st)
  /\ active_command_ids
       (run (H := calm) [ping_from "c1" (Some "cmd-1"); ABroadcastRound; AStop] st) !! "cmd-0"
     = Some stale_entry.
Proof.
  intros st. split; [reflexivity|].
  destruct (C9_response_to_unknown_client_dropped (H := calm)
              (JObj []) "Unknown command: x" "c1" "cmd-0" st eq_refl)
    as (Hresponse & Herror & Hstays).
  split; [exact Hresponse|]. split; [exact Herror|].
  rewrite Hstays; [vm_compute; reflexivity|]. 
  repeat (constructor; [vm_compute; reflexivity|]). constructor.
Defined.


(** * Further properties of the server *)

(** ** The dispatcher: containment and answers *)

Section DispatcherAnswers.
Context `{Env}.

Lemma send_error_response_spec msg client_id command_id st :
  send_error_response msg client_id command_id st
  = (Ret tt, after_error_response msg client_id command_id st).
Proof.
  unfold send_error_response, after_error_response, server_socket_sendto, call,
    pop_command_id, now_iso, timestamp_at, sent_with.
  unfold_monad.
  destruct (current_clients st !! client_id) as [addr|]; [|reflexivity].
  destruct (server_socket_closed st); [reflexivity|].
  destruct (answer _ _); reflexivity.
Qed.

Lemma dispatched_state_trace client_id command_id command addr st :
  trace (dispatched_state client_id command_id command addr st) = trace st.
Proof.
  unfold dispatched_state. simpl. destruct (current_clients st !! client_id); reflexivity.
Qed.

Lemma dispatched_state_socket client_id command_id command addr st :
  server_socket_closed (dispatched_state client_id command_id command addr st)
  = server_socket_closed st.
Proof.
  unfold dispatched_state. simpl. destruct (current_clients st !! client_id); reflexivity.
Qed.

Lemma dispatched_state_client client_id command_id command addr st :
  current_clients (dispatched_state client_id command_id command addr st) !! client_id
  = Some (default addr (current_clients st !! client_id)).
Proof.
  unfold dispatched_state. simpl.
  destruct (current_clients st !! client_id) as [old|] eqn:Hold; simpl.
  - exact Hold.
  - apply lookup_insert_eq.
Qed.

Lemma dispatched_state_tracker client_id command_id command addr st :
  active_command_ids (dispatched_state client_id command_id command addr st)
  = <[command_id := entry_for client_id command st]> (active_command_ids st).
Proof.
  unfold dispatched_state, entry_for. simpl.
  destruct (current_clients st !! client_id); reflexivity.
Qed.

(** [process_command] on a command object, split at the handler. *)
Lemma process_envelope fresh_uuid cd addr st :
  let cid := envelope_client_id addr cd in
  let kid := envelope_command_id fresh_uuid cd in
  let st0 := dispatched_state cid kid (cd_command cd) addr st in
  process_command fresh_uuid (Envelope cd) addr st
  = match get_handler (cd_command cd) with
    | Some h =>
        match h (default (JObj []) (cd_params cd)) cid kid st0 with
        | (Ret (Some result), st1) => (Ret tt, after_response result cid kid st1)
        | (Ret None, st1) => (Ret tt, st1)
        | (Raise e, st1) =>
            match cd_command_id cd with
            | Some c =>
                if String.eqb c "" then (Ret tt, st1)
                else (Ret tt,
                      after_error_response ("Error processing command: " +:+ exn_str e)
                        cid c st1)
            | None => (Ret tt, st1)
            end
        end
    | None =>
        (Ret tt,
         after_error_response ("Unknown command: " +:+ py_str (opt_str (cd_command cd)))
           cid kid st0)
    end.
Proof.
  intros cid kid st0. unfold process_command, dispatch.
  fold (envelope_client_id addr cd) (envelope_command_id fresh_uuid cd). fold cid kid.
  unfold try_except at 1, mbind at 1, M_bind at 1, register_client, modify at 1.
  unfold mbind at 1, M_bind at 1, track_command, modify at 1.
  fold (dispatched_state cid kid (cd_command cd) addr st). fold st0.
  destruct (get_handler (cd_command cd)) as [h|].
  - unfold mbind, M_bind.
    destruct (h _ cid kid st0) as [[[result|]|e] st1].
    + rewrite send_response_spec. reflexivity.
    + reflexivity.
    + destruct (cd_command_id cd) as [c|]; [|reflexivity].
      destruct (String.eqb c ""); [reflexivity|].
      apply send_error_response_spec.
  - rewrite send_error_response_spec. reflexivity.
Qed.

Lemma after_error_response_trace msg client_id command_id st :
  trace (after_error_response msg client_id command_id st)
  = trace st ++
    match current_clients st !! client_id with
    | Some addr =>
        if server_socket_closed st then []
        else [ESendto addr (error_envelope command_id msg (timestamp_at st))]
    | None => []
    end.
Proof.
  unfold after_error_response.
  destruct (current_clients st !! client_id) as [addr|]; [|by rewrite app_nil_r].
  destruct (server_socket_closed st); [by rewrite app_nil_r|].
  cbv zeta. destruct (answer _ _); reflexivity.
Qed.


End DispatcherAnswers.

(** X1.  Whatever the datagram, the sender, the state and the answers of
    the outside, [process_command] returns: no exception of a handler, of
    the player or of the socket leaves it. *)
Theorem X1_process_command_contains_every_exception `{Env} :
  forall fresh_uuid data addr st,
    fst (process_command fresh_uuid data addr st) = Ret tt.
Proof.
  intros fresh_uuid data addr st. destruct data as [|details|v|cd].
  - reflexivity.
  - unfold process_command, try_except.
    match goal with
    | |- fst (match ?m with _ => _ end) = _ => destruct m as [[[]|e] st1]
    end; reflexivity.
  - reflexivity.
  - rewrite process_envelope. cbv zeta.
    destruct (get_handler (cd_command cd)) as [h|]; [|reflexivity].
    destruct (h _ _ _ _) as [[[result|]|e] st1]; try reflexivity.
    destruct (cd_command_id cd) as [c|]; [|reflexivity].
    destruct (String.eqb c ""); reflexivity.
Qed.



(** X3.  A datagram that is not JSON is answered, at its source address,
    with an error envelope that carries no [command_id]; the sender is not
    registered and nothing is tracked.  A datagram that is not UTF-8, or
    that is JSON but not an object, is dropped without an answer and leaves
    the state as it was. *)
Theorem X3_malformed_datagrams `{Env} :
  forall fresh_uuid details v addr st,
    process_command fresh_uuid (InvalidJson details) addr st
    = (Ret tt,
       if server_socket_closed st then st
       else sent_with addr (invalid_json_reply details st) st)
    /\ process_command fresh_uuid Undecodable addr st = (Ret tt, st)
    /\ process_command fresh_uuid (NotAnObject v) addr st = (Ret tt, st).
Proof.
  intros fresh_uuid details v addr st. repeat split.
  unfold process_command, server_socket_sendto, call, now_iso, invalid_json_reply,
    timestamp_at, sent_with.
  unfold_monad.
  destruct (server_socket_closed st); [reflexivity|].
  destruct (answer _ _); reflexivity.
Qed.

(** X4.  When the handler of a command raises, the dispatcher answers with
    the error envelope ["Error processing command: <str(e)>"] only if the
    datagram itself carried a non-empty [command_id]; when the id was
    generated by the server, or is empty, nothing is sent and the state is
    left as the handler left it, the entry of the command included. *)
Theorem X4_handler_exception_is_answered_only_with_an_id `{Env} :
  forall fresh_uuid cd addr st h e st1,
    let cid := envelope_client_id addr cd in
    let kid := envelope_command_id fresh_uuid cd in
    get_handler (cd_command cd) = Some h ->
    h (default (JObj []) (cd_params cd)) cid kid
      (dispatched_state cid kid (cd_command cd) addr st) = (Raise e, st1) ->
    process_command fresh_uuid (Envelope cd) addr st
    = (Ret tt,
       match cd_command_id cd with
       | Some c =>
           if String.eqb c "" then st1
           else after_error_response ("Error processing command: " +:+ exn_str e) cid c st1
       | None => st1
       end).
Proof.
  intros fresh_uuid cd addr st h e st1 cid kid Hh Hraise.
  rewrite process_envelope. fold cid kid. rewrite Hh. cbv zeta. rewrite Hraise.
  destruct (cd_command_id cd) as [c|]; [|reflexivity].
  destruct (String.eqb c ""); reflexivity.
Qed.

Lemma X4_witness :
  let cd := {| cd_command := Some "ping"; cd_params := Some (JStr "hi");
               cd_command_id := Some "cmd-1"; cd_client_id := Some "c1" |} in
  let addr := ("10.0.0.1", 4000) in
  let st := initial_state "server" 0%float in
  process_command (H := calm) "0b1d7c1e" (Envelope cd) addr st
  = (Ret tt,
     after_error_response (H := calm)
       "Error processing command: 'str' object has no attribute 'get'" "c1" "cmd-1"
       (dispatched_state (H := calm) "c1" "cmd-1" (Some "ping") addr st)).
Proof.
  intros cd addr st.
  exact (X4_handler_exception_is_answered_only_with_an_id (H := calm)
           "0b1d7c1e" cd addr st handle_ping
           (AttributeError "'str' object has no attribute 'get'")
           (dispatched_state (H := calm) "c1" "cmd-1" (Some "ping") addr st)
           eq_refl eq_refl).
Defined.

Section Leaks.
Context `{Env}.

Lemma crash_leaves_entry a st :
  crashes_unanswered a = true ->
  exists client_id command addr,
    perform a st = dispatched_state client_id (generated_id a) command addr st.
Proof.
  destruct a as [fresh_uuid [| | |cd] addr| | | | |]; try discriminate.
  destruct cd as [[c|] [v|] [k|] client_id]; try discriminate.
  intros Hcrash. cbn [crashes_unanswered cd_command cd_params cd_command_id] in Hcrash.
  exists (default (address_id addr) client_id), (Some c), addr.
  cbn [perform generated_id]. rewrite process_envelope. cbv zeta.
  unfold envelope_client_id, envelope_command_id.
  cbn [cd_command cd_params cd_command_id cd_client_id default].
  apply orb_true_iff in Hcrash as [Hping|Hreg].
  - apply andb_true_iff in Hping as [Hc Hv]. apply String.eqb_eq in Hc. subst c.
    change (get_handler (Some "ping")) with (Some handle_ping).
    destruct v; try discriminate; reflexivity.
  - apply andb_true_iff in Hreg as [Hc Hv]. apply String.eqb_eq in Hc. subst c.
    change (get_handler (Some "register_event_callback"))
      with (Some handle_register_event_callback).
    destruct v as [|b|z|f|s0|l|kv]; try reflexivity.
    cbn [is_object negb orb Py.get] in Hv.
    unfold id. rewrite register_with_event_type_raises; [reflexivity | exact Hv].
Qed.

End Leaks.

(** X5.  Commands that their handler cannot finish and that carry no
    [command_id] (a ping whose [params] is not an object, a
    [register_event_callback] that names an event type) are never answered,
    and each leaves its entry behind: after any number of them, under
    generated ids that are distinct and new, the tracker has grown by one
    entry per command and not a single call to the outside has been made. *)
Theorem X5_unanswered_commands_accumulate `{Env} :
  forall actions st,
    Forall (fun a => crashes_unanswered a = true) actions ->
    NoDup (map generated_id actions) ->
    Forall (fun a => active_command_ids st !! generated_id a = None) actions ->
    size (active_command_ids (run actions st))
    = (size (active_command_ids st) + length actions)%nat
    /\ trace (run actions st) = trace st.
Proof.
  intros actions. induction actions as [|a actions IH]; intros st Hall Hdup Hnew.
  - simpl. split; [lia | reflexivity].
  - apply Forall_cons in Hall as [Ha Hall]. apply NoDup_cons in Hdup as [Hnotin Hdup].
    apply Forall_cons in Hnew as [Hnew_a Hnew].
    destruct (crash_leaves_entry a st Ha) as (client_id & command & addr & Hstep).
    unfold run in *. cbn [fold_left]. rewrite Hstep.
    set (st1 := dispatched_state client_id (generated_id a) command addr st).
    assert (active_command_ids st1
            = <[generated_id a := entry_for client_id command st]> (active_command_ids st))
      as Htracker by apply dispatched_state_tracker.
    assert (trace st1 = trace st) as Htrace by apply dispatched_state_trace.
    destruct (IH st1 Hall Hdup) as [Hsize Htr].
    { rewrite Htracker. clear IH Hall Hdup. induction Hnew as [|b actions Hb Hnew IHnew].
      - constructor.
      - constructor.
        + rewrite lookup_insert_ne; [exact Hb|].
          intros Heq. apply Hnotin. simpl. rewrite Heq. apply list_elem_of_here.
        + apply IHnew. intros Hin. apply Hnotin. simpl. by apply list_elem_of_further. }
    rewrite Hsize, Htr, Htracker, Htrace. split; [|reflexivity].
    rewrite map_size_insert_None by exact Hnew_a. simpl. lia.
Qed.

Lemma X5_witness :
  let crash := fun uuid =>
    AProcessCommand uuid
      (Envelope {| cd_command := Some "ping"; cd_params := Some (JStr "hi");
                   cd_command_id := None; cd_client_id := Some "c1" |})
      ("10.0.0.1", 4000) in
  let actions := [crash "0b1d7c1e"; crash "5a0f4c55"; crash "9d392f6c"] in
  let st := initial_state "server" 0%float in
  size (active_command_ids (run (H := calm) actions st)) = 3%nat
  /\ trace (run (H := calm) actions st) = [].
Proof.
  intros crash actions st.
  apply (X5_unanswered_commands_accumulate (H := calm) actions st).
  - repeat constructor.
  - apply (bool_decide_unpack (NoDup (map generated_id actions))). vm_compute. exact I.
  - repeat constructor.
Defined.


(** ** Event subscriptions: [unregister_event_callback] *)

Section Unregister.
Context `{Env}.

Lemma member_after_remove (c client_id : string) (callbacks : gset string) :
  bool_decide (c ∈ callbacks ∖ {[client_id]})
  = bool_decide (c ∈ callbacks) && negb (String.eqb c client_id).
Proof.
  destruct (String.eqb_spec c client_id) as [->|Hne]; simpl.
  - rewrite andb_false_r. apply bool_decide_eq_false.
    rewrite elem_of_difference, elem_of_singleton. tauto.
  - rewrite andb_true_r. apply bool_decide_ext.
    rewrite elem_of_difference, elem_of_singleton. tauto.
Qed.

Lemma unregister_all kv client_id command_id st :
  Py.truthy (field kv "event_type" JNull) = false ->
  handle_unregister_event_callback (JObj kv) client_id command_id st
  = (Ret (Some (JObj [("success", JBool true);
                      ("message", JStr "Unregistered from all events")])),
     set_event_handlers
       ((fun callbacks => callbacks ∖ {[client_id]}) <$> event_handlers st) st).
Proof.
  intros Hfalsy. unfold handle_unregister_event_callback, param, field in *.
  unfold_monad. simpl. rewrite Hfalsy. reflexivity.
Qed.

Lemma unregister_one kv client_id command_id st s :
  field kv "event_type" JNull = JStr s -> s <> "" ->
  handle_unregister_event_callback (JObj kv) client_id command_id st
  = match event_handlers st !! s with
    | Some callbacks =>
        if bool_decide (client_id ∈ callbacks) then
          (Ret (Some (JObj [("success", JBool true);
                            ("event_type", JStr s);
                            ("message", JStr ("Unregistered from " +:+ s +:+ " events"))])),
           set_event_handlers (<[s := callbacks ∖ {[client_id]}]> (event_handlers st)) st)
        else (Ret (Some (error_result ("Not registered for " +:+ s +:+ " events"))), st)
    | None => (Ret (Some (error_result ("Not registered for " +:+ s +:+ " events"))), st)
    end.
Proof.
  intros Htype Hs. apply String.eqb_neq in Hs.
  unfold handle_unregister_event_callback, subscribers_of, param, field in *.
  unfold_monad. simpl. rewrite Htype. simpl. rewrite Hs. simpl.
  destruct (event_handlers st !! s) as [callbacks|]; [|reflexivity].
  destruct (bool_decide (client_id ∈ callbacks)); reflexivity.
Qed.

End Unregister.

(** X7.  [unregister_event_callback] without an event type takes the
    client out of every subscription set and touches no other client's
    subscriptions.  With an event type the client is subscribed to, it takes
    the client out of that one set only; with an event type the client is
    not subscribed to, it returns [success: false] with
    ["Not registered for <type> events"] and changes nothing.  In no case is
    a call made to the outside. *)
Theorem X7_unregister_removes_only_the_caller `{Env} :
  forall kv client_id command_id st,
    let event_type := field kv "event_type" JNull in
    let r := handle_unregister_event_callback (JObj kv) client_id command_id st in
    trace (snd r) = trace st
    /\ (Py.truthy event_type = false ->
        fst r = Ret (Some (JObj [("success", JBool true);
                                 ("message", JStr "Unregistered from all events")]))
        /\ forall t c,
             subscribed t c (snd r)
             = subscribed t c st && negb (String.eqb c client_id))
    /\ (forall s, event_type = JStr s -> s <> "" ->
        if subscribed s client_id st then
          fst r = Ret (Some (JObj [("success", JBool true);
                                   ("event_type", JStr s);
                                   ("message",
                                    JStr ("Unregistered from " +:+ s +:+ " events"))]))
          /\ forall t c,
               subscribed t c (snd r)
               = subscribed t c st && negb (String.eqb t s && String.eqb c client_id)
        else
          r = (Ret (Some (error_result ("Not registered for " +:+ s +:+ " events"))), st)).
Proof.
  intros kv client_id command_id st event_type r. split; [|split].
  - subst r.
    assert (keeps trace (handle_unregister_event_callback (JObj kv) client_id command_id))
      as Hkeeps.
    { unfold handle_unregister_event_callback, subscribers_of, param. frame. }
    apply Hkeeps.
  - intros Hfalsy. subst r. rewrite (unregister_all _ _ _ _ Hfalsy).
    split; [reflexivity|]. intros t c. unfold subscribed. simpl.
    rewrite lookup_fmap. destruct (event_handlers st !! t) as [callbacks|]; simpl.
    + apply member_after_remove.
    + rewrite bool_decide_eq_false_2; [reflexivity | set_solver].
  - intros s Htype Hs. subst r. rewrite (unregister_one _ _ _ _ _ Htype Hs).
    unfold subscribed at 1.
    destruct (event_handlers st !! s) as [callbacks|] eqn:Hcb; simpl.
    + destruct (bool_decide (client_id ∈ callbacks)) eqn:Hin; [|reflexivity].
      split; [reflexivity|]. intros t c. unfold subscribed. simpl.
      destruct (String.eqb_spec t s) as [->|Hne]; simpl.
      * rewrite lookup_insert_eq, Hcb. simpl. apply member_after_remove.
      * rewrite lookup_insert_ne by congruence. by rewrite andb_true_r.
    + rewrite bool_decide_eq_false_2; [reflexivity | set_solver].
Qed.

Lemma X7_witness :
  let st := with_subscribers {[ "c1"; "c2" ]} in
  let r := handle_unregister_event_callback (H := calm)
             (JObj [("event_type", JStr "pattern_complete")]) "c1" "cmd-1" st in
  subscribed "pattern_complete" "c1" (snd r) = false
  /\ subscribed "pattern_complete" "c2" (snd r) = true.
Proof.
  intros st r.
  destruct (X7_unregister_removes_only_the_caller (H := calm)
              [("event_type", JStr "pattern_complete")] "c1" "cmd-1" st)
    as (_ & _ & Hone).
  specialize (Hone "pattern_complete" eq_refl ltac:(discriminate)).
  assert (subscribed "pattern_complete" "c1" st = true) as Hsub
    by (vm_compute; reflexivity).
  rewrite Hsub in Hone. destruct Hone as [_ Hrest].
  split; subst r; rewrite Hrest; vm_compute; reflexivity.
Defined.

(** ** Datagrams and other calls *)

Section Quiet.
Context `{Env}.

Lemma sent_after e st :
  sent (set_trace (trace st ++ [e]) st) = sent st ++ (if is_sendto e then [e] else []).
Proof.
  unfold sent. simpl. rewrite filter_app. f_equal.
  destruct e; reflexivity.
Qed.

Lemma keeps_sent_emit e : is_sendto e = false -> keeps sent (emit e).
Proof. intros He st. unfold emit, modify. simpl. rewrite sent_after, He. apply app_nil_r. Qed.

Lemma keeps_sent_call e : is_sendto e = false -> keeps sent (call e).
Proof. intros He st. unfold call. simpl. rewrite sent_after, He. apply app_nil_r. Qed.

Lemma carries_status_sent status sends :
  Forall (carries_status status) sends -> filter is_sendto sends = sends.
Proof.
  induction 1 as [|e sends (addr & timestamp & ->) _ IH]; [reflexivity|].
  rewrite filter_cons_True by exact I. by rewrite IH.
Qed.

End Quiet.

(** Splits a goal [keeps sent m] along the structure of the coroutine; the
    calls it accepts are the ones that are no [sendto]. *)
Ltac quiet_step :=
  first
    [ apply keeps_sent_call; reflexivity
    | apply keeps_sent_emit; reflexivity
    | apply keeps_ret | apply keeps_raise | apply keeps_lift | apply keeps_gets
    | apply keeps_now_iso
    | apply keeps_modify; intros; reflexivity
    | apply keeps_bind; [|intros ?]
    | apply keeps_try; [|intros ?]
    | apply keeps_for_each; intros ?
    | match goal with
      | |- keeps _ (if ?b then _ else _) => destruct b
      | |- keeps _ (match ?x with _ => _ end) => destruct x
      | |- keeps _ (let _ := _ in _) => cbv zeta
      end ].

Ltac quiet := repeat quiet_step.

(** ** The status broadcaster *)

Section Broadcast.
Context `{Env}.

Lemma status_step_spec status (item : string * address) st :
  try_except
    (timestamp ← now_iso;
     server_socket_sendto
       (JObj [("type", JStr "status_update");
              ("status", status);
              ("timestamp", timestamp)]) item.2)
    (fun _ =>
       modify (fun st =>
         set_current_clients (delete item.1 (current_clients st)) st)) st
  = (Ret tt, after_status_update status st item).
Proof.
  unfold after_status_update, server_socket_sendto, now_iso, call, status_update,
    timestamp_at, sent_with.
  unfold_monad.
  destruct (server_socket_closed st); [reflexivity|].
  destruct (answer _ _); reflexivity.
Qed.

Lemma status_loop_spec status items st :
  for_each (fun item : string * address =>
    try_except
      (timestamp ← now_iso;
       server_socket_sendto
         (JObj [("type", JStr "status_update");
                ("status", status);
                ("timestamp", timestamp)]) item.2)
      (fun _ =>
         modify (fun st =>
           set_current_clients (delete item.1 (current_clients st)) st)))
    items st
  = (Ret tt, foldl (after_status_update status) st items).
Proof.
  revert st. induction items as [|item items IH]; intros st; [reflexivity|].
  cbn [for_each foldl]. unfold mbind, M_bind at 1.
  rewrite status_step_spec. apply IH.
Qed.

Lemma get_status_data_keeps {B} (f : state -> B) :
  (forall t st, f (set_trace t st) = f st) -> keeps f get_status_data.
Proof.
  intros Htrace. unfold get_status_data, device_statuses, is_device_connected.
  repeat first [apply keeps_call; [exact Htrace] | frame_step].
Qed.

(** One round, split at the status query. *)
Lemma broadcast_round_spec st :
  broadcast_round st
  = (Ret tt,
     if bool_decide (current_clients st = ∅) then st
     else
       match get_status_data st with
       | (Ret status, st1) =>
           foldl (after_status_update status) st1 (map_to_list (current_clients st))
       | (Raise _, st1) => st1
       end).
Proof.
  unfold broadcast_round.
  unfold try_except at 1. unfold mbind, M_bind at 1. unfold gets at 1.
  destruct (bool_decide (current_clients st = ∅)); [reflexivity|].
  unfold mbind, M_bind at 1.
  pose proof (get_status_data_keeps current_clients (fun _ _ => eq_refl) st) as Hclients.
  destruct (get_status_data st) as [[status|e] st1]; [|reflexivity].
  simpl in Hclients. unfold mbind, M_bind at 1. unfold gets at 1.
  rewrite status_loop_spec, Hclients. reflexivity.
Qed.

Lemma get_status_data_quiet : keeps sent get_status_data.
Proof. unfold get_status_data, device_statuses, is_device_connected. quiet. Qed.

Lemma after_status_update_other {B} (f : state -> B) status st item :
  (forall t st, f (set_trace t st) = f st) ->
  (forall x st, f (set_current_clients x st) = f st) ->
  f (after_status_update status st item) = f st.
Proof.
  intros Htrace Hclients. unfold after_status_update, sent_with.
  destruct (server_socket_closed st); [apply Hclients|].
  cbv zeta. destruct (answer _ _); [apply Htrace|].
  rewrite Hclients. apply Htrace.
Qed.

Lemma status_loop_other {B} (f : state -> B) status items st :
  (forall t st, f (set_trace t st) = f st) ->
  (forall x st, f (set_current_clients x st) = f st) ->
  f (foldl (after_status_update status) st items) = f st.
Proof.
  intros Htrace Hclients. revert st.
  induction items as [|item items IH]; intros st; [reflexivity|].
  cbn [foldl]. rewrite IH. by apply after_status_update_other.
Qed.

Lemma status_loop_shrinks status items st :
  current_clients (foldl (after_status_update status) st items) ⊆ current_clients st.
Proof.
  revert st. induction items as [|item items IH]; intros st; [reflexivity|].
  cbn [foldl]. etrans; [apply IH|].
  unfold after_status_update, sent_with.
  destruct (server_socket_closed st); [apply delete_subseteq|].
  cbv zeta. destruct (answer _ _); [reflexivity | apply delete_subseteq].
Qed.

(** With the socket closed every iteration evicts its client. *)
Lemma status_loop_closed status items st :
  server_socket_closed st = true ->
  trace (foldl (after_status_update status) st items) = trace st
  /\ forall client_id,
       client_id ∈ items.*1 ->
       current_clients (foldl (after_status_update status) st items) !! client_id = None.
Proof.
  revert st. induction items as [|item items IH]; intros st Hclosed.
  - split; [reflexivity|]. intros client_id Hin. by apply elem_of_nil in Hin.
  - cbn [foldl].
    assert (after_status_update status st item
            = set_current_clients (delete item.1 (current_clients st)) st) as Hstep.
    { unfold after_status_update. by rewrite Hclosed. }
    rewrite Hstep.
    destruct (IH (set_current_clients (delete item.1 (current_clients st)) st) Hclosed)
      as [Htrace Hgone].
    split; [exact Htrace|]. intros client_id Hin.
    rewrite fmap_cons in Hin. apply elem_of_cons in Hin as [->|Hin]; [|by apply Hgone].
    eapply lookup_weaken_None; [|apply status_loop_shrinks].
    simpl. apply lookup_delete_eq.
Qed.

(** With an open socket and a [sendto] that returns, every iteration hands
    one datagram to the socket and evicts nobody. *)
Lemma status_loop_reliable status items st :
  reliable -> server_socket_closed st = false ->
  current_clients (foldl (after_status_update status) st items) = current_clients st
  /\ exists sends,
       trace (foldl (after_status_update status) st items) = trace st ++ sends
       /\ Forall (carries_status status) sends
       /\ omap datagram_target sends = items.*2.
Proof.
  intros Hreliable. revert st. induction items as [|item items IH]; intros st Hopen.
  - split; [reflexivity|]. exists []. rewrite app_nil_r. repeat split. constructor.
  - cbn [foldl].
    set (payload := status_update status (timestamp_at st)).
    assert (after_status_update status st item = sent_with item.2 payload st) as Hstep.
    { unfold after_status_update. rewrite Hopen. cbv zeta. fold payload.
      destruct (Hreliable (trace st) item.2 payload) as [v ->]. reflexivity. }
    rewrite Hstep.
    destruct (IH (sent_with item.2 payload st) Hopen) as (Hclients & sends & Htrace & Hall & Htargets).
    split; [exact Hclients|].
    exists (ESendto item.2 payload :: sends). split; [|split].
    + rewrite Htrace. unfold sent_with. simpl. by rewrite <- app_assoc.
    + constructor; [|exact Hall]. by exists item.2, (timestamp_at st).
    + simpl. f_equal. exact Htargets.
Qed.

End Broadcast.

(** X8.  A round of [broadcast_status_updates] never raises, whatever the
    player and the socket answer.  It can only take clients out of the
    Client Registry, never add or change one, and it leaves the tracker, the
    subscription sets, the run flag and the sockets as they were: a client
    evicted by a failed send keeps its subscriptions. *)
Theorem X8_broadcast_round_only_evicts `{Env} :
  forall st,
    let st' := snd (broadcast_round st) in
    fst (broadcast_round st) = Ret tt
    /\ current_clients st' ⊆ current_clients st
    /\ active_command_ids st' = active_command_ids st
    /\ event_handlers st' = event_handlers st
    /\ running st' = running st
    /\ server_socket_closed st' = server_socket_closed st.
Proof.
  intros st st'. subst st'. rewrite broadcast_round_spec. cbn [fst snd].
  split; [reflexivity|].
  destruct (bool_decide (current_clients st = ∅)); [by repeat split|].
  pose proof (get_status_data_keeps current_clients (fun _ _ => eq_refl) st) as Hclients.
  pose proof (get_status_data_keeps active_command_ids (fun _ _ => eq_refl) st) as Hids.
  pose proof (get_status_data_keeps event_handlers (fun _ _ => eq_refl) st) as Hevents.
  pose proof (get_status_data_keeps running (fun _ _ => eq_refl) st) as Hrunning.
  pose proof (get_status_data_keeps server_socket_closed (fun _ _ => eq_refl) st) as Hsocket.
  destruct (get_status_data st) as [[status|e] st1]; simpl in *.
  - rewrite <- Hclients, <- Hids, <- Hevents, <- Hrunning, <- Hsocket.
    split; [apply status_loop_shrinks|].
    repeat split; by apply status_loop_other.
  - rewrite Hclients. by repeat split.
Qed.

(** X9.  When the status can be gathered, the socket is open and [sendto]
    returns, a round hands the socket exactly one datagram per registered
    client, each addressed to that client's registered address and each
    carrying the status gathered at the start of the round, and evicts
    nobody. *)
Theorem X9_broadcast_reaches_every_client `{Env} :
  forall st status st1,
    reliable ->
    server_socket_closed st = false ->
    get_status_data st = (Ret status, st1) ->
    let st' := snd (broadcast_round st) in
    current_clients st' = current_clients st
    /\ exists sends,
         sent st' = sent st ++ sends
         /\ Forall (carries_status status) sends
         /\ omap datagram_target sends ≡ₚ (map_to_list (current_clients st)).*2.
Proof.
  intros st status st1 Hreliable Hopen Hstatus st'. subst st'.
  rewrite broadcast_round_spec. cbn [snd].
  pose proof (get_status_data_keeps current_clients (fun _ _ => eq_refl) st) as Hclients.
  pose proof (get_status_data_keeps server_socket_closed (fun _ _ => eq_refl) st) as Hsocket.
  pose proof (get_status_data_quiet st) as Hquiet.
  rewrite Hstatus in *. simpl in Hclients, Hsocket, Hquiet.
  case_bool_decide as Hempty.
  - split; [reflexivity|]. exists [].
    rewrite Hempty, map_to_list_empty, app_nil_r.
    split; [reflexivity|]. split; [constructor | reflexivity].
  - rewrite Hopen in Hsocket.
    destruct (status_loop_reliable status (map_to_list (current_clients st)) st1
                Hreliable Hsocket) as (Hsame & sends & Htrace & Hall & Htargets).
    split; [by rewrite Hsame|].
    exists sends. split; [|split; [exact Hall | by rewrite Htargets]].
    unfold sent at 1. rewrite Htrace, filter_app. fold (sent st1).
    by rewrite Hquiet, (carries_status_sent status).
Qed.

Lemma X9_witness :
  let st := set_current_clients two_clients (initial_state "server" 0%float) in
  let status := match fst (get_status_data (H := calm) st) with
                | Ret status => status
                | Raise _ => JNull
                end in
  let st' := snd (broadcast_round (H := calm) st) in
  current_clients st' = current_clients st
  /\ exists sends,
       sent st' = sent st ++ sends
       /\ Forall (carries_status status) sends
       /\ omap datagram_target sends ≡ₚ (map_to_list (current_clients st)).*2.
Proof.
  intros st status.
  exact (X9_broadcast_reaches_every_client (H := calm) st status
           (snd (get_status_data (H := calm) st)) calm_is_reliable eq_refl eq_refl).
Defined.

(** X10.  When the status can be gathered but the command socket is
    closed, a round evicts every client: each send fails before anything
    leaves, and the Client Registry ends up empty without a datagram having
    been handed to the socket. *)
Theorem X10_broadcast_on_a_closed_socket_evicts_everyone `{Env} :
  forall st status st1,
    server_socket_closed st = true ->
    get_status_data st = (Ret status, st1) ->
    let st' := snd (broadcast_round st) in
    current_clients st' = ∅ /\ sent st' = sent st.
Proof.
  intros st status st1 Hclosed Hstatus st'. subst st'.
  rewrite broadcast_round_spec. cbn [snd].
  pose proof (get_status_data_keeps current_clients (fun _ _ => eq_refl) st) as Hclients.
  pose proof (get_status_data_keeps server_socket_closed (fun _ _ => eq_refl) st) as Hsocket.
  pose proof (get_status_data_quiet st) as Hquiet.
  rewrite Hstatus in *. simpl in Hclients, Hsocket, Hquiet.
  case_bool_decide as Hempty; [by split|].
  rewrite Hclosed in Hsocket.
  destruct (status_loop_closed status (map_to_list (current_clients st)) st1 Hsocket)
    as [Htrace Hgone].
  split.
  - apply map_empty. intros client_id.
    destruct (current_clients st !! client_id) as [addr|] eqn:Hknown.
    + apply Hgone. apply list_elem_of_fmap. exists (client_id, addr).
      split; [reflexivity|]. by apply elem_of_map_to_list.
    + eapply lookup_weaken_None; [|apply status_loop_shrinks]. by rewrite Hclients.
  - unfold sent at 1. rewrite Htrace. exact Hquiet.
Qed.

Lemma X10_witness :
  let st := set_server_socket_closed true
              (set_current_clients two_clients (initial_state "server" 0%float)) in
  let st' := snd (broadcast_round (H := calm) st) in
  current_clients st' = ∅ /\ sent st' = sent st.
Proof.
  intros st.
  exact (X10_broadcast_on_a_closed_socket_evicts_everyone (H := calm) st
           (match fst (get_status_data (H := calm) st) with
            | Ret status => status
            | Raise _ => JNull
            end)
           (snd (get_status_data (H := calm) st)) eq_refl eq_refl).
Defined.

(** ** How many datagrams a command costs *)

Section QuietHandlers.
Context `{Env}.

Lemma activate_glove_motor_quiet glove motor_index intensity duration_ms :
  keeps sent (activate_glove_motor glove motor_index intensity duration_ms).
Proof. unfold activate_glove_motor. quiet. Qed.

Ltac quiet_handler :=
  right; intros params client_id command_id; simpl;
  repeat first [ apply activate_glove_motor_quiet | quiet_step ].

(** Every handler but [handle_shutdown] leaves the sending to the
    dispatcher. *)
Lemma command_handlers_quiet :
  Forall (fun entry : string * handler =>
            entry.2 = handle_shutdown
            \/ forall params client_id command_id,
                 keeps sent (entry.2 params client_id command_id))
    command_handlers.
Proof.
  unfold command_handlers. repeat (apply List.Forall_cons); [..|constructor].
  - unfold handle_ping, param. quiet_handler.
  - unfold handle_get_status, get_status_data, device_statuses, is_device_connected.
    quiet_handler.
  - unfold handle_get_device_status, device_statuses, is_device_connected, param.
    quiet_handler.
  - unfold handle_register_event_callback, load_global, param. quiet_handler.
  - unfold handle_unregister_event_callback, subscribers_of, param. quiet_handler.
  - left. reflexivity.
  - unfold handle_activate_discrete, param. quiet_handler.
  - unfold handle_activate_funnelling, param. quiet_handler.
  - unfold handle_activate_glove_motor, param. quiet_handler.
  - unfold handle_play_pattern, param. quiet_handler.
  - unfold handle_stop_pattern, param. quiet_handler.
  - unfold handle_is_pattern_playing, param. quiet_handler.
  - unfold handle_play_wave_pattern. quiet_handler.
  - unfold handle_play_alternating_pattern. quiet_handler.
  - unfold handle_play_custom_pattern, param. quiet_handler.
  - unfold handle_submit_dot, param. quiet_handler.
  - unfold handle_submit_path, param. quiet_handler.
  - unfold handle_register_tact_file, param. quiet_handler.
  - unfold handle_submit_registered, param. quiet_handler.
Qed.

Lemma get_handler_quiet command h :
  get_handler command = Some h ->
  h = handle_shutdown
  \/ forall params client_id command_id, keeps sent (h params client_id command_id).
Proof.
  destruct command as [c|]; [|discriminate]. unfold get_handler.
  pose proof command_handlers_quiet as Hall. revert Hall.
  generalize command_handlers. intros table Hall.
  induction Hall as [|[name h'] rest Hh _ IH]; simpl; [discriminate|].
  destruct (String.eqb c name); [|exact IH].
  intros [= <-]. exact Hh.
Qed.

Lemma send_response_keeps_socket result client_id command_id :
  keeps server_socket_closed (send_response result client_id command_id).
Proof. unfold send_response, pop_command_id. frame. Qed.

Lemma send_error_response_keeps_socket msg client_id command_id :
  keeps server_socket_closed (send_error_response msg client_id command_id).
Proof. unfold send_error_response, pop_command_id. frame. Qed.

Lemma process_command_keeps_socket fresh_uuid data addr :
  keeps server_socket_closed (process_command fresh_uuid data addr).
Proof.
  destruct data as [|details|v|cd]; unfold process_command.
  - apply keeps_ret.
  - frame.
  - apply keeps_ret.
  - intros st. unfold dispatch, register_client.
    rewrite (try_modify_then server_socket_closed).
    + destruct (current_clients st !! _); reflexivity.
    + apply keeps_bind; [unfold track_command; frame|]. intros _.
      apply dispatched_keeps; intros; try reflexivity.
      * apply send_response_keeps_socket.
      * apply send_error_response_keeps_socket.
    + intros e. destruct (cd_command_id cd) as [c|]; [|apply keeps_ret].
      destruct (String.eqb c ""); [apply keeps_ret|].
      apply send_error_response_keeps_socket.
Qed.

(** *** At most one answer *)

Lemma nothing_sent target st st' :
  sent st' = sent st -> answers_at_most_once target st st'.
Proof.
  intros Hsent. exists []. rewrite app_nil_r. repeat split; [exact Hsent | simpl; lia |].
  constructor.
Qed.

Lemma one_answer target payload st :
  server_socket_closed st = false ->
  answers_at_most_once target st (sent_with target payload st).
Proof.
  intros Hopen. exists [ESendto target payload].
  split; [apply (sent_after (ESendto target payload))|].
  split; [simpl; lia|]. split; [by repeat constructor|].
  intros Hclosed. congruence.
Qed.

Lemma answers_after target st st1 st2 :
  sent st1 = sent st -> server_socket_closed st1 = server_socket_closed st ->
  answers_at_most_once target st1 st2 -> answers_at_most_once target st st2.
Proof.
  intros Hsent Hsocket (l & Hl & Hlen & Hto & Hclosed).
  exists l. rewrite <- Hsent, <- Hsocket. by repeat split.
Qed.

Lemma answers_then target st st1 st2 :
  answers_at_most_once target st st1 -> sent st2 = sent st1 ->
  answers_at_most_once target st st2.
Proof.
  intros (l & Hl & Hrest) Hsent. exists l. by rewrite Hsent.
Qed.

Lemma after_response_answers target result client_id command_id st :
  current_clients st !! client_id = Some target ->
  answers_at_most_once target st (after_response result client_id command_id st).
Proof.
  intros Hknown. unfold after_response. rewrite Hknown.
  destruct (server_socket_closed st) eqn:Hsocket; [by apply nothing_sent|].
  cbv zeta. destruct (answer _ _).
  - eapply answers_then; [by apply one_answer | reflexivity].
  - by apply one_answer.
Qed.

Lemma after_error_response_answers target msg client_id command_id st :
  current_clients st !! client_id = Some target ->
  answers_at_most_once target st (after_error_response msg client_id command_id st).
Proof.
  intros Hknown. unfold after_error_response. rewrite Hknown.
  destruct (server_socket_closed st) eqn:Hsocket; [by apply nothing_sent|].
  cbv zeta. destruct (answer _ _).
  - eapply answers_then; [by apply one_answer | reflexivity].
  - by apply one_answer.
Qed.

(** [handle_shutdown] either fails before it has done anything, or answers
    once and returns [None]. *)
Lemma handle_shutdown_answers target params client_id command_id st :
  current_clients st !! client_id = Some target ->
  (exists e, handle_shutdown params client_id command_id st = (Raise e, st))
  \/ (fst (handle_shutdown params client_id command_id st) = Ret None
      /\ answers_at_most_once target st
           (snd (handle_shutdown params client_id command_id st))).
Proof.
  intros Hknown. destruct params as [|b|z|f|s|l|kv];
    try (left; eexists; reflexivity).
  right. rewrite handle_shutdown_spec. cbv zeta. cbn [fst snd].
  split; [reflexivity|].
  eapply answers_then; [by apply after_response_answers|].
  unfold after_initiate_shutdown. destruct (Py.truthy _); [|reflexivity].
  rewrite (sent_after ECallSoonOsExit). apply app_nil_r.
Qed.

Lemma process_command_answers fresh_uuid data addr st :
  answers_at_most_once (answer_address data addr st) st
    (snd (process_command fresh_uuid data addr st)).
Proof.
  destruct data as [|details|v|cd]; cbn [answer_address].
  - by apply nothing_sent.
  - unfold process_command, server_socket_sendto, call, now_iso. unfold_monad.
    destruct (server_socket_closed st) eqn:Hsocket; [by apply nothing_sent|].
    destruct (answer _ _); by apply one_answer.
  - by apply nothing_sent.
  - rewrite process_envelope. cbv zeta.
    set (cid := envelope_client_id addr cd).
    set (kid := envelope_command_id fresh_uuid cd).
    set (st0 := dispatched_state cid kid (cd_command cd) addr st).
    set (target := default addr (current_clients st !! cid)).
    assert (current_clients st0 !! cid = Some target) as Hknown
      by apply dispatched_state_client.
    assert (sent st0 = sent st) as Hsent0
      by (unfold sent, st0; by rewrite dispatched_state_trace).
    assert (server_socket_closed st0 = server_socket_closed st) as Hsocket0
      by apply dispatched_state_socket.
    apply (answers_after target st st0); [exact Hsent0 | exact Hsocket0 |].
    clearbody st0. clear Hsent0 Hsocket0.
    destruct (get_handler (cd_command cd)) as [h|] eqn:Hh;
      [|by apply after_error_response_answers].
    destruct (get_handler_quiet _ _ Hh) as [->|Hquiet].
    + destruct (handle_shutdown_answers target (default (JObj []) (cd_params cd))
                  cid kid st0 Hknown) as [[e Hraise]|[Hret Hanswers]].
      * rewrite Hraise. destruct (cd_command_id cd) as [c|]; [|by apply nothing_sent].
        destruct (String.eqb c ""); [by apply nothing_sent|].
        by apply after_error_response_answers.
      * destruct (handle_shutdown _ _ _ st0) as [[[result|]|e] st1];
          try discriminate. exact Hanswers.
    + pose proof (Hquiet (default (JObj []) (cd_params cd)) cid kid st0) as Hsent.
      pose proof (get_handler_frames current_clients
                    (fun _ _ => eq_refl) (fun _ _ => eq_refl) (fun _ _ => eq_refl)
                    _ _ Hh (default (JObj []) (cd_params cd)) cid kid
                    (fun result => send_response_keeps_clients result cid kid) st0)
        as Hclients.
      pose proof (get_handler_frames server_socket_closed
                    (fun _ _ => eq_refl) (fun _ _ => eq_refl) (fun _ _ => eq_refl)
                    _ _ Hh (default (JObj []) (cd_params cd)) cid kid
                    (fun result => send_response_keeps_socket result cid kid) st0)
        as Hsocket.
      destruct (h _ _ _ st0) as [[[result|]|e] st1]; simpl in Hsent, Hclients, Hsocket;
        apply (answers_after target st0 st1); try assumption.
      * apply after_response_answers. by rewrite Hclients.
      * by apply nothing_sent.
      * destruct (cd_command_id cd) as [c|]; [|by apply nothing_sent].
        destruct (String.eqb c ""); [by apply nothing_sent|].
        apply after_error_response_answers. by rewrite Hclients.
Qed.

End QuietHandlers.

(** X11.  Processing one datagram hands the socket at most one datagram,
    whatever the command and however its handler ends; that datagram goes to
    the address the command's client is registered with (for a datagram
    that is not JSON, to its source address), and with a closed socket
    there is none. *)
Theorem X11_at_most_one_datagram_per_command `{Env} :
  forall fresh_uuid data addr st,
    let st' := snd (process_command fresh_uuid data addr st) in
    exists l,
      sent st' = sent st ++ l
      /\ (length l <= 1)%nat
      /\ Forall (fun e => datagram_target e = Some (answer_address data addr st)) l
      /\ (server_socket_closed st = true -> l = []).
Proof.
  intros fresh_uuid data addr st. apply process_command_answers.
Qed.

(** ** After the socket has been closed *)

Section Silence.
Context `{Env}.

Lemma keeps_then_preserves {A B} (f : state -> B) (P : B -> Prop) (m : M A) :
  keeps f m -> preserves (fun st => P (f st)) m.
Proof. intros Hkeeps st HP. by rewrite Hkeeps. Qed.

Lemma send_event_to_closed event_type data clients st :
  server_socket_closed st = true ->
  send_event_to event_type data clients st = (Ret tt, st).
Proof.
  intros Hclosed. induction clients as [|client_id rest IH]; [reflexivity|].
  cbn [send_event_to]. unfold server_socket_sendto, now_iso. unfold_monad.
  destruct (current_clients st !! client_id) as [addr|]; [|exact IH].
  rewrite Hclosed. exact IH.
Qed.

Lemma send_event_closed event_type data target st :
  server_socket_closed st = true ->
  _send_event event_type data target st = (Ret tt, st).
Proof.
  intros Hclosed. unfold _send_event. unfold mbind, M_bind, gets.
  by apply send_event_to_closed.
Qed.

Lemma activate_motor_array_quiet step duration_ms :
  keeps sent (activate_motor_array step duration_ms).
Proof. unfold activate_motor_array, activate_panel. quiet. Qed.

Lemma stop_quiet : keeps sent stop.
Proof.
  unfold stop, cleanup_haptics, gloves_cleanup, pattern_player_cleanup,
    array_example_cleanup.
  quiet.
Qed.

Lemma stop_leaves_closed :
  preserves (fun st => server_socket_closed st = true) stop.
Proof.
  unfold stop. apply preserves_bind.
  { apply (keeps_then_preserves server_socket_closed (fun b => b = true)). frame. }
  intros [|].
  { apply (keeps_then_preserves server_socket_closed (fun b => b = true)). frame. }
  apply preserves_bind.
  { apply (keeps_then_preserves server_socket_closed (fun b => b = true)). frame. }
  intros _. apply preserves_bind; [intros st _; reflexivity|].
  intros _. apply (keeps_then_preserves server_socket_closed (fun b => b = true)).
  unfold cleanup_haptics, gloves_cleanup, pattern_player_cleanup, array_example_cleanup.
  frame.
Qed.

Lemma broadcast_round_silent l : preserves (silent l) broadcast_round.
Proof.
  intros st [Hclosed Hsent]. rewrite broadcast_round_spec. cbn [snd].
  destruct (bool_decide (current_clients st = ∅)); [by split|].
  pose proof (get_status_data_keeps server_socket_closed (fun _ _ => eq_refl) st) as Hsocket.
  pose proof (get_status_data_quiet st) as Hquiet.
  destruct (get_status_data st) as [[status|e] st1]; simpl in Hsocket, Hquiet.
  - rewrite Hclosed in Hsocket.
    destruct (status_loop_closed status (map_to_list (current_clients st)) st1 Hsocket)
      as [Htrace _].
    split.
    + rewrite (status_loop_other server_socket_closed) by reflexivity. exact Hsocket.
    + unfold sent at 1. rewrite Htrace. fold (sent st1). by rewrite Hquiet.
  - split; congruence.
Qed.

Lemma play_pattern_async_silent l pattern_file key client_id command_id :
  preserves (silent l) (_play_pattern_async pattern_file key client_id command_id).
Proof.
  intros st [Hclosed Hsent]. unfold _play_pattern_async.
  rewrite (task_sends_once load_and_play_tact_file).
  pose proof (keeps_sent_call ELoadAndPlayTactFile eq_refl st) as Hquiet.
  unfold load_and_play_tact_file, call in *. unfold_monad. simpl in Hquiet.
  destruct (answer (trace st) ELoadAndPlayTactFile);
    (rewrite send_event_closed by exact Hclosed); cbn [snd]; split;
    solve [exact Hclosed | by rewrite Hquiet].
Qed.

Lemma perform_silent l a : forall st, silent l st -> silent l (perform a st).
Proof.
  destruct a; cbn [perform]; intros st [Hclosed Hsent].
  - destruct (process_command_answers fresh_uuid data addr st)
      as (datagrams & Hdatagrams & _ & _ & Hnone).
    split; [by rewrite process_command_keeps_socket|].
    rewrite Hdatagrams, (Hnone Hclosed). by rewrite app_nil_r.
  - by apply broadcast_round_silent.
  - split.
    + by rewrite (activate_motor_array_keeps server_socket_closed).
    + by rewrite activate_motor_array_quiet.
  - by rewrite send_event_closed.
  - by apply play_pattern_async_silent.
  - split; [by apply stop_leaves_closed | by rewrite stop_quiet].
Qed.

End Silence.

(** X12.  Once the command socket is closed it stays closed, and nothing is
    handed to it any more: whatever commands arrive, whatever rounds the
    broadcaster makes and whatever events the playback tasks end with, the
    list of datagrams sent stays as it was. *)
Theorem X12_nothing_is_sent_once_the_socket_is_closed `{Env} :
  forall actions st,
    server_socket_closed st = true ->
    sent (run actions st) = sent st
    /\ server_socket_closed (run actions st) = true.
Proof.
  intros actions st Hclosed.
  assert (silent (sent st) (run actions st)) as [Hsocket Hsent].
  { assert (silent (sent st) st) as Hsilent by (by split).
    revert Hsilent. generalize (sent st). intros l. revert st Hclosed.
    induction actions as [|a actions IH]; intros st Hclosed Hsilent; [exact Hsilent|].
    unfold run in *. cbn [fold_left].
    pose proof (perform_silent l a st Hsilent) as Hnext.
    apply IH; [apply Hnext | exact Hnext]. }
  by split.
Qed.

Lemma X12_witness :
  let st := snd (stop (H := calm)
                   (set_current_clients two_clients (initial_state "server" 0%float))) in
  let actions := [ping_from "c1" (Some "cmd-1"); ABroadcastRound;
                  ASendEvent "pattern_complete" (JObj []) "c1"; AStop;
                  ping_from "c2" None] in
  sent (run (H := calm) actions st) = []
  /\ server_socket_closed (run (H := calm) actions st) = true.
Proof.
  intros st actions.
  exact (X12_nothing_is_sent_once_the_socket_is_closed (H := calm) actions st eq_refl).
Defined.

(** ** Failures of the player *)

Section PlayerFailures.
Context `{Env}.

Lemma between_when_accepted v lo hi :
  Py.not_int_between v lo hi = false -> Py.between lo v hi = Ret true.
Proof.
  unfold Py.not_int_between, Py.between.
  destruct v as [|b|z|f|s|l|kv]; try discriminate; simpl;
    intros [Hlo Hhi]%negb_false_iff%andb_true_iff; by rewrite Hlo, Hhi.
Qed.

Lemma positive_when_accepted v :
  Py.not_positive_int v = false -> Py.le_lit v 0 = Ret false.
Proof.
  unfold Py.not_positive_int.
  destruct v as [|b|z|f|s|l|kv]; try discriminate; simpl; by intros ->.
Qed.

Lemma valid_glove_cases glove :
  valid_glove glove = true ->
  glove = JStr "left" /\ Py.is_str glove "left" = true
  \/ glove = JStr "right" /\ Py.is_str glove "left" = false.
Proof.
  unfold valid_glove. destruct glove as [|b|z|f|s|l|kv]; try discriminate. simpl.
  intros [Hs%String.eqb_eq|Hs%String.eqb_eq]%orb_true_iff; subst s;
    [left | right]; by split.
Qed.

(** The module's function, once the handler has checked its arguments. *)
Lemma activate_glove_motor_checked glove motor_index intensity duration_ms st :
  valid_glove glove = true ->
  Py.not_int_between motor_index 0 5 = false ->
  Py.not_int_between intensity 0 100 = false ->
  Py.not_positive_int duration_ms = false ->
  let submit :=
    glove_submit_dot (Py.is_str glove "left") motor_index intensity duration_ms in
  activate_glove_motor glove motor_index intensity duration_ms st
  = (Ret match answer (trace st) submit with Ret _ => true | Raise _ => false end,
     called submit st).
Proof.
  intros Hglove Hmotor Hintensity Hduration submit. subst submit.
  unfold activate_glove_motor, call, called, glove_submit_dot.
  rewrite (between_when_accepted _ _ _ Hmotor), (between_when_accepted _ _ _ Hintensity),
    (positive_when_accepted _ Hduration).
  destruct (valid_glove_cases glove Hglove) as [[-> ->]|[-> ->]];
    unfold_monad; simpl; destruct (answer _ _); reflexivity.
Qed.

Lemma glove_accepted kv client_id command_id st :
  let glove := field kv "glove" JNull in
  let motor_index := field kv "motor_index" JNull in
  let intensity := field kv "intensity" (JInt 100) in
  let duration_ms := field kv "duration_ms" (JInt 500) in
  let submit :=
    glove_submit_dot (Py.is_str glove "left") motor_index intensity duration_ms in
  valid_glove glove = true ->
  Py.not_int_between motor_index 0 5 = false ->
  Py.not_int_between intensity 0 100 = false ->
  Py.not_positive_int duration_ms = false ->
  handle_activate_glove_motor (JObj kv) client_id command_id st
  = (Ret (Some match answer (trace st) submit with
               | Ret _ => JObj [("success", JBool true);
                                ("glove", glove);
                                ("motor_index", motor_index);
                                ("intensity", intensity);
                                ("duration_ms", duration_ms)]
               | Raise _ => error_result "Failed to activate glove motor"
               end),
     called submit st).
Proof.
  intros glove motor_index intensity duration_ms submit Hglove Hmotor Hintensity Hduration.
  unfold handle_activate_glove_motor, param. unfold mbind, M_bind, lift. simpl Py.get.
  fold (field kv "glove" JNull) (field kv "motor_index" JNull)
    (field kv "intensity" (JInt 100)) (field kv "duration_ms" (JInt 500)).
  fold glove motor_index intensity duration_ms. cbv beta iota.
  rewrite Hglove, Hmotor, Hintensity, Hduration. cbn [negb].
  rewrite (activate_glove_motor_checked glove motor_index intensity duration_ms st
             Hglove Hmotor Hintensity Hduration).
  fold submit. destruct (answer (trace st) submit); reflexivity.
Qed.

Lemma glove_reports kv client_id command_id st :
  reports (fst (handle_activate_glove_motor (JObj kv) client_id command_id st)).
Proof.
  destruct (valid_glove (field kv "glove" JNull)) eqn:Hglove;
    [destruct (Py.not_int_between (field kv "motor_index" JNull) 0 5) eqn:Hmotor;
     [|destruct (Py.not_int_between (field kv "intensity" (JInt 100)) 0 100) eqn:Hintensity;
       [|destruct (Py.not_positive_int (field kv "duration_ms" (JInt 500))) eqn:Hduration]]|].
  1-3, 5:
    unfold handle_activate_glove_motor, param, field in *; unfold_monad; simpl;
    rewrite ?Hglove, ?Hmotor, ?Hintensity, ?Hduration; simpl;
    by eexists _, _.
  rewrite (glove_accepted kv client_id command_id st Hglove Hmotor Hintensity Hduration).
  cbn [fst]. destruct (answer _ _); by eexists _, _.
Qed.

Ltac report :=
  unfold_monad; simpl;
  repeat match goal with
         | |- context [if ?b then _ else _] => destruct b; simpl
         end;
  unfold call; simpl; case_answers; try by eexists _, _.

Lemma submit_dot_reports kv client_id command_id st :
  reports (fst (handle_submit_dot (JObj kv) client_id command_id st)).
Proof. unfold handle_submit_dot. report. Qed.

Lemma submit_path_reports kv client_id command_id st :
  reports (fst (handle_submit_path (JObj kv) client_id command_id st)).
Proof. unfold handle_submit_path. report. Qed.

Lemma submit_registered_reports kv client_id command_id st :
  reports (fst (handle_submit_registered (JObj kv) client_id command_id st)).
Proof. unfold handle_submit_registered. report. Qed.

(** [handle_activate_discrete] passes a failure of the adapter on. *)
Lemma discrete_raises kv client_id command_id st e :
  let panel := field kv "panel" JNull in
  let motor_index := field kv "motor_index" JNull in
  let intensity := field kv "intensity" (JInt 100) in
  let duration_ms := field kv "duration_ms" (JInt 500) in
  let activate := EHmcActivateDiscrete panel motor_index intensity duration_ms in
  valid_panel panel = true ->
  Py.not_int_between motor_index 0 19 = false ->
  Py.not_int_between intensity 0 100 = false ->
  Py.not_positive_int duration_ms = false ->
  answer (trace st) activate = Raise e ->
  handle_activate_discrete (JObj kv) client_id command_id st
  = (Raise e, called activate st).
Proof.
  intros panel motor_index intensity duration_ms activate Hp Hm Hi Hd Hraise.
  unfold handle_activate_discrete, call, called. unfold_monad. simpl.
  fold (field kv "panel" JNull) (field kv "motor_index" JNull)
    (field kv "intensity" (JInt 100)) (field kv "duration_ms" (JInt 500)).
  fold panel motor_index intensity duration_ms. fold activate.
  rewrite Hp, Hm, Hi, Hd. simpl. by rewrite Hraise.
Qed.

End PlayerFailures.

(** X13.  The handlers that call the player inside [try] never raise when
    [params] is an object: [submit_dot], [submit_path], [submit_registered]
    and [activate_glove_motor] always return a result dict with a boolean
    [success], whatever the parameters are and whatever the player does. *)
Theorem X13_player_failures_become_results `{Env} :
  forall kv client_id command_id st,
    reports (fst (handle_submit_dot (JObj kv) client_id command_id st))
    /\ reports (fst (handle_submit_path (JObj kv) client_id command_id st))
    /\ reports (fst (handle_submit_registered (JObj kv) client_id command_id st))
    /\ reports (fst (handle_activate_glove_motor (JObj kv) client_id command_id st)).
Proof.
  intros kv client_id command_id st. split; [|split; [|split]].
  - apply submit_dot_reports.
  - apply submit_path_reports.
  - apply submit_registered_reports.
  - apply glove_reports.
Qed.

(** X14.  An [activate_glove_motor] command that passes the handler's four
    tests makes exactly one call to the player: [submit_dot] under the frame
    name [gloveLeftFrame_motor_<i>] or [gloveRightFrame_motor_<i>], at the
    position of that glove, with the one dot [{index, intensity}].  The
    tests of [haptics_gloves.activate_glove_motor] cannot fail after the
    handler's; the result is the success dict when the call returns and
    ["Failed to activate glove motor"] when it raises. *)
Theorem X14_glove_command_submits_one_dot `{Env} :
  forall kv client_id command_id st,
    let glove := field kv "glove" JNull in
    let motor_index := field kv "motor_index" JNull in
    let intensity := field kv "intensity" (JInt 100) in
    let duration_ms := field kv "duration_ms" (JInt 500) in
    let submit :=
      glove_submit_dot (Py.is_str glove "left") motor_index intensity duration_ms in
    valid_glove glove = true ->
    Py.not_int_between motor_index 0 5 = false ->
    Py.not_int_between intensity 0 100 = false ->
    Py.not_positive_int duration_ms = false ->
    handle_activate_glove_motor (JObj kv) client_id command_id st
    = (Ret (Some match answer (trace st) submit with
                 | Ret _ => JObj [("success", JBool true);
                                  ("glove", glove);
                                  ("motor_index", motor_index);
                                  ("intensity", intensity);
                                  ("duration_ms", duration_ms)]
                 | Raise _ => error_result "Failed to activate glove motor"
                 end),
       called submit st).
Proof.
  intros kv client_id command_id st. apply glove_accepted.
Qed.

Lemma X14_witness :
  let kv := [("glove", JStr "right"); ("motor_index", JInt 3); ("intensity", JInt 80)] in
  let st := initial_state "server" 0%float in
  let submit :=
    EPlayer (PSubmitDot (JStr "gloveRightFrame_motor_3") (JStr "GloveR")
               (JList [JObj [("index", JInt 3); ("intensity", JInt 80)]]) (JInt 500)) in
  handle_activate_glove_motor (H := unplugged) (JObj kv) "c1" "cmd-1" st
  = (Ret (Some (error_result "Failed to activate glove motor")), called submit st).
Proof.
  intros kv st submit.
  exact (X14_glove_command_submits_one_dot (H := unplugged) kv "c1" "cmd-1" st
           eq_refl eq_refl eq_refl eq_refl).
Defined.

(** X15.  [handle_activate_discrete] calls the adapter outside any [try]:
    when [hmc_activate_discrete] raises on a command that passed the four
    tests and carries a [command_id], the client gets no result dict but the
    dispatcher's error envelope ["Error processing command: <str(e)>"], and
    that call and that datagram are all that happens. *)
Theorem X15_adapter_failure_of_activate_discrete_reaches_the_client `{Env} :
  forall fresh_uuid kv command_id client_id addr st e,
    let panel := field kv "panel" JNull in
    let motor_index := field kv "motor_index" JNull in
    let intensity := field kv "intensity" (JInt 100) in
    let duration_ms := field kv "duration_ms" (JInt 500) in
    let activate := EHmcActivateDiscrete panel motor_index intensity duration_ms in
    let cd := {| cd_command := Some "activate_discrete"; cd_params := Some (JObj kv);
                 cd_command_id := Some command_id; cd_client_id := client_id |} in
    let known := default addr (current_clients st !! envelope_client_id addr cd) in
    let st' := snd (process_command fresh_uuid (Envelope cd) addr st) in
    command_id <> "" ->
    valid_panel panel = true ->
    Py.not_int_between motor_index 0 19 = false ->
    Py.not_int_between intensity 0 100 = false ->
    Py.not_positive_int duration_ms = false ->
    answer (trace st) activate = Raise e ->
    trace st'
    = trace st ++ activate ::
      (if server_socket_closed st then []
       else [ESendto known
               (error_envelope command_id ("Error processing command: " +:+ exn_str e)
                  (timestamp_at (called activate st)))]).
Proof.
  intros fresh_uuid kv command_id client_id addr st e panel motor_index intensity
    duration_ms activate cd known st' Hid Hp Hm Hi Hd Hraise.
  subst st'. rewrite process_envelope. cbv zeta.
  change (get_handler (cd_command cd)) with (Some handle_activate_discrete).
  change (default (JObj []) (cd_params cd)) with (JObj kv).
  set (cid := envelope_client_id addr cd).
  change (envelope_command_id fresh_uuid cd) with command_id.
  set (st0 := dispatched_state cid command_id (cd_command cd) addr st).
  assert (trace st0 = trace st) as Htrace by apply dispatched_state_trace.
  cbv beta iota.
  rewrite (discrete_raises kv cid command_id st0 e Hp Hm Hi Hd)
    by (rewrite Htrace; exact Hraise).
  change (cd_command_id cd) with (Some command_id). cbv iota.
  apply String.eqb_neq in Hid. rewrite Hid. cbn [snd].
  rewrite after_error_response_trace.
  change (current_clients (called _ st0)) with (current_clients st0).
  change (server_socket_closed (called _ st0)) with (server_socket_closed st0).
  unfold st0 at 2 3. rewrite dispatched_state_client, dispatched_state_socket.
  fold known. unfold called at 1. cbn [trace set_trace]. rewrite Htrace.
  rewrite <- app_assoc. cbn [app]. do 2 f_equal.
  destruct (server_socket_closed st); [reflexivity|].
  unfold timestamp_at, called. cbn [trace set_trace]. by rewrite Htrace.
Qed.

Lemma X15_witness :
  let kv := [("panel", JStr "front"); ("motor_index", JInt 7)] in
  let addr := ("10.0.0.1", 4000) in
  let st := initial_state "server" 0%float in
  let cd := {| cd_command := Some "activate_discrete"; cd_params := Some (JObj kv);
               cd_command_id := Some "cmd-1"; cd_client_id := Some "c1" |} in
  trace (snd (process_command (H := unplugged) "0b1d7c1e" (Envelope cd) addr st))
  = [EHmcActivateDiscrete (JStr "front") (JInt 7) (JInt 100) (JInt 500);
     ESendto addr
       (error_envelope "cmd-1" "Error processing command: connection lost"
          (JStr "2025-03-07T12:00:00"))].
Proof.
  intros kv addr st cd.
  exact (X15_adapter_failure_of_activate_discrete_reaches_the_client (H := unplugged)
           "0b1d7c1e" kv "cmd-1" (Some "c1") addr st (ExternalError "connection lost")
           ltac:(discriminate) eq_refl eq_refl eq_refl eq_refl eq_refl).
Defined.

(** ** What reaches the adapter *)

Section Adds.
Context `{Env} (Q : effect -> Prop).

Lemma adds_nothing {A} (m : M A) :
  (forall st, trace (snd (m st)) = trace st) -> adds_only Q m.
Proof.
  intros Hsame st. exists []. rewrite app_nil_r. split; [apply Hsame | constructor].
Qed.

Lemma adds_ret {A} (a : A) : adds_only Q (mret a).
Proof. by apply adds_nothing. Qed.

Lemma adds_raise {A} (e : exn) : adds_only Q (raise (A := A) e).
Proof. by apply adds_nothing. Qed.

Lemma adds_lift {A} (o : outcome A) : adds_only Q (lift o).
Proof. by apply adds_nothing. Qed.




Lemma adds_call e : Q e -> adds_only Q (call e).
Proof. intros He st. exists [e]. split; [reflexivity | by constructor]. Qed.

Lemma adds_bind {A C} (m : M A) (k : A -> M C) :
  adds_only Q m -> (forall a, adds_only Q (k a)) -> adds_only Q (m ≫= k).
Proof.
  intros Hm Hk st. unfold mbind, M_bind.
  destruct (Hm st) as (calls & Htrace & Hcalls).
  destruct (m st) as [[a|e] st1]; simpl in *; [|by exists calls].
  destruct (Hk a st1) as (more & Hmore & Hall).
  exists (calls ++ more). rewrite Hmore, Htrace, app_assoc. split; [reflexivity|].
  by apply Forall_app.
Qed.

(** The value a pure step returned is known to what follows it. *)
Lemma adds_bind_lift {A C} (o : outcome A) (k : A -> M C) :
  (forall a, o = Ret a -> adds_only Q (k a)) -> adds_only Q (lift o ≫= k).
Proof.
  intros Hk. destruct o as [a|e].
  - intros st. exact (Hk a eq_refl st).
  - by apply adds_nothing.
Qed.


Lemma adds_for_each {A} (body : A -> M unit) (l : list A) :
  (forall x, x ∈ l -> adds_only Q (body x)) -> adds_only Q (for_each body l).
Proof.
  induction l as [|x l IH]; intros Hbody; simpl.
  - apply adds_ret.
  - apply adds_bind; [apply Hbody; left|].
    intros _. apply IH. intros y Hy. apply Hbody. by right.
Qed.

Lemma adds_weaken {A} (P : effect -> Prop) (m : M A) :
  (forall e, P e -> Q e) -> adds_only P m -> adds_only Q m.
Proof.
  intros HPQ Hm st. destruct (Hm st) as (calls & Htrace & Hcalls).
  exists calls. split; [exact Htrace|]. by eapply Forall_impl.
Qed.

End Adds.

Section MotorArray.
Context `{Env}.

Lemma activate_panel_calls panel step duration_ms :
  panel = "front" \/ panel = "back" ->
  adds_only (motor_call duration_ms) (activate_panel panel step duration_ms).
Proof.
  intros Hpanel. unfold activate_panel.
  apply adds_for_each. intros row Hrow. apply adds_for_each. intros col Hcol.
  apply elem_of_seq in Hrow. apply elem_of_seq in Hcol.
  apply adds_bind; [apply adds_lift|]. intros matrix.
  apply adds_bind; [apply adds_lift|]. intros line.
  apply adds_bind; [apply adds_lift|]. intros intensity.
  apply adds_bind_lift. intros [|] Hpositive; [|apply adds_ret].
  apply adds_bind; [|intros _; apply adds_ret].
  apply adds_call. exists panel, (row * 4 + col)%nat, intensity.
  repeat split; [exact Hpanel | lia | exact Hpositive].
Qed.

Lemma activate_motor_array_calls step duration_ms :
  adds_only (motor_call duration_ms) (activate_motor_array step duration_ms).
Proof.
  unfold activate_motor_array.
  apply adds_bind; [apply activate_panel_calls; by left|]. intros _.
  apply adds_bind; [apply activate_panel_calls; by right|]. intros _.
  destruct (Py.is_number duration_ms); [apply adds_ret | apply adds_raise].
Qed.

End MotorArray.

(** X16.  Whatever the pattern step looks like and whatever the adapter
    answers, [activate_motor_array] asks nothing of the outside but
    [activate_discrete] on the front or the back panel, at a motor index
    from 0 to 19, with the given duration and an intensity that compared
    greater than zero; the intensity has no upper bound.  It touches no
    registry, flag or socket of the server. *)
Theorem X16_motor_array_only_activates_grid_motors `{Env} :
  forall step duration_ms st,
    let st' := snd (activate_motor_array step duration_ms st) in
    (exists calls,
       trace st' = trace st ++ calls /\ Forall (motor_call duration_ms) calls)
    /\ current_clients st' = current_clients st
    /\ active_command_ids st' = active_command_ids st
    /\ event_handlers st' = event_handlers st
    /\ running st' = running st
    /\ server_socket_closed st' = server_socket_closed st.
Proof.
  intros step duration_ms st st'. subst st'.
  split; [apply activate_motor_array_calls|].
  repeat split; by apply activate_motor_array_keeps.
Qed.

(** ** Only validated motor commands reach the adapter *)



Section Validated.
Context `{Env}.












End Validated.


(** ** Custom patterns *)

Section CustomPatterns.
Context `{Env}.





(** A step without a usable front panel stops [activate_motor_array] at its
    first cell. *)
Lemma activate_motor_array_unreadable step duration_ms e st :
  Py.getitem_key step "front" = Raise e ->
  activate_motor_array step duration_ms st = (Raise e, st).
Proof.
  intros Hkey. unfold activate_motor_array, activate_panel. cbn [seq for_each].
  unfold_monad. by rewrite Hkey.
Qed.

Lemma custom_task_splits others pattern duration_ms client_id command_id st :
  _play_custom_pattern_async others pattern duration_ms client_id command_id st
  = match play_steps others 0 pattern duration_ms st with
    | (Ret _, st1) =>
        _send_event "pattern_complete" (custom_complete command_id pattern) client_id st1
    | (Raise e, st1) =>
        _send_event "pattern_error" (custom_error command_id e) client_id st1
    end.
Proof. unfold _play_custom_pattern_async. apply task_sends_once. Qed.

End CustomPatterns.

(** X18.  [play_custom_pattern] checks that the pattern is a non-empty list
    and the duration a positive integer, not what the steps look like: a
    pattern whose first step has no readable [front] layout is accepted
    with ["Custom pattern playback started"] and queued.  The queued task
    then asks nothing of the adapter and ends by calling [_send_event] with
    [pattern_error] and the text of the exception. *)
Theorem X18_unreadable_custom_step_ends_in_pattern_error `{Env} :
  forall others kv step rest e client_id command_id st,
    let duration_ms := field kv "duration_ms" (JInt 500) in
    let pattern := JList (step :: rest) in
    let queued := PlayCustomPatternTask pattern duration_ms client_id command_id in
    field kv "pattern" JNull = pattern ->
    Py.not_positive_int duration_ms = false ->
    Py.getitem_key step "front" = Raise e ->
    handle_play_custom_pattern (JObj kv) client_id command_id st
    = (Ret (Some (JObj [("success", JBool true);
                        ("message", JStr "Custom pattern playback started");
                        ("steps", JInt (Z.of_nat (length (step :: rest))));
                        ("duration_ms", duration_ms)])),
       called (ECreateTask queued) st)
    /\ forall st1,
         running st1 = true ->
         run_task others queued st1
         = _send_event "pattern_error" (custom_error command_id e) client_id st1.
Proof.
  intros others kv step rest e client_id command_id st duration_ms pattern queued
    Hpattern Hduration Hkey.
  split.
  - unfold handle_play_custom_pattern, param, emit, called. unfold mbind, M_bind, lift, modify.
    simpl Py.get.
    fold (field kv "pattern" JNull) (field kv "duration_ms" (JInt 500)).
    fold duration_ms. rewrite Hpattern. cbv beta iota. rewrite Hduration. reflexivity.
  - intros st1 Hrunning. cbn [run_task queued pattern].
    rewrite custom_task_splits. cbn [play_steps].
    unfold mbind at 1, M_bind at 1, gets at 1. rewrite Hrunning. cbn [negb].
    unfold mbind at 1, M_bind at 1.
    by rewrite (activate_motor_array_unreadable step duration_ms e st1 Hkey).
Qed.

Lemma X18_witness :
  let kv := [("pattern", JList [JObj [("back", JList [])]])] in
  let queued := PlayCustomPatternTask (JList [JObj [("back", JList [])]]) (JInt 500)
                  "c1" "cmd-1" in
  let st := with_subscribers {[ "c1" ]} in
  fst (handle_play_custom_pattern (JObj kv) "c1" "cmd-1" st)
  = Ret (Some (JObj [("success", JBool true);
                     ("message", JStr "Custom pattern playback started");
                     ("steps", JInt 1);
                     ("duration_ms", JInt 500)]))
  /\ run_task (H := calm) undisturbed queued st
     = _send_event (H := calm) "pattern_error"
         (custom_error "cmd-1" (KeyError "front")) "c1" st.
Proof.
  intros kv queued st.
  destruct (X18_unreadable_custom_step_ends_in_pattern_error (H := calm) undisturbed
              kv (JObj [("back", JList [])]) [] (KeyError "front") "c1" "cmd-1" st
              eq_refl eq_refl eq_refl) as [Haccepted Htask].
  split.
  - exact (f_equal fst Haccepted).
  - exact (Htask st eq_refl).
Defined.



(** ** Event notifications *)

Section Events.
Context `{Env}.

Lemma send_event_to_spec event_type data clients st :
  exists calls,
    send_event_to event_type data clients st
    = (Ret tt, set_trace (trace st ++ calls) st)
    /\ (length calls <= length clients)%nat
    /\ Forall (fun e =>
                 exists client_id addr timestamp,
                   e = ESendto addr (event_message event_type timestamp data)
                   /\ client_id ∈ clients
                   /\ current_clients st !! client_id = Some addr) calls.
Proof.
  revert st. induction clients as [|client_id rest IH]; intros st.
  { exists []. rewrite set_trace_same. repeat split; [simpl; lia | constructor]. }
  cbn [send_event_to]. unfold mbind at 1, M_bind at 1, gets at 1.
  destruct (current_clients st !! client_id) as [addr|] eqn:Hknown.
  - unfold server_socket_sendto, call, now_iso. unfold_monad.
    destruct (server_socket_closed st) eqn:Hsocket.
    + destruct (IH st) as (calls & -> & Hlen & Hall). exists calls.
      split; [reflexivity|]. split; [simpl; lia|].
      eapply Forall_impl; [exact Hall|].
      intros e (c & a & ts & -> & Hin & Hc). exists c, a, ts.
      repeat split; [by right | exact Hc].
    + set (sent_one := ESendto addr _).
      assert (exists st1, st1 = set_trace (trace st ++ [sent_one]) st) as [st1 Hst1]
        by by eexists.
      destruct (IH st1) as (calls & Hrest & Hlen & Hall).
      exists (sent_one :: calls).
      split; [|split].
      * destruct (answer (trace st) sent_one); rewrite <- Hst1, Hrest, Hst1; simpl;
          by rewrite <- app_assoc.
      * simpl. lia.
      * constructor.
        -- exists client_id, addr, (JStr (isoformat_now (trace st))).
           repeat split; [by left | exact Hknown].
        -- eapply Forall_impl; [exact Hall|].
           intros e (c & a & ts & -> & Hin & Hc). exists c, a, ts.
           repeat split; [by right | by rewrite Hst1 in Hc].
  - destruct (IH st) as (calls & Hrest & Hlen & Hall). exists calls.
    unfold_monad. rewrite Hrest.
    split; [reflexivity|]. split; [simpl; lia|].
    eapply Forall_impl; [exact Hall|].
    intros e (c & a & ts & -> & Hin & Hc). exists c, a, ts.
    repeat split; [by right | exact Hc].
Qed.

End Events.

(** X20.  [_send_event] never raises and changes nothing of the state: a
    send that fails is logged, and unlike in the status broadcast the client
    keeps its registration.  Every datagram it hands to the socket is the
    event message, addressed to the registered address of a client that is
    subscribed to the event type; with a target there is at most one, for
    the target itself, and without a target at most one per subscriber. *)
Theorem X20_events_go_to_registered_subscribers_only `{Env} :
  forall event_type data target st,
    exists calls,
      _send_event event_type data target st
      = (Ret tt, set_trace (trace st ++ calls) st)
      /\ Forall (event_datagram event_type data target st) calls
      /\ (length calls
          <= if String.eqb target "" then
               size (default (∅ : gset string) (event_handlers st !! event_type))
             else 1)%nat.
Proof.
  intros event_type data target st. unfold _send_event.
  unfold mbind, M_bind, gets.
  destruct (send_event_to_spec event_type data (event_clients event_type target st) st)
    as (calls & Hsent & Hlen & Hall).
  exists calls. split; [exact Hsent|]. unfold event_clients in *. cbv zeta in *.
  set (subscribers := default (∅ : gset string) (event_handlers st !! event_type)) in *.
  split.
  - eapply Forall_impl; [exact Hall|].
    intros e (client_id & addr & timestamp & -> & Hin & Hknown).
    exists client_id, addr, timestamp. split; [reflexivity|].
    unfold subscribed. fold subscribers.
    destruct (String.eqb_spec target "") as [->|Htarget].
    + apply elem_of_elements in Hin.
      split; [by apply bool_decide_eq_true|]. split; [exact Hknown | done].
    + case_bool_decide as Hsub; [|by apply elem_of_nil in Hin].
      apply list_elem_of_singleton in Hin. subst client_id.
      split; [by apply bool_decide_eq_true|]. split; [exact Hknown | done].
  - destruct (String.eqb target "").
    + exact Hlen.
    + case_bool_decide; simpl in Hlen; lia.
Qed.

(** ** Calling a guarded cleanup again *)

Section Retry.
Context `{Env}.

(** A cleanup guarded by a flag of its own: [cleanup] of [haptics_gloves]
    and of [array_example]. *)
Variable flag : state -> bool.
Variable cleanup : M unit.

Hypothesis cleanup_when_done : forall st, flag st = true -> cleanup st = (Ret tt, st).
Hypothesis cleanup_calls :
  forall st, flag st = false ->
    trace (snd (cleanup st)) = trace st ++ guarded_cleanup_calls st
    /\ player_ws (snd (cleanup st)) = false.

Lemma repeatedly_done n st : flag st = true -> repeatedly n cleanup st = st.
Proof.
  intros Hdone. induction n as [|n IH]; [reflexivity|].
  cbn [repeatedly]. by rewrite cleanup_when_done.
Qed.

Lemma ws_close_calls_app t calls :
  ws_close_calls (t ++ calls) = (ws_close_calls t + ws_close_calls calls)%nat.
Proof. unfold ws_close_calls. by rewrite filter_app, length_app. Qed.

Lemma destroy_calls_app t calls :
  destroy_calls (t ++ calls) = (destroy_calls t + destroy_calls calls)%nat.
Proof. unfold destroy_calls. by rewrite filter_app, length_app. Qed.

Lemma guarded_cleanup_closes st :
  ws_close_calls (guarded_cleanup_calls st) = if player_ws st then 1%nat else 0%nat.
Proof. unfold guarded_cleanup_calls. destruct (player_ws st); reflexivity. Qed.

Lemma guarded_cleanup_destroys st : destroy_calls (guarded_cleanup_calls st) = 1%nat.
Proof. unfold guarded_cleanup_calls. destruct (player_ws st); reflexivity. Qed.

Lemma repeatedly_closes_once n st :
  (ws_close_calls (trace (repeatedly n cleanup st))
   <= ws_close_calls (trace st) + if player_ws st then 1 else 0)%nat.
Proof.
  revert st. induction n as [|n IH]; intros st; [destruct (player_ws st); simpl; lia|].
  cbn [repeatedly]. destruct (flag st) eqn:Hflag.
  - rewrite cleanup_when_done by exact Hflag. apply IH.
  - destruct (cleanup_calls st Hflag) as [Htrace Hws].
    etrans; [apply IH|]. rewrite Hws, Htrace, ws_close_calls_app, guarded_cleanup_closes.
    lia.
Qed.

Lemma repeatedly_destroys n st :
  (destroy_calls (trace (repeatedly n cleanup st)) <= destroy_calls (trace st) + n)%nat
  /\ (flag (repeatedly n cleanup st) = false ->
      destroy_calls (trace (repeatedly n cleanup st)) = (destroy_calls (trace st) + n)%nat).
Proof.
  revert st. induction n as [|n IH]; intros st; [simpl; split; [lia | intros _; lia]|].
  cbn [repeatedly]. destruct (flag st) eqn:Hflag.
  - rewrite cleanup_when_done by exact Hflag. cbn [snd].
    rewrite repeatedly_done by exact Hflag. split; [lia | congruence].
  - destruct (cleanup_calls st Hflag) as [Htrace Hws].
    destruct (IH (snd (cleanup st))) as [Hle Heq].
    assert (destroy_calls (trace (snd (cleanup st))) = (destroy_calls (trace st) + 1)%nat)
      as Hone.
    { by rewrite Htrace, destroy_calls_app, guarded_cleanup_destroys. }
    split; [lia|]. intros Hstill. rewrite (Heq Hstill). lia.
Qed.

End Retry.

Section ModuleCleanups.
Context `{Env}.

Lemma gloves_cleanup_when_done st :
  gloves_cleanup_done st = true -> gloves_cleanup st = (Ret tt, st).
Proof. intros Hdone. unfold gloves_cleanup. unfold_monad. by rewrite Hdone. Qed.

Lemma gloves_cleanup_calls st :
  gloves_cleanup_done st = false ->
  trace (snd (gloves_cleanup st)) = trace st ++ guarded_cleanup_calls st
  /\ player_ws (snd (gloves_cleanup st)) = false.
Proof.
  intros Hflag. unfold gloves_cleanup, guarded_cleanup_calls, call. unfold_monad.
  rewrite Hflag. destruct (player_ws st) eqn:Hws; simpl; case_answers;
    simpl; by rewrite <- ?app_assoc.
Qed.

Lemma array_example_cleanup_when_done st :
  array_cleanup_done st = true -> array_example_cleanup st = (Ret tt, st).
Proof. intros Hdone. unfold array_example_cleanup. unfold_monad. by rewrite Hdone. Qed.

Lemma array_example_cleanup_calls st :
  array_cleanup_done st = false ->
  trace (snd (array_example_cleanup st)) = trace st ++ guarded_cleanup_calls st
  /\ player_ws (snd (array_example_cleanup st)) = false.
Proof.
  intros Hflag. unfold array_example_cleanup, guarded_cleanup_calls, call. unfold_monad.
  rewrite Hflag. destruct (player_ws st) eqn:Hws; simpl; case_answers;
    simpl; by rewrite <- ?app_assoc.
Qed.

(** The cleanup of [haptics_pattern_player] has no flag. *)
Lemma pattern_player_cleanup_again n st :
  destroy_calls (trace (repeatedly n pattern_player_cleanup st))
  = (destroy_calls (trace st) + n)%nat.
Proof.
  revert st. induction n as [|n IH]; intros st; [simpl; lia|].
  cbn [repeatedly]. rewrite IH.
  destruct (pattern_player_cleanup_spec st) as (st' & Hcleanup & Htrace & _).
  rewrite Hcleanup. cbn [snd]. rewrite Htrace, destroy_calls_app.
  change (destroy_calls [EPlayer PDestroy]) with 1%nat. lia.
Qed.

End ModuleCleanups.

(** X21.  Calling [cleanup] of [haptics_gloves] or of [array_example] again
    and again closes the player's socket at most once and destroys the
    player at most once per call; once the module's flag is set a call does
    nothing, and as long as the flag is still clear, because [destroy]
    raised, every call has destroyed the player again.  [cleanup] of
    [haptics_pattern_player] has no flag: it destroys the player on every
    call. *)
Theorem X21_guarded_cleanups_retry_until_destroyed `{Env} :
  forall n st,
    let gloves := repeatedly n gloves_cleanup st in
    let array := repeatedly n array_example_cleanup st in
    (gloves_cleanup_done st = true -> gloves = st)
    /\ (ws_close_calls (trace gloves) <= ws_close_calls (trace st) + 1)%nat
    /\ (destroy_calls (trace gloves) <= destroy_calls (trace st) + n)%nat
    /\ (gloves_cleanup_done gloves = false ->
        destroy_calls (trace gloves) = (destroy_calls (trace st) + n)%nat)
    /\ (array_cleanup_done st = true -> array = st)
    /\ (ws_close_calls (trace array) <= ws_close_calls (trace st) + 1)%nat
    /\ (destroy_calls (trace array) <= destroy_calls (trace st) + n)%nat
    /\ (array_cleanup_done array = false ->
        destroy_calls (trace array) = (destroy_calls (trace st) + n)%nat)
    /\ destroy_calls (trace (repeatedly n pattern_player_cleanup st))
       = (destroy_calls (trace st) + n)%nat.
Proof.
  intros n st gloves array.
  pose proof (repeatedly_closes_once gloves_cleanup_done gloves_cleanup
                gloves_cleanup_when_done gloves_cleanup_calls n st) as Hgw.
  pose proof (repeatedly_closes_once array_cleanup_done array_example_cleanup
                array_example_cleanup_when_done array_example_cleanup_calls n st) as Haw.
  destruct (repeatedly_destroys gloves_cleanup_done gloves_cleanup
              gloves_cleanup_when_done gloves_cleanup_calls n st) as [Hgle Hgeq].
  destruct (repeatedly_destroys array_cleanup_done array_example_cleanup
              array_example_cleanup_when_done array_example_cleanup_calls n st)
    as [Hale Haeq].
  repeat split; try assumption.
  - by apply repeatedly_done, gloves_cleanup_when_done.
  - destruct (player_ws st); fold gloves in Hgw; lia.
  - by apply repeatedly_done, array_example_cleanup_when_done.
  - destruct (player_ws st); fold array in Haw; lia.
  - apply pattern_player_cleanup_again.
Qed.

(** ** Commands that only look *)

Section ReadOnly.
Context `{Env}.

Lemma reads_nothing {A} (m : M A) : (forall st, snd (m st) = st) -> reads_only m.
Proof.
  intros Hsame st. exists []. rewrite set_trace_same. split; [apply Hsame | constructor].
Qed.

Lemma reads_call e : is_query e = true -> reads_only (call e).
Proof. intros He st. exists [e]. split; [reflexivity | by constructor]. Qed.

Lemma reads_bind {A C} (m : M A) (k : A -> M C) :
  reads_only m -> (forall a, reads_only (k a)) -> reads_only (m ≫= k).
Proof.
  intros Hm Hk st. unfold mbind, M_bind.
  destruct (Hm st) as (calls & Hstate & Hcalls).
  destruct (m st) as [[a|e] st1]; simpl in *; [|by exists calls].
  destruct (Hk a st1) as (more & Hmore & Hall).
  exists (calls ++ more). rewrite Hmore, Hstate. split; [|by apply Forall_app].
  simpl. by rewrite <- app_assoc.
Qed.

End ReadOnly.

Ltac reads_step :=
  first
    [ apply reads_nothing; reflexivity
    | apply reads_call; reflexivity
    | apply reads_bind; [|intros ?]
    | match goal with
      | |- reads_only (if ?b then _ else _) => destruct b
      | |- reads_only (match ?x with _ => _ end) => destruct x
      end ].

(** X22.  [ping], [get_status], [get_device_status] and
    [is_pattern_playing] only look: whatever their parameters, all they ask
    of the outside are the player's [is_device_connected], [is_playing] and
    [is_playing_key], and they leave every registry, flag and socket of the
    server as it was. *)
Theorem X22_status_commands_only_query_the_player `{Env} :
  forall params client_id command_id,
    reads_only (handle_ping params client_id command_id)
    /\ reads_only (handle_get_status params client_id command_id)
    /\ reads_only (handle_get_device_status params client_id command_id)
    /\ reads_only (handle_is_pattern_playing params client_id command_id).
Proof.
  intros params client_id command_id. split; [|split; [|split]].
  - unfold handle_ping, param, now_iso. repeat reads_step.
  - unfold handle_get_status, get_status_data, device_statuses, is_device_connected.
    repeat reads_step.
  - unfold handle_get_device_status, device_statuses, is_device_connected, param.
    repeat reads_step.
  - unfold handle_is_pattern_playing, param. repeat reads_step.
Qed.

(** ** Registrations over a run *)

Section Registrations.
Context `{Env}.

Lemma stop_keeps_clients : keeps current_clients stop.
Proof.
  unfold stop, cleanup_haptics, gloves_cleanup, pattern_player_cleanup,
    array_example_cleanup.
  frame.
Qed.

(** What an action other than a broadcast round does to the Client
    Registry: a command of a client that is not registered binds it to the
    sender's address, and that is all. *)
Lemma perform_clients a st :
  is_broadcast_round a = false ->
  current_clients (perform a st)
  = match a with
    | AProcessCommand _ (Envelope cd) addr =>
        let client_id := envelope_client_id addr cd in
        match current_clients st !! client_id with
        | Some _ => current_clients st
        | None => <[client_id := addr]> (current_clients st)
        end
    | _ => current_clients st
    end.
Proof.
  destruct a as [fresh_uuid data addr| | | | |]; cbn [perform]; try discriminate; intros _.
  - rewrite process_command_clients. by destruct data.
  - by apply activate_motor_array_keeps.
  - by apply keeps_send_event.
  - by apply play_pattern_async_keeps.
  - apply stop_keeps_clients.
Qed.

Lemma perform_keeps_bindings a st :
  is_broadcast_round a = false ->
  current_clients st ⊆ current_clients (perform a st)
  /\ (size (current_clients (perform a st))
      <= size (current_clients st) + if is_command a then 1 else 0)%nat.
Proof.
  intros Hquiet. rewrite (perform_clients a st Hquiet).
  destruct a as [fresh_uuid [| | |cd] addr| | | | |]; simpl; try (split; [done | lia]).
  destruct (current_clients st !! envelope_client_id addr cd) eqn:Hknown;
    [split; [done | lia]|].
  split; [by apply insert_subseteq|].
  rewrite map_size_insert_None by exact Hknown. lia.
Qed.

End Registrations.

(** X23.  Apart from the evictions of the status broadcaster, nothing ever
    removes or rebinds a registration: over any run without a broadcast
    round every client stays registered at the address it had, and the
    Client Registry grows by at most one entry per decoded command. *)
Theorem X23_registrations_are_stable_between_broadcasts `{Env} :
  forall actions st,
    forallb (fun a => negb (is_broadcast_round a)) actions = true ->
    current_clients st ⊆ current_clients (run actions st)
    /\ (size (current_clients (run actions st))
        <= size (current_clients st) + length (filter (fun a => is_command a = true) actions))%nat.
Proof.
  intros actions. induction actions as [|a actions IH]; intros st Hquiet.
  - split; [done | simpl; lia].
  - cbn [forallb] in Hquiet. apply andb_true_iff in Hquiet as [Ha%negb_true_iff Hquiet].
    destruct (perform_keeps_bindings a st Ha) as [Hsub Hsize].
    destruct (IH (perform a st) Hquiet) as [Hsubs Hsizes].
    unfold run in *. cbn [fold_left]. split; [by etrans|].
    etrans; [exact Hsizes|].
    destruct (is_command a) eqn:Hcommand.
    + rewrite filter_cons_True by exact Hcommand. simpl. lia.
    + rewrite filter_cons_False by congruence. lia.
Qed.

Lemma X23_witness :
  let st := set_current_clients two_clients (initial_state "server" 0%float) in
  let actions := [ping_from "c1" (Some "cmd-1"); ping_from "c3" None;
                  ASendEvent "pattern_complete" (JObj []) "c1"; AStop] in
  two_clients ⊆ current_clients (run (H := calm) actions st)
  /\ (size (current_clients (run (H := calm) actions st)) <= 4)%nat.
Proof.
  intros st actions.
  exact (X23_registrations_are_stable_between_broadcasts (H := calm) actions st eq_refl).
Defined.
